(** * rag-explorer: retrieval strategies, keyword extraction and answer grading

    A shallow embedding of the retrieval-and-scoring core of the benchmark:

    - [scripts/rag-benchmark.js]: [getEmbeddingDimension], the embedding-model
      guard of [runBenchmark], and the answer grader [countKeywordMatches];
    - [scripts/strategies/vector-search.js], [hybrid-search.js] and
      [combined-search.js]: the three [search] methods with the SQL text
      they send to the store, and [extractKeywords];
    - [dbDocs/database-builder-multi-dimension.js]: the stand-alone query
      [queryMultiDimensionPostgresDatabase], up to the query it sends.

    Conventions of the embedding.

    - A JavaScript string is a [string] of 8-bit characters read as ASCII
      text: [toLowerCase] maps [A-Z] to [a-z] and leaves every other
      character alone, the regular-expression class [\w] is [[A-Za-z0-9_]]
      and [\s] is tab, line feed, vertical tab, form feed, carriage return
      and space.
    - Scores (PostgreSQL [double precision], JavaScript numbers) are rationals
      [Q]; rounding and NaN are not modelled.
    - The operators of PostgreSQL and pgvector that the SQL text calls
      ([<=>], [ts_rank_cd], [@@], ...) are parameters of the development.
    - [ORDER BY] is a stable sort of the rows in table order, and
      [FULL OUTER JOIN] lists the rows of its left operand first. *)

From Stdlib Require Import Ascii String List Bool Arith Lia QArith Qfield.
From stdpp Require Import base decidable list strings pretty sorting gmap.

Local Open Scope stdpp_scope.

(** ** JavaScript strings *)

Module JsString.

Definition is_upper (c : ascii) : bool :=
  let n := nat_of_ascii c in (65 <=? n)%nat && (n <=? 90)%nat.

Definition lower_char (c : ascii) : ascii :=
  if is_upper c then ascii_of_nat (nat_of_ascii c + 32) else c.

(** [String.prototype.toLowerCase]. *)
Fixpoint toLowerCase (s : string) : string :=
  match s with
  | EmptyString => EmptyString
  | String c s' => String (lower_char c) (toLowerCase s')
  end.

(** The class [\w]. *)
Definition is_word (c : ascii) : bool :=
  let n := nat_of_ascii c in
  ((48 <=? n)%nat && (n <=? 57)%nat)
  || ((65 <=? n)%nat && (n <=? 90)%nat)
  || (n =? 95)%nat
  || ((97 <=? n)%nat && (n <=? 122)%nat).

(** The class [\s]. *)
Definition is_space (c : ascii) : bool :=
  let n := nat_of_ascii c in
  ((9 <=? n)%nat && (n <=? 13)%nat) || (n =? 32)%nat.

(** [s.replace(/[^...]/g, '')]: the characters of the negated class are
    removed, those satisfying [keep] stay. *)
Fixpoint remove_not (keep : ascii -> bool) (s : string) : string :=
  match s with
  | EmptyString => EmptyString
  | String c s' =>
      if keep c then String c (remove_not keep s') else remove_not keep s'
  end.

(** [t.startsWith]-style test: [t] is a prefix of [s]. *)
Fixpoint starts_with (s t : string) {struct t} : bool :=
  match t, s with
  | EmptyString, _ => true
  | String _ _, EmptyString => false
  | String b t', String a s' => Ascii.eqb a b && starts_with s' t'
  end.

(** [s.includes(t)]. *)
Fixpoint includes (s t : string) : bool :=
  starts_with s t
  || match s with
     | EmptyString => false
     | String _ s' => includes s' t
     end.

Definition non_empty (w : string) : bool := negb (String.eqb w EmptyString).

Definition snoc (s : string) (c : ascii) : string :=
  s +:+ String c EmptyString.

(** [s.split(/[sep]+/)]: the pieces between the maximal runs of separator
    characters, an empty piece included when the string starts or ends with
    a separator. [in_sep] tells that the previous character was a
    separator, [cur] is the piece being read. *)
Fixpoint split_go (sep : ascii -> bool) (in_sep : bool) (cur s : string)
  : list string :=
  match s with
  | EmptyString => [cur]
  | String c s' =>
      if sep c then
        if in_sep then split_go sep true EmptyString s'
        else cur :: split_go sep true EmptyString s'
      else split_go sep false (snoc cur c) s'
  end.

Definition split (sep : ascii -> bool) (s : string) : list string :=
  split_go sep false EmptyString s.

(** [[...new Set(l)]]: the first occurrence of each element, in order. *)
Fixpoint unique_go (seen l : list string) : list string :=
  match l with
  | [] => []
  | x :: l' =>
      if bool_decide (x ∈ seen) then unique_go seen l'
      else x :: unique_go (x :: seen) l'
  end.

Definition unique (l : list string) : list string := unique_go [] l.

End JsString.

Import JsString.

(** ** The answer grader ([countKeywordMatches], rag-benchmark.js) *)

Module Grader.

Definition negativePatterns : list string :=
  [ "does not provide";
    "doesn't provide";
    "no information";
    "not mentioned";
    "not specified";
    "not found";
    "not available";
    "cannot find";
    "could not find";
    "unable to find";
    "the context does not";
    "the provided context does not";
    "the information is not";
    "no details";
    "no data";
    "not present";
    "not included" ].

(** [negativePatterns.some(pattern => s.includes(pattern))]. *)
Definition has_negative (s : string) : bool :=
  existsb (fun pattern => includes s pattern) negativePatterns.

(** The callback of [keywords.every]: the keyword follows a negative
    pattern and one of [about], [on], [regarding]. *)
Definition negated_keyword (lowerText keyword : string) : bool :=
  let keywordLower := toLowerCase keyword in
  existsb (fun pattern =>
    includes lowerText (pattern +:+ " about " +:+ keywordLower)
    || includes lowerText (pattern +:+ " on " +:+ keywordLower)
    || includes lowerText (pattern +:+ " regarding " +:+ keywordLower))
    negativePatterns.

Definition sentence_sep (c : ascii) : bool :=
  Ascii.eqb c "." || Ascii.eqb c "!" || Ascii.eqb c "?".

(** One turn of the counting loop. *)
Definition count_keyword (lowerText : string) (hasNegativePattern : bool)
    (count : nat) (keyword : string) : nat :=
  let keywordLower := toLowerCase keyword in
  if includes lowerText keywordLower then
    if hasNegativePattern then
      let sentences := split sentence_sep lowerText in
      let keywordSentences :=
        List.filter (fun s => includes s keywordLower) sentences in
      if existsb (fun sentence => negb (has_negative sentence))
           keywordSentences
      then S count else count
    else S count
  else count.

(** [text] and [keywords] may be [null] ([None]). *)
Definition countKeywordMatches (text : option string)
    (keywords : option (list string)) : nat :=
  match text, keywords with
  | Some text, Some keywords =>
      if String.eqb text EmptyString || (length keywords =? 0)%nat then 0
      else
        let lowerText := toLowerCase text in
        let hasNegativePattern := has_negative lowerText in
        if hasNegativePattern
           && forallb (negated_keyword lowerText) keywords
        then 0
        else fold_left (count_keyword lowerText hasNegativePattern)
               keywords 0
  | _, _ => 0
  end.

End Grader.

(** ** The keyword extractor ([extractKeywords], hybrid-search.js and
    combined-search.js: the two methods have the same text) *)

Module Keywords.

Definition stopWords : list string :=
  ["a"; "an"; "the"; "and"; "or"; "but"; "is"; "are"; "in"; "on"; "at";
   "to"; "for"; "with"].

Definition keep_word (word : string) : bool :=
  (2 <? String.length word)%nat && negb (bool_decide (word ∈ stopWords)).

Definition extractKeywords (queryText : string) : list string :=
  let words :=
    List.filter keep_word
      (split is_space
         (remove_not (fun c => is_word c || is_space c)
            (toLowerCase queryText))) in
  unique words.

(** [keywords.join(' | ')]. *)
Fixpoint join (sep : string) (l : list string) : string :=
  match l with
  | [] => EmptyString
  | [x] => x
  | x :: l' => x +:+ sep +:+ join sep l'
  end.

Definition keywordPattern (queryText : string) : string :=
  join " | " (extractKeywords queryText).

End Keywords.

(** The extractor as the specification words it: a set of terms. *)

Module KeywordSpec.

(** Lowercase the input. *)
Definition lowercase (text : string) : string := toLowerCase text.

(** Strip all non-word, non-whitespace characters. *)
Definition strip (text : string) : string :=
  remove_not (fun c => is_word c || is_space c) text.

(** Split on whitespace runs: the maximal runs of characters that are not
    whitespace. [cur] is the run being read. *)
Fixpoint runs_go (cur s : string) : list string :=
  match s with
  | EmptyString => if decide (cur = EmptyString) then [] else [cur]
  | String c s' =>
      if is_space c then
        if decide (cur = EmptyString) then runs_go EmptyString s'
        else cur :: runs_go EmptyString s'
      else runs_go (snoc cur c) s'
  end.

Definition tokens (text : string) : list string := runs_go EmptyString text.

Definition stop_word (w : string) : Prop :=
  w ∈ ["a"; "an"; "the"; "and"; "or"; "but"; "is"; "are"; "in"; "on"; "at";
       "to"; "for"; "with"].

Definition short (w : string) : Prop := (String.length w ≤ 2)%nat.

Definition extract (text : string) : gset string :=
  list_to_set
    (filter (fun w => ¬ stop_word w)
       (filter (fun w => ¬ short w) (tokens (strip (lowercase text))))).

End KeywordSpec.

(** ** The fragment of SQL the three queries are written in *)

Module Sql.

Section Rows.
Context {A B : Type}.

(** [ORDER BY]: a stable insertion sort, [le a b] telling that [a] may
    come before [b]. The store leaves the order of rows with equal keys
    open; the sort lists them in table order, one of the orders the store
    may give (see [Ties] below). *)
Fixpoint insert_by (le : A -> A -> bool) (x : A) (l : list A) : list A :=
  match l with
  | [] => [x]
  | y :: l' => if le x y then x :: y :: l' else y :: insert_by le x l'
  end.

Fixpoint order_by (le : A -> A -> bool) (l : list A) : list A :=
  match l with
  | [] => []
  | x :: l' => insert_by le x (order_by le l')
  end.

(** [ORDER BY key] and [ORDER BY key DESC]. *)
Definition asc (key : A -> Q) (a b : A) : bool := Qle_bool (key a) (key b).
Definition desc (key : A -> Q) (a b : A) : bool := Qle_bool (key b) (key a).

(** [LIMIT n]. *)
Definition limit (n : nat) (l : list A) : list A := firstn n l.

(** A row of [l FULL OUTER JOIN r]: both sides, or one side with the
    other all [NULL]. *)
Inductive joined : Type :=
| Both (a : A) (b : B)
| LeftOnly (a : A)
| RightOnly (b : B).

Definition left_of (j : joined) : option A :=
  match j with Both a _ | LeftOnly a => Some a | RightOnly _ => None end.

Definition right_of (j : joined) : option B :=
  match j with Both _ b | RightOnly b => Some b | LeftOnly _ => None end.

(** [l FULL OUTER JOIN r ON l.id = r.id]. *)
Definition full_outer_join (ida : A -> Z) (idb : B -> Z)
    (l : list A) (r : list B) : list joined :=
  flat_map (fun a =>
      match List.filter (fun b => Z.eqb (ida a) (idb b)) r with
      | [] => [LeftOnly a]
      | bs => map (Both a) bs
      end) l
  ++ map RightOnly
       (List.filter
          (fun b => negb (existsb (fun a => Z.eqb (ida a) (idb b)) l)) r).
End Rows.

Arguments joined : clear implicits.

(** [COALESCE(a, b)]. *)
Definition coalesce {A : Type} (a b : option A) : option A :=
  match a with Some _ => a | None => b end.

(** [COALESCE(a, 0)] on a score. *)
Definition coalesce0 (a : option Q) : Q :=
  match a with Some x => x | None => 0%Q end.

(** [a / b] on [double precision]: a zero divisor raises
    [division by zero] ([None]). *)
Definition div (a b : Q) : option Q :=
  if Qeq_bool b 0 then None else Some (a / b)%Q.

(** [text LIKE pattern]: [%] stands for any sequence of characters, [_] for
    any one character, and a backslash makes the next pattern character
    stand for itself. A pattern that ends in a lone backslash is an error
    in PostgreSQL; no pattern built below does (they all end in [%]), and
    the model answers [false] there. *)
Fixpoint like (pattern text : string) : bool :=
  match pattern with
  | EmptyString =>
      match text with EmptyString => true | String _ _ => false end
  | String c p' =>
      if Ascii.eqb c "%" then
        (fix any (u : string) : bool :=
           like p' u
           || match u with
              | EmptyString => false
              | String _ u' => any u'
              end) text
      else if Ascii.eqb c "_" then
        match text with
        | EmptyString => false
        | String _ t' => like p' t'
        end
      else if Ascii.eqb c "\" then
        match p' with
        | EmptyString => false
        | String d p'' =>
            match text with
            | EmptyString => false
            | String x t' => Ascii.eqb x d && like p'' t'
            end
        end
      else
        match text with
        | EmptyString => false
        | String x t' => Ascii.eqb x c && like p' t'
        end
  end.

(** [text ILIKE pattern]: [LIKE] without regard to case. *)
Definition ilike (text pattern : string) : bool :=
  like (toLowerCase pattern) (toLowerCase text).

End Sql.

(** ** The document store *)

Module Store.

Definition vector : Type := list Q.

(** The columns of [documents_<dimension>] that the queries select.
    [id] is the primary key; [xeto_spec_name] and [xeto_library] may be
    [NULL]; [metadata] is kept as text. *)
Record Columns : Type := {
  id : Z;
  content : string;
  content_type : string;
  metadata : string;
  xeto_spec_name : option string;
  xeto_library : option string
}.

(** A row of [documents_<dimension>]. *)
Record Document : Type := {
  columns :> Columns;
  embedding : vector
}.

(** The operators of pgvector and of PostgreSQL's text search that the
    queries call. *)
Class Operators : Type := {
  (** [a <=> b] *)
  cosine_distance : vector -> vector -> Q;
  (** [to_tsvector('english', content) @@ to_tsquery('english', pattern)] *)
  ts_match : string -> string -> bool;
  (** [ts_rank_cd(to_tsvector('english', content),
                  to_tsquery('english', pattern))] *)
  ts_rank_cd : string -> string -> Q;
  (** [ts_rank_cd(setweight(to_tsvector('english', name), 'A') ||
                  setweight(to_tsvector('english', library), 'B') ||
                  setweight(to_tsvector('english', content), 'C'),
                  plainto_tsquery('english', text), 32)] *)
  ts_rank_cd_fields : string -> string -> string -> string -> Q
}.

(** [options.weight || fallback]: the fallback replaces a missing weight
    and a weight that is zero. *)
Definition or_default (weight : option Q) (fallback : Q) : Q :=
  match weight with
  | Some w => if Qeq_bool w 0 then fallback else w
  | None => fallback
  end.

End Store.

Import Store.

(** ** Vector strategy ([VectorSearchStrategy.search]) *)

Module Vector.
Section Search.
Context `{Operators}.

Record Candidate : Type := {
  doc : Columns;
  similarity : Q
}.

(** [table] holds the rows of [documents_<dimension>]. *)
Definition search (embedding : vector) (embeddingModel contentType : string)
    (topK : nat) (table : list Document) : list Candidate :=
  map (fun d : Document =>
         {| doc := d;
            similarity :=
              (1 - cosine_distance (Store.embedding d) embedding)%Q |})
    (Sql.limit topK
       (Sql.order_by
          (Sql.asc (fun d : Document =>
                      cosine_distance (Store.embedding d) embedding))
          (List.filter
             (fun d : Document => String.eqb (content_type d) contentType)
             table))).
End Search.
End Vector.

(** ** The branches shared by the Hybrid and Combined queries *)

Module Branches.
Section Queries.
Context `{Operators}.

Record VectorRow : Type := {
  v_columns :> Columns;
  vector_similarity : Q
}.

Record KeywordRow : Type := {
  k_columns :> Columns;
  keyword_similarity : Q
}.

Record Bm25Row : Type := {
  b_columns :> Columns;
  bm25_similarity : Q
}.

(** [vector_results AS (... ORDER BY embedding <=> $1 LIMIT $3 * n)] *)
Definition vector_results (n : nat) (embedding : vector)
    (contentType : string) (topK : nat) (table : list Document)
  : list VectorRow :=
  map (fun d : Document =>
         {| v_columns := d;
            vector_similarity :=
              (1 - cosine_distance (Store.embedding d) embedding)%Q |})
    (Sql.limit (topK * n)
       (Sql.order_by
          (Sql.asc (fun d : Document =>
                      cosine_distance (Store.embedding d) embedding))
          (List.filter
             (fun d : Document => String.eqb (content_type d) contentType)
             table))).

(** [keyword_results AS (... ORDER BY keyword_similarity DESC
                         LIMIT $3 * n)] *)
Definition keyword_results (n : nat) (keywordPattern contentType : string)
    (topK : nat) (table : list Document) : list KeywordRow :=
  Sql.limit (topK * n)
    (Sql.order_by (Sql.desc keyword_similarity)
       (map (fun d : Document =>
               {| k_columns := d;
                  keyword_similarity :=
                    ts_rank_cd (content d) keywordPattern |})
          (List.filter
             (fun d : Document =>
                String.eqb (content_type d) contentType
                && ts_match (content d) keywordPattern)
             table))).

(** [coalesce(column, '')] on a text column. *)
Definition or_empty (s : option string) : string :=
  match s with Some x => x | None => EmptyString end.

(** [bm25_results AS (... ORDER BY bm25_similarity DESC LIMIT $3 * 3)] *)
Definition bm25_results (queryText contentType : string) (topK : nat)
    (table : list Document) : list Bm25Row :=
  Sql.limit (topK * 3)
    (Sql.order_by (Sql.desc bm25_similarity)
       (map (fun d : Document =>
               {| b_columns := d;
                  bm25_similarity :=
                    ts_rank_cd_fields (or_empty (xeto_spec_name d))
                      (or_empty (xeto_library d)) (content d) queryText |})
          (List.filter
             (fun d : Document => String.eqb (content_type d) contentType)
             table))).

(** The six [COALESCE(l.column, r.column)] of a joined row. *)
Definition joined_columns {A B : Type} (ca : A -> Columns)
    (cb : B -> Columns) (j : Sql.joined A B) : Columns :=
  match j with
  | Sql.Both a b =>
      {| id := id (ca a);
         content := content (ca a);
         content_type := content_type (ca a);
         metadata := metadata (ca a);
         xeto_spec_name :=
           Sql.coalesce (xeto_spec_name (ca a)) (xeto_spec_name (cb b));
         xeto_library :=
           Sql.coalesce (xeto_library (ca a)) (xeto_library (cb b)) |}
  | Sql.LeftOnly a => ca a
  | Sql.RightOnly b => cb b
  end.

(** The rows of a select list that can fail: all of them, or the first
    error. *)
Fixpoint select_all {A B : Type} (f : A -> option B) (l : list A)
  : option (list B) :=
  match l with
  | [] => Some []
  | r :: l' =>
      match f r, select_all f l' with
      | Some c, Some cs => Some (c :: cs)
      | _, _ => None
      end
  end.
End Queries.
End Branches.

Import Branches.

(** ** Hybrid strategy ([HybridSearchStrategy.search]) *)

Module Hybrid.
Section Search.
Context `{Operators}.

Record Options : Type := {
  vectorWeight : option Q;
  keywordWeight : option Q
}.

(** [options = {}] *)
Definition no_options : Options :=
  {| vectorWeight := None; keywordWeight := None |}.

Record CombinedRow : Type := {
  c_columns :> Columns;
  weighted_vector_similarity : Q;
  weighted_keyword_similarity : Q;
  combined_score : Q
}.

Record Candidate : Type := {
  doc : Columns;
  vectorSimilarity : Q;
  keywordSimilarity : Q;
  similarity : Q
}.

(** [combined_results AS (...)] *)
Definition combined_results (vectorWeight keywordWeight : Q)
    (v : list VectorRow) (k : list KeywordRow) : list CombinedRow :=
  map (fun j : Sql.joined VectorRow KeywordRow =>
         let wv :=
           (Sql.coalesce0 (option_map vector_similarity (Sql.left_of j))
            * vectorWeight)%Q in
         let wk :=
           (Sql.coalesce0 (option_map keyword_similarity (Sql.right_of j))
            * keywordWeight)%Q in
         {| c_columns := joined_columns v_columns k_columns j;
            weighted_vector_similarity := wv;
            weighted_keyword_similarity := wk;
            combined_score := (wv + wk)%Q |})
    (Sql.full_outer_join (fun a : VectorRow => id a)
       (fun b : KeywordRow => id b) v k).

(** The select list of the final [SELECT], on one row; the two divisions
    can fail. [rows.map(...)] copies the columns into the candidate. *)
Definition select_row (vectorWeight keywordWeight : Q) (r : CombinedRow)
  : option Candidate :=
  match Sql.div (weighted_vector_similarity r) vectorWeight,
        Sql.div (weighted_keyword_similarity r) keywordWeight with
  | Some vs, Some ks =>
      Some {| doc := r;
              vectorSimilarity := vs;
              keywordSimilarity := ks;
              similarity := combined_score r |}
  | _, _ => None
  end.

(** The whole query with its six parameters bound. *)
Definition query (embedding : vector) (contentType : string) (topK : nat)
    (keywordPattern : string) (vectorWeight keywordWeight : Q)
    (table : list Document) : option (list Candidate) :=
  option_map
    (fun rows => Sql.limit topK (Sql.order_by (Sql.desc similarity) rows))
    (select_all (select_row vectorWeight keywordWeight)
       (combined_results vectorWeight keywordWeight
          (vector_results 2 embedding contentType topK table)
          (keyword_results 2 keywordPattern contentType topK table))).

(** [None] is a query that the store rejects with an error. *)
Definition search (embedding : vector)
    (queryText embeddingModel contentType : string) (topK : nat)
    (table : list Document) (options : Options)
  : option (list Candidate) :=
  let vectorWeight := or_default (vectorWeight options) (7 # 10) in
  let keywordWeight := or_default (keywordWeight options) (3 # 10) in
  let keywords := Keywords.extractKeywords queryText in
  let keywordPattern := Keywords.join " | " keywords in
  query embedding contentType topK keywordPattern vectorWeight
    keywordWeight table.
End Search.
End Hybrid.

(** ** Combined strategy ([CombinedSearchStrategy.search]) *)

Module Combined.
Section Search.
Context `{Operators}.

Record Options : Type := {
  vectorWeight : option Q;
  keywordWeight : option Q;
  bm25Weight : option Q
}.

(** [options = {}] *)
Definition no_options : Options :=
  {| vectorWeight := None; keywordWeight := None; bm25Weight := None |}.

Record VkRow : Type := {
  vk_columns :> Columns;
  vk_vector_similarity : option Q;
  vk_keyword_similarity : option Q
}.

Record CombinedRow : Type := {
  c_columns :> Columns;
  weighted_vector_similarity : Q;
  weighted_keyword_similarity : Q;
  weighted_bm25_similarity : Q;
  combined_score : Q
}.

Record BoostedRow : Type := {
  cr :> CombinedRow;
  boosted_score : Q
}.

Record Candidate : Type := {
  doc : Columns;
  vectorSimilarity : Q;
  keywordSimilarity : Q;
  bm25Similarity : Q;
  similarity : Q
}.

(** [vk_join AS (...)] *)
Definition vk_join (v : list VectorRow) (k : list KeywordRow)
  : list VkRow :=
  map (fun j : Sql.joined VectorRow KeywordRow =>
         {| vk_columns := joined_columns v_columns k_columns j;
            vk_vector_similarity :=
              option_map vector_similarity (Sql.left_of j);
            vk_keyword_similarity :=
              option_map keyword_similarity (Sql.right_of j) |})
    (Sql.full_outer_join (fun a : VectorRow => id a)
       (fun b : KeywordRow => id b) v k).

(** A column of [vk] in a row of [vk FULL OUTER JOIN b]. *)
Definition vk_score (f : VkRow -> option Q)
    (j : Sql.joined VkRow Bm25Row) : option Q :=
  match Sql.left_of j with
  | Some vk => f vk
  | None => None
  end.

(** [combined_results AS (...)] *)
Definition combined_results (vectorWeight keywordWeight bm25Weight : Q)
    (vk : list VkRow) (b : list Bm25Row) : list CombinedRow :=
  map (fun j : Sql.joined VkRow Bm25Row =>
         let wv :=
           (Sql.coalesce0 (vk_score vk_vector_similarity j)
            * vectorWeight)%Q in
         let wk :=
           (Sql.coalesce0 (vk_score vk_keyword_similarity j)
            * keywordWeight)%Q in
         let wb :=
           (Sql.coalesce0 (option_map bm25_similarity (Sql.right_of j))
            * bm25Weight)%Q in
         {| c_columns := joined_columns vk_columns b_columns j;
            weighted_vector_similarity := wv;
            weighted_keyword_similarity := wk;
            weighted_bm25_similarity := wb;
            combined_score := (wv + wk + wb)%Q |})
    (Sql.full_outer_join (fun a : VkRow => id a)
       (fun r : Bm25Row => id r) vk b).

(** [phrase_boosted AS (...)] *)
Definition phrase_boosted (queryText : string) (l : list CombinedRow)
  : list BoostedRow :=
  map (fun r : CombinedRow =>
         {| cr := r;
            boosted_score :=
              if Sql.ilike (content r) ("%" +:+ queryText +:+ "%")
              then (combined_score r * (12 # 10))%Q
              else combined_score r |})
    l.

(** The select list of the final [SELECT], on one row; the three
    divisions can fail. [rows.map(...)] copies the columns into the
    candidate. *)
Definition select_row (vectorWeight keywordWeight bm25Weight : Q)
    (r : BoostedRow) : option Candidate :=
  match Sql.div (weighted_vector_similarity r) vectorWeight,
        Sql.div (weighted_keyword_similarity r) keywordWeight,
        Sql.div (weighted_bm25_similarity r) bm25Weight with
  | Some vs, Some ks, Some bs =>
      Some {| doc := r;
              vectorSimilarity := vs;
              keywordSimilarity := ks;
              bm25Similarity := bs;
              similarity := boosted_score r |}
  | _, _, _ => None
  end.

(** The whole query with its eight parameters bound. *)
Definition query (embedding : vector) (contentType : string) (topK : nat)
    (keywordPattern queryText : string)
    (vectorWeight keywordWeight bm25Weight : Q) (table : list Document)
  : option (list Candidate) :=
  option_map
    (fun rows => Sql.limit topK (Sql.order_by (Sql.desc similarity) rows))
    (select_all (select_row vectorWeight keywordWeight bm25Weight)
       (phrase_boosted queryText
          (combined_results vectorWeight keywordWeight bm25Weight
             (vk_join
                (vector_results 3 embedding contentType topK table)
                (keyword_results 3 keywordPattern contentType topK table))
             (bm25_results queryText contentType topK table)))).

(** [None] is a query that the store rejects with an error. *)
Definition search (embedding : vector)
    (queryText embeddingModel contentType : string) (topK : nat)
    (table : list Document) (options : Options)
  : option (list Candidate) :=
  let vectorWeight := or_default (vectorWeight options) (5 # 10) in
  let keywordWeight := or_default (keywordWeight options) (3 # 10) in
  let bm25Weight := or_default (bm25Weight options) (2 # 10) in
  let keywords := Keywords.extractKeywords queryText in
  let keywordPattern := Keywords.join " | " keywords in
  query embedding contentType topK keywordPattern queryText vectorWeight
    keywordWeight bm25Weight table.
End Search.
End Combined.

(** ** The orchestrator ([runBenchmark], rag-benchmark.js) *)

Module Benchmark.

(** [null] is [None]. *)
Definition getEmbeddingDimension (model : string) : option nat :=
  if includes model "text-embedding-3-small"
     || includes model "text-embedding-004"
  then Some 1536
  else if includes model "text-embedding-3-large" then Some 3072
  else if includes model "gemini-embedding" then Some 768
  else None.

(** [`documents_${dimension}`], the table a strategy reads. *)
Definition tableName (dimension : nat) : string :=
  "documents_" +:+ pretty dimension.

Record Query : Type := {
  query_id : Z;
  query_text : string;
  expected_keywords : list string
}.

(** What the loops do to the outside world, console output apart from the
    guard's message left out. [BenchmarkQuery] is a call of
    [benchmarkQuery]: it embeds the query and runs the retrieval of
    [searchStrategy] on the table of the model's dimension. *)
Inductive Event : Type :=
| ConsoleLog (message : string)
| BenchmarkQuery (query : Query)
    (searchStrategy llmModel embeddingModel contentType : string)
    (topK : nat).

(** What a turn of the innermost loop pushes on [results]: the object that
    [benchmarkQuery] returned, or the record of the [catch] block. *)
Inductive Entry (R : Type) : Type :=
| Succeeded (result : R)
| Failed (query : Query)
    (searchStrategy llmModel embeddingModel contentType error : string).

Arguments Succeeded {R}.
Arguments Failed {R}.

Section Run.
Context {R : Type}.

(** [benchmarkQuery]: the result, or the message of the error thrown. *)
Variable benchmarkQuery :
  Query -> string -> string -> string -> string -> nat -> string + R.

(** The state of the loops: the events so far and [results]. *)
Definition State : Type := (list Event * list (Entry R))%type.

(** The body of [for (const query of testQueries)]. *)
Definition query_turn (searchStrategy llmModel embeddingModel
    contentType : string) (topK : nat) (st : State) (query : Query)
  : State :=
  let entry :=
    match benchmarkQuery query searchStrategy llmModel embeddingModel
            contentType topK with
    | inr result => Succeeded result
    | inl message =>
        Failed query searchStrategy llmModel embeddingModel contentType
          message
    end in
  (st.1 ++ [BenchmarkQuery query searchStrategy llmModel embeddingModel
              contentType topK],
   st.2 ++ [entry]).

(** The body of [for (const contentType of contentTypes)]. *)
Definition content_turn (testQueries : list Query)
    (searchStrategy llmModel embeddingModel : string) (topK : nat)
    (st : State) (contentType : string) : State :=
  fold_left
    (query_turn searchStrategy llmModel embeddingModel contentType topK)
    testQueries st.

(** The body of [for (const embeddingModel of embeddingModels)], with
    its guard. *)
Definition embedding_turn (testQueries : list Query)
    (contentTypes : list string) (searchStrategy llmModel : string)
    (topK : nat) (st : State) (embeddingModel : string) : State :=
  match getEmbeddingDimension embeddingModel with
  | None | Some 0 =>
      (st.1 ++ [ConsoleLog ("Skipping " +:+ embeddingModel
                            +:+ " - dimension not supported")],
       st.2)
  | Some (S _) =>
      fold_left
        (content_turn testQueries searchStrategy llmModel embeddingModel
           topK)
        contentTypes st
  end.

Definition llm_turn (testQueries : list Query)
    (embeddingModels contentTypes : list string) (searchStrategy : string)
    (topK : nat) (st : State) (llmModel : string) : State :=
  fold_left
    (embedding_turn testQueries contentTypes searchStrategy llmModel topK)
    embeddingModels st.

Definition strategy_turn (testQueries : list Query)
    (llmModels embeddingModels contentTypes : list string) (topK : nat)
    (st : State) (searchStrategy : string) : State :=
  fold_left
    (llm_turn testQueries embeddingModels contentTypes searchStrategy
       topK)
    llmModels st.

(** The loops of [runBenchmark] over the test queries it has loaded. *)
Definition runBenchmark (searchStrategies llmModels embeddingModels
    contentTypes : list string) (topK : nat) (testQueries : list Query)
  : State :=
  fold_left
    (strategy_turn testQueries llmModels embeddingModels contentTypes
       topK)
    searchStrategies ([], []).
End Run.

End Benchmark.

(** ** The stand-alone query of the database builder
    ([queryMultiDimensionPostgresDatabase],
    dbDocs/database-builder-multi-dimension.js) *)

Module Builder.

(** What the function does to the outside world. *)
Inductive Event : Type :=
| EmbeddingRequest (provider model : string) (texts : list string)
| StoreQuery (tableName : string).

(** An asynchronous computation: the events it caused, then the message of
    the error it threw or its value. *)
Definition M (A : Type) : Type := (list Event * (string + A))%type.

Definition ret {A : Type} (a : A) : M A := ([], inr a).

Definition throw {A : Type} (message : string) : M A := ([], inl message).

Definition emit (e : Event) : M unit := ([e], inr tt).

Definition bind {A B : Type} (m : M A) (k : A -> M B) : M B :=
  match m with
  | (events, inl message) => (events, inl message)
  | (events, inr a) => let r := k a in (events ++ r.1, r.2)
  end.

Notation "'do' x <- m ; k" := (bind m (fun x => k))
  (at level 10, x name, m at level 100, k at level 200).
Notation "'run' m ; k" := (bind m (fun _ => k))
  (at level 10, m at level 100, k at level 200).

(** The object an embedding provider answers with. *)
Record EmbeddingResult : Type := {
  success : bool;
  embeddings : option (list vector)
}.

(** The options of the query, with the defaults of the destructuring. *)
Record Options : Type := {
  contentType : option string;
  topK : nat;
  similarityThreshold : Q;
  library : option string;
  category : option string
}.

Definition default_options : Options :=
  {| contentType := None;
     topK := 10;
     similarityThreshold := 7 # 10;
     library := None;
     category := None |}.

Section Query.
Context {Row : Type}.

(** [openaiEmbeddings.generateEmbeddings] and
    [geminiEmbeddings.generateEmbeddings], by provider: the answer, or the
    message of the error thrown. *)
Variable provider_api :
  string -> list string -> string -> nat -> string + EmbeddingResult.

(** [executeQuery] on the query built for a table, an embedding, a model
    and the options: the rows, or the message of the error thrown. *)
Variable executeQuery :
  string -> vector -> string -> Options -> string + list Row.

Definition generateEmbeddings (texts : list string) (provider model : string)
    (batchSize : nat) : M EmbeddingResult :=
  if String.eqb provider "openai" || String.eqb provider "gemini" then
    run emit (EmbeddingRequest provider model texts);
    ([], provider_api provider texts model batchSize)
  else throw ("Unsupported embedding provider: " +:+ provider).

(** The table of an embedding width. *)
Definition select_table (dimensions : nat) : M string :=
  if (dimensions =? 1536)%nat then ret "documents_1536"
  else if (dimensions =? 3072)%nat then ret "documents_3072"
  else if (dimensions =? 768)%nat then ret "documents_768"
  else throw ("Unsupported embedding dimensions: " +:+ pretty dimensions).

Definition queryMultiDimensionPostgresDatabase
    (queryText provider model : string) (options : Options)
  : M (list Row) :=
  do queryEmbeddingResult <-
    generateEmbeddings [queryText] provider model 1;
  match success queryEmbeddingResult, embeddings queryEmbeddingResult with
  | true, Some (queryEmbedding :: _) =>
      do tableName <- select_table (length queryEmbedding);
      run emit (StoreQuery tableName);
      ([], executeQuery tableName queryEmbedding
             (provider +:+ "_" +:+ model) options)
  | _, _ => throw "Failed to generate query embedding"
  end.
End Query.

End Builder.

(** ** A small store to evaluate the strategies on *)

Module Fixtures.

Fixpoint dot (a b : vector) : Q :=
  match a, b with
  | x :: a', y :: b' => (x * y + dot a' b')%Q
  | _, _ => 0%Q
  end.

(** The terms of a [to_tsquery] pattern such as ["zone | sensor"]. *)
Definition terms (pattern : string) : list string :=
  List.filter non_empty
    (split (fun c => is_space c || Ascii.eqb c "|") pattern).

Definition matches (content pattern : string) : bool :=
  existsb (fun term => includes (toLowerCase content) term) (terms pattern).

(** Operators for embeddings of norm 1, on which the cosine distance of [a]
    and [b] is [1 - a . b]; a text matches a pattern when it contains one
    of its terms, with rank [1/10]; the field-weighted rank is [0]. An
    empty pattern matches nothing. *)
Definition unit_operators : Operators :=
  {| cosine_distance a b := (1 - dot a b)%Q;
     ts_match content pattern := matches content pattern;
     ts_rank_cd content pattern :=
       if matches content pattern then (1 # 10)%Q else 0%Q;
     ts_rank_cd_fields _ _ _ _ := 0%Q |}.

Definition document (i : Z) (text : string) (e : vector) : Document :=
  {| columns :=
       {| id := i;
          content := text;
          content_type := "xeto";
          metadata := "{}";
          xeto_spec_name := None;
          xeto_library := None |};
     embedding := e |}.

(** Three documents with unit embeddings, at cosine distance [0], [1/25]
    and [1] of the vector [(1, 0)]. *)
Definition sensors : list Document :=
  [ document 1 "Co2Sensor measures carbon dioxide" [1; 0]%Q;
    document 2 "A zone temp sensor point" [24 # 25; 7 # 25]%Q;
    document 3 "Fan equipment" [0; 1]%Q ].

Definition economizer : list Document :=
  [ document 1 "Economizer at 100 percent outside air" [1; 0]%Q;
    document 2 "Use the a\b escape" [1; 0]%Q ].

(** The first of the default test queries. *)
Definition co2_query : Benchmark.Query :=
  {| Benchmark.query_id := 1;
     Benchmark.query_text := "What is Co2Sensor?";
     Benchmark.expected_keywords :=
       ["Co2Sensor"; "carbon dioxide"; "sensor"; "abstract"] |}.

(** A [benchmarkQuery] that fails whenever it is called. *)
Definition never_called (_ : Benchmark.Query) (_ _ _ _ : string) (_ : nat)
  : string + unit :=
  inl "unexpected call".

(** An embedding provider that answers with one vector of width 4, and a
    store without rows. *)
Definition four_wide (_ : string) (_ : list string) (_ : string) (_ : nat)
  : string + Builder.EmbeddingResult :=
  inr {| Builder.success := true;
         Builder.embeddings := Some [[1; 0; 0; 0]%Q] |}.

Definition no_rows (_ : string) (_ : vector) (_ : string)
    (_ : Builder.Options) : string + list unit :=
  inr [].

End Fixtures.

(** ** Vocabulary of the statements *)

Module Vocabulary.

(** [t] occurs in [s]. *)
Definition substring (t s : string) : Prop :=
  exists pre suf : string, s = pre +:+ t +:+ suf.

Fixpoint no_space (w : string) : bool :=
  match w with
  | EmptyString => true
  | String c w' => negb (is_space c) && no_space w'
  end.

(** [pre] is empty or ends in whitespace; [suf] is empty or starts with
    whitespace. *)
Definition ends_at_boundary (pre : string) : Prop :=
  pre = EmptyString
  \/ exists (p : string) (c : ascii), pre = snoc p c /\ is_space c = true.

Definition starts_at_boundary (suf : string) : Prop :=
  suf = EmptyString
  \/ exists (c : ascii) (r : string), suf = String c r /\ is_space c = true.

(** [w] is a maximal run of characters of [s] that are not whitespace. *)
Definition is_run (w s : string) : Prop :=
  w <> EmptyString
  /\ no_space w = true
  /\ exists pre suf : string,
       s = pre +:+ w +:+ suf
       /\ ends_at_boundary pre /\ starts_at_boundary suf.

(** A query text without the metacharacters of [LIKE]. *)
Fixpoint plain (q : string) : bool :=
  match q with
  | EmptyString => true
  | String c q' =>
      negb (Ascii.eqb c "%") && negb (Ascii.eqb c "_")
      && negb (Ascii.eqb c "\") && plain q'
  end.

(** The factor of the phrase boost. *)
Definition boost (content queryText : string) : Q :=
  if Sql.ilike content ("%" +:+ queryText +:+ "%") then 12 # 10 else 1.

(** The order that [le] decides. *)
Definition before {A : Type} (le : A -> A -> bool) : relation A :=
  fun a b => le a b = true.

Section Retrieval.
Context `{Operators}.

Definition distance_to (embedding : vector) (d : Document) : Q :=
  cosine_distance (Store.embedding d) embedding.

(** The rows the vector branch reads, nearest first. *)
Definition nearest (embedding : vector) (contentType : string)
    (table : list Document) : list Document :=
  Sql.order_by (Sql.asc (distance_to embedding))
    (List.filter
       (fun d : Document => String.eqb (content_type d) contentType) table).

Definition of_document (embedding : vector) (d : Document)
  : Vector.Candidate :=
  {| Vector.doc := d;
     Vector.similarity := (1 - distance_to embedding d)%Q |}.

(** The candidate the Hybrid query makes of a row that only the vector
    branch has. *)
Definition of_vector (vectorWeight keywordWeight : Q)
    (c : Vector.Candidate) : Hybrid.Candidate :=
  {| Hybrid.doc := Vector.doc c;
     Hybrid.vectorSimilarity :=
       (Vector.similarity c * vectorWeight / vectorWeight)%Q;
     Hybrid.keywordSimilarity := (0 * keywordWeight / keywordWeight)%Q;
     Hybrid.similarity :=
       (Vector.similarity c * vectorWeight + 0 * keywordWeight)%Q |}.

End Retrieval.

(** What a Combined candidate reports: the document identifier and the four
    scores in lowest terms. *)
Definition summary (c : Combined.Candidate) : Z * Q * Q * Q * Q :=
  (id (Combined.doc c), Qred (Combined.vectorSimilarity c),
   Qred (Combined.keywordSimilarity c), Qred (Combined.bm25Similarity c),
   Qred (Combined.similarity c)).

(** A retrieval is run for an embedding model only if the model has one
    of the three supported widths; a console message names a model that
    has none. *)
Definition guarded (e : Benchmark.Event) : Prop :=
  match e with
  | Benchmark.ConsoleLog message =>
      exists embeddingModel : string,
        Benchmark.getEmbeddingDimension embeddingModel = None
        /\ message
           = "Skipping " +:+ embeddingModel +:+ " - dimension not supported"
  | Benchmark.BenchmarkQuery _ _ _ embeddingModel _ _ =>
      exists dimension : nat,
        Benchmark.getEmbeddingDimension embeddingModel = Some dimension
        /\ dimension ∈ [768; 1536; 3072]%nat
        /\ Benchmark.tableName dimension
           ∈ ["documents_768"; "documents_1536"; "documents_3072"]
  end.

Definition all_guarded {R : Type} (st : Benchmark.State (R := R)) : Prop :=
  Forall guarded st.1.

End Vocabulary.

Import Vocabulary.

(** ** Vocabulary of the further statements *)

Module JoinVocabulary.

(** The identifier of a joined row: that of its left side, or of its right
    side when the left side is missing. *)
Definition joined_id {A B : Type} (ida : A -> Z) (idb : B -> Z)
    (j : Sql.joined A B) : Z :=
  match j with
  | Sql.Both a _ | Sql.LeftOnly a => ida a
  | Sql.RightOnly b => idb b
  end.

(** The rows of the table with the requested content type. *)
Definition of_type (contentType : string) (table : list Document)
  : list Document :=
  List.filter (fun d : Document => String.eqb (content_type d) contentType)
    table.

End JoinVocabulary.

Import JoinVocabulary.

Module CandidateVocabulary.

(** The candidate that the select list of the Hybrid query and
    [rows.map(...)] make of a row of [combined_results], for weights that
    are not zero. *)
Definition hybrid_candidate (vectorWeight keywordWeight : Q)
    (r : Hybrid.CombinedRow) : Hybrid.Candidate :=
  {| Hybrid.doc := Hybrid.c_columns r;
     Hybrid.vectorSimilarity :=
       (Hybrid.weighted_vector_similarity r / vectorWeight)%Q;
     Hybrid.keywordSimilarity :=
       (Hybrid.weighted_keyword_similarity r / keywordWeight)%Q;
     Hybrid.similarity := Hybrid.combined_score r |}.

(** The same for the Combined query and a row of [phrase_boosted]. *)
Definition combined_candidate (vectorWeight keywordWeight bm25Weight : Q)
    (r : Combined.BoostedRow) : Combined.Candidate :=
  {| Combined.doc := Combined.c_columns (Combined.cr r);
     Combined.vectorSimilarity :=
       (Combined.weighted_vector_similarity (Combined.cr r) / vectorWeight)%Q;
     Combined.keywordSimilarity :=
       (Combined.weighted_keyword_similarity (Combined.cr r)
        / keywordWeight)%Q;
     Combined.bm25Similarity :=
       (Combined.weighted_bm25_similarity (Combined.cr r) / bm25Weight)%Q;
     Combined.similarity := Combined.boosted_score r |}.

End CandidateVocabulary.

Import CandidateVocabulary.

Module TextVocabulary.

(** Every character of [s] satisfies [p]. *)
Fixpoint all_chars (p : ascii -> bool) (s : string) : bool :=
  match s with
  | EmptyString => true
  | String c s' => p c && all_chars p s'
  end.

(** The class [[a-z0-9_]]. *)
Definition is_lower_word (c : ascii) : bool := is_word c && negb (is_upper c).

(** A keyword occurs in a response, without regard to case. *)
Definition occurs (text keyword : string) : bool :=
  includes (toLowerCase text) (toLowerCase keyword).

End TextVocabulary.

Import TextVocabulary.

(** ** Words for the runs of the benchmark *)

Module Runs.
Import Benchmark.

(** One turn of the innermost loop. *)
Record Run : Type := {
  query : Query;
  searchStrategy : string;
  llmModel : string;
  embeddingModel : string;
  contentType : string
}.

(** The models that pass the guard of the loop. *)
Definition supported (embeddingModel : string) : bool :=
  match getEmbeddingDimension embeddingModel with
  | Some (S _) => true
  | _ => false
  end.

(** The runs in the order of the five loops, strategies outermost and
    queries innermost. *)
Definition combinations (searchStrategies llmModels embeddingModels
    contentTypes : list string) (testQueries : list Query) : list Run :=
  flat_map (fun s =>
    flat_map (fun l =>
      flat_map (fun e =>
        flat_map (fun c =>
          map (fun q =>
                 {| query := q; searchStrategy := s; llmModel := l;
                    embeddingModel := e; contentType := c |})
            testQueries)
          contentTypes)
        (List.filter supported embeddingModels))
      llmModels)
    searchStrategies.

Definition call_of (topK : nat) (r : Run) : Event :=
  BenchmarkQuery (query r) (searchStrategy r) (llmModel r)
    (embeddingModel r) (contentType r) topK.

Definition entry_of {R : Type}
    (benchmarkQuery :
       Query -> string -> string -> string -> string -> nat -> string + R)
    (topK : nat) (r : Run) : Entry R :=
  match benchmarkQuery (query r) (searchStrategy r) (llmModel r)
          (embeddingModel r) (contentType r) topK with
  | inr result => Succeeded result
  | inl message =>
      Failed (query r) (searchStrategy r) (llmModel r) (embeddingModel r)
        (contentType r) message
  end.

Definition is_call (e : Event) : bool :=
  match e with
  | BenchmarkQuery _ _ _ _ _ _ => true
  | ConsoleLog _ => false
  end.

(** The calls of [benchmarkQuery] among the events. *)
Definition calls (events : list Event) : list Event :=
  List.filter is_call events.

(** A loop step that appends the calls and entries of some runs. *)
Definition appends {R X : Type}
    (benchmarkQuery :
       Query -> string -> string -> string -> string -> nat -> string + R)
    (topK : nat) (f : State (R := R) -> X -> State (R := R))
    (C : X -> list Run) : Prop :=
  forall st x,
    calls (f st x).1 = calls st.1 ++ map (call_of topK) (C x)
    /\ (f st x).2 = st.2 ++ map (entry_of benchmarkQuery topK) (C x).

End Runs.

(** ** The statement of the stand-alone query
    ([queryMultiDimensionPostgresDatabase], lines 503-538: the [WHERE]
    clause, its placeholders and the parameter list) *)

Module Statement.

(** A value of the parameter list. *)
Inductive Param : Type :=
| Embedding (v : vector)
| Text (s : string)
| Threshold (q : Q)
| Limit (n : nat).

(** A condition [column = $index] of the [WHERE] clause. *)
Record Condition : Type := {
  column : string;
  index : nat
}.

Record Statement : Type := {
  table : string;
  conditions : list Condition;
  (** [AND 1 - (embedding <=> $1::vector) >= $threshold_index] *)
  threshold_index : nat;
  (** [LIMIT $limit_index] *)
  limit_index : nat;
  params : list Param
}.

(** [whereClause], [params] and [paramIndex]. *)
Definition State : Type := (list Condition * list Param * nat)%type.

(** [if (value) { whereClause += ...; params.push(value); paramIndex++ }]:
    [null] and the empty string are skipped. *)
Definition add_filter (col : string) (value : option string) (st : State)
  : State :=
  let '(whereClause, params, paramIndex) := st in
  match value with
  | Some v =>
      if non_empty v then
        (whereClause ++ [{| column := col; index := paramIndex |}],
         params ++ [Text v],
         S paramIndex)
      else st
  | None => st
  end.

Definition build (tableName : string) (queryEmbedding : vector)
    (provider model : string) (options : Builder.Options) : Statement :=
  let st0 : State :=
    ([{| column := "embedding_model"; index := 2 |}],
     [Embedding queryEmbedding; Text (provider +:+ "_" +:+ model)],
     3) in
  let st1 := add_filter "content_type" (Builder.contentType options) st0 in
  let st2 := add_filter "xeto_library" (Builder.library options) st1 in
  let st3 := add_filter "metadata->>'category'" (Builder.category options)
               st2 in
  let '(whereClause, params, paramIndex) := st3 in
  {| table := tableName;
     conditions := whereClause;
     threshold_index := paramIndex;
     limit_index := paramIndex + 1;
     params :=
       params ++ [Threshold (Builder.similarityThreshold options);
                  Limit (Builder.topK options)] |}.

(** The parameter that the placeholder [$i] stands for. *)
Definition placeholder (s : Statement) (i : nat) : option Param :=
  match i with
  | 0 => None
  | S j => nth_error (params s) j
  end.

(** The value a column is compared with, by the arguments of the call. *)
Definition wanted (provider model : string) (options : Builder.Options)
    (col : string) : option string :=
  if String.eqb col "embedding_model" then Some (provider +:+ "_" +:+ model)
  else if String.eqb col "content_type" then Builder.contentType options
  else if String.eqb col "xeto_library" then Builder.library options
  else if String.eqb col "metadata->>'category'"
  then Builder.category options
  else None.

(** The option is given: neither [null] nor empty. *)
Definition given (value : option string) : bool :=
  match value with
  | Some v => non_empty v
  | None => false
  end.

End Statement.

(** ** The connection helpers ([testConnection], [executeQuery] and
    [executeTransaction], dbDocs/postgres/connection.js) *)

Module Connection.

(** A statement sent with [client.query]: its text and its parameters. A
    call without parameters has [params = []]. *)
Record Statement (Param : Type) : Type := {
  query : string;
  params : list Param
}.

Arguments query {Param}.
Arguments params {Param}.

Definition statement {Param : Type} (text : string) : Statement Param :=
  {| query := text; params := [] |}.

(** What a helper does to the outside world. [Connect] is
    [getPool().connect()], [Query] a call of [client.query] and [Release]
    the call of [client.release()]. *)
Inductive Event (Param : Type) : Type :=
| Connect
| Query (s : Statement Param)
| Release
| ConsoleLog (message : string)
| ConsoleError (message : string).

Arguments Connect {Param}.
Arguments Query {Param}.
Arguments Release {Param}.
Arguments ConsoleLog {Param}.
Arguments ConsoleError {Param}.

(** The statements sent, in order. *)
Definition statements {Param : Type} (events : list (Event Param))
  : list (Statement Param) :=
  flat_map (fun e => match e with Query s => [s] | _ => [] end) events.

Definition is_release {Param : Type} (e : Event Param) : bool :=
  match e with
  | Release => true
  | _ => false
  end.

Definition is_connect {Param : Type} (e : Event Param) : bool :=
  match e with
  | Connect => true
  | _ => false
  end.

(** The number of times the client is released. *)
Definition releases {Param : Type} (events : list (Event Param)) : nat :=
  length (List.filter is_release events).

Section Client.
Context {Param Result : Type}.

(** [getPool().connect()]: the message of the error it throws, or [None]
    when it gives a client. *)
Variable connect : option string.

(** [client.query] on the client obtained, by the statements sent on it
    before: the message of the error thrown, or the result. *)
Variable client_query :
  list (Statement Param) -> Statement Param -> string + Result.

(** The console messages are modelled without their leading mark. *)
Definition testConnection : list (Event Param) * bool :=
  match connect with
  | Some message =>
      ([Connect; ConsoleError ("Database connection failed: " +:+ message)],
       false)
  | None =>
      let s := statement "SELECT NOW()" in
      match client_query [] s with
      | inr _ =>
          ([Connect; Query s; Release;
            ConsoleLog "Database connection successful"],
           true)
      | inl message =>
          ([Connect; Query s;
            ConsoleError ("Database connection failed: " +:+ message)],
           false)
      end
  end.

Definition executeQuery (text : string) (parameters : list Param)
  : list (Event Param) * (string + Result) :=
  match connect with
  | Some message => ([Connect], inl message)
  | None =>
      let s := {| query := text; params := parameters |} in
      match client_query [] s with
      | inr result => ([Connect; Query s; Release], inr result)
      | inl message =>
          ([Connect; Query s;
            ConsoleError ("Query execution error: " +:+ message); Release],
           inl message)
      end
  end.

(** The loop [for (const { query, params = [] } of queries)], from the
    statements [sent] so far and the [results] so far. *)
Fixpoint send_all (sent : list (Statement Param)) (results : list Result)
    (queries : list (Statement Param))
  : list (Statement Param) * (string + list Result) :=
  match queries with
  | [] => (sent, inr results)
  | s :: rest =>
      match client_query sent s with
      | inr result => send_all (sent ++ [s]) (results ++ [result]) rest
      | inl message => (sent ++ [s], inl message)
      end
  end.

(** The [try] block of [executeTransaction]: the statements sent, and the
    message of the error thrown or the results. *)
Definition transaction_body (queries : list (Statement Param))
  : list (Statement Param) * (string + list Result) :=
  match client_query [] (statement "BEGIN") with
  | inl message => ([statement "BEGIN"], inl message)
  | inr _ =>
      match send_all [statement "BEGIN"] [] queries with
      | (sent, inl message) => (sent, inl message)
      | (sent, inr results) =>
          match client_query sent (statement "COMMIT") with
          | inl message => (sent ++ [statement "COMMIT"], inl message)
          | inr _ => (sent ++ [statement "COMMIT"], inr results)
          end
      end
  end.

(** [try ... catch ... finally]: an error thrown by [ROLLBACK] in the
    [catch] block replaces the error caught, and the [finally] block runs
    in every case. *)
Definition executeTransaction (queries : list (Statement Param))
  : list (Event Param) * (string + list Result) :=
  match connect with
  | Some message => ([Connect], inl message)
  | None =>
      match transaction_body queries with
      | (sent, inr results) =>
          (Connect :: map Query sent ++ [Release], inr results)
      | (sent, inl message) =>
          match client_query sent (statement "ROLLBACK") with
          | inr _ =>
              (Connect :: map Query sent
               ++ [Query (statement "ROLLBACK");
                   ConsoleError ("Transaction error: " +:+ message);
                   Release],
               inl message)
          | inl message' =>
              (Connect :: map Query sent
               ++ [Query (statement "ROLLBACK"); Release],
               inl message')
          end
      end
  end.
End Client.

(** A server without the table [documents_9], and three inserts of which
    the second is for that table. *)
Definition no_such_table (_ : list (Statement string))
    (s : Statement string) : string + unit :=
  if String.eqb (query s) "INSERT INTO documents_9"
  then inl "no such table" else inr tt.

Definition three_inserts : list (Statement string) :=
  [{| query := "INSERT INTO documents_768"; params := ["a"] |};
   {| query := "INSERT INTO documents_9"; params := ["b"] |};
   {| query := "INSERT INTO documents_768"; params := ["c"] |}].

End Connection.

(** ** Storing embeddings ([storeMultiDimensionEmbeddingsInPostgres],
    dbDocs/database-builder-multi-dimension.js) *)

Module Storing.
Import Connection.

(** The metadata of a content item: the four fields that become columns,
    and the rest as the text of its fields. *)
Record Metadata : Type := {
  typeName : option string;
  library : option string;
  inherits : option string;
  filePath : option string;
  others : string
}.

Record Item : Type := {
  content : string;
  metadata : Metadata
}.

(** A parameter of an insert. [Json] is the metadata object with the four
    fields the function adds to it. *)
Inductive Param : Type :=
| Text (s : string)
| Nullable (s : option string)
| Embedding (v : vector)
| Json (m : Metadata) (chunkSize : nat) (embeddingProvider
    embeddingModel : string) (embeddingDimensions : nat).

(** [value || null]: the empty string becomes [null]. *)
Definition or_null (value : option string) : option string :=
  match value with
  | Some s => if non_empty s then Some s else None
  | None => None
  end.

(** The table of an embedding width, or the message of the error thrown. *)
Definition table_of (dimensions : nat) : string + string :=
  if (dimensions =? 1536)%nat then inr "documents_1536"
  else if (dimensions =? 3072)%nat then inr "documents_3072"
  else if (dimensions =? 768)%nat then inr "documents_768"
  else inl ("Unsupported embedding dimensions: " +:+ pretty dimensions).

(** The text of the insert, white space of the template apart. *)
Definition insert_into (tableName : string) : string :=
  "INSERT INTO " +:+ tableName
  +:+ " (content, content_type, embedding_model, embedding, metadata,"
  +:+ " xeto_spec_name, xeto_library, inheritance_path, file_path)"
  +:+ " VALUES ($1, $2, $3, $4, $5, $6, $7, $8, $9)".

Definition insert (tableName : string) (item : Item) (embedding : vector)
    (provider model format : string) (chunkSize : nat) : Statement Param :=
  {| query := insert_into tableName;
     params :=
       [Text (content item);
        Text format;
        Text (provider +:+ "_" +:+ model);
        Embedding embedding;
        Json (metadata item) chunkSize provider model (length embedding);
        Nullable (or_null (typeName (metadata item)));
        Nullable (or_null (library (metadata item)));
        Nullable (or_null (inherits (metadata item)));
        Nullable (or_null (filePath (metadata item)))] |}.

(** The loop over [i < contentItems.length && i < embeddings.length]: the
    queries, or the message of the error thrown at the first embedding of
    an unsupported width. An embedding is the vector itself: of an object
    with an [embedding] field the function takes that field. *)
Fixpoint inserts (contentItems : list Item) (embeddings : list vector)
    (provider model format : string) (chunkSize : nat)
  : string + list (Statement Param) :=
  match contentItems, embeddings with
  | item :: contentItems', embedding :: embeddings' =>
      match table_of (length embedding) with
      | inl message => inl message
      | inr tableName =>
          match inserts contentItems' embeddings' provider model format
                  chunkSize with
          | inl message => inl message
          | inr queries =>
              inr (insert tableName item embedding provider model format
                     chunkSize :: queries)
          end
      end
  | _, _ => inr []
  end.

Section Store.
Context {Result : Type}.
Variable connect : option string.
Variable client_query :
  list (Statement Param) -> Statement Param -> string + Result.

Definition storeMultiDimensionEmbeddingsInPostgres
    (contentItems : list Item) (embeddings : list vector)
    (provider model format : string) (chunkSize : nat)
  : list (Event Param) * (string + unit) :=
  match inserts contentItems embeddings provider model format chunkSize with
  | inl message => ([], inl message)
  | inr queries =>
      let r := executeTransaction connect client_query queries in
      (r.1, match r.2 with
            | inl message => inl message
            | inr _ => inr tt
            end)
  end.
End Store.

(** The pairs of an item and its embedding that the loop visits. *)
Definition pairs (contentItems : list Item) (embeddings : list vector)
  : list (Item * vector) :=
  combine contentItems embeddings.

Definition supported_width (embedding : vector) : bool :=
  match table_of (length embedding) with
  | inr _ => true
  | inl _ => false
  end.

(** The first embedding of an unsupported width that the loop visits. *)
Definition first_unsupported (contentItems : list Item)
    (embeddings : list vector) : option vector :=
  List.find (fun e => negb (supported_width e))
    (map snd (pairs contentItems embeddings)).

(** Two items, and embeddings of width 768 and 2. *)
Definition two_items : list Item :=
  [{| content := "Co2Sensor";
      metadata := {| typeName := Some "Co2Sensor"; library := Some "ph";
                     inherits := None; filePath := None; others := "" |} |};
   {| content := "Fan";
      metadata := {| typeName := None; library := None; inherits := None;
                     filePath := None; others := "" |} |}].

Definition wide_and_narrow : list vector :=
  [repeat 0%Q 768; [0; 1]%Q].

End Storing.

(** ** Chunking ([createChunks],
    dbDocs/database-builder-multi-dimension.js) *)

Module Chunking.

Fixpoint drop_chars (n : nat) (s : string) : string :=
  match n, s with
  | S n', String _ s' => drop_chars n' s'
  | _, _ => s
  end.

Fixpoint take_chars (n : nat) (s : string) : string :=
  match n, s with
  | S n', String c s' => String c (take_chars n' s')
  | _, _ => EmptyString
  end.

(** [s.slice(start, end)] for [0 <= start] and [0 <= end]. *)
Definition slice (s : string) (start end_ : nat) : string :=
  take_chars (end_ - start) (drop_chars start s).

(** A JS number that counts: a natural number, or [Infinity]. *)
Inductive Count : Type :=
| Finite (n : nat)
| Infinity.

(** [Math.ceil(a / b)] for a positive [a]. *)
Definition ceil_div (a b : nat) : Count :=
  match b with
  | 0 => Infinity
  | S _ => Finite ((a + b - 1) / b)
  end.

(** [Math.min(100, Math.floor(chunkSize * 0.1))]. *)
Definition overlap_of (chunkSize : nat) : nat :=
  Nat.min 100 (chunkSize / 10).

Section Items.
Context {Metadata : Type}.

Record Item : Type := {
  content : string;
  metadata : Metadata
}.

(** A chunk: its text, the metadata of its item and the fields added to
    them. [chunkStart] and [chunkEnd] are absent from the chunk of an item
    that fits in one. *)
Record Chunk : Type := {
  chunkContent : string;
  itemMetadata : Metadata;
  chunkIndex : nat;
  totalChunks : Count;
  chunkSize : nat;
  chunkStart : option nat;
  chunkEnd : option nat
}.

(** The [while] loop, which ends when [fuel] turns suffice. With [end] at
    least [overlap], as it is in every turn for the overlap the function
    computes, [end - overlap] is not negative. *)
Fixpoint chunk_loop (fuel : nat) (item : Item) (size overlap start
    index : nat) : option (list Chunk) :=
  match fuel with
  | 0 => None
  | S fuel' =>
      let len := String.length (content item) in
      if (start <? len)%nat then
        let end_ := Nat.min (start + size) len in
        let chunk :=
          {| chunkContent := slice (content item) start end_;
             itemMetadata := metadata item;
             chunkIndex := index;
             totalChunks := ceil_div len (size - overlap);
             chunkSize := size;
             chunkStart := Some start;
             chunkEnd := Some end_ |} in
        if (len <=? end_)%nat then Some [chunk]
        else
          option_map (cons chunk)
            (chunk_loop fuel' item size overlap (end_ - overlap) (S index))
      else Some []
  end.

(** The body of [for (const item of contentItems)]. *)
Definition item_chunks (fuel : nat) (item : Item) (size : nat)
  : option (list Chunk) :=
  if (String.length (content item) <=? size)%nat then
    Some [{| chunkContent := content item;
             itemMetadata := metadata item;
             chunkIndex := 0;
             totalChunks := Finite 1;
             chunkSize := size;
             chunkStart := None;
             chunkEnd := None |}]
  else chunk_loop fuel item size (overlap_of size) 0 0.

(** [createChunks], with [fuel] turns of the inner loop for each item:
    [None] when they do not suffice. *)
Fixpoint createChunks (fuel : nat) (contentItems : list Item) (size : nat)
  : option (list Chunk) :=
  match contentItems with
  | [] => Some []
  | item :: rest =>
      match item_chunks fuel item size, createChunks fuel rest size with
      | Some chunks, Some chunks' => Some (chunks ++ chunks')
      | _, _ => None
      end
  end.

(** The text of the chunks after the first [overlap] characters of each. *)
Definition tail_text (overlap : nat) (chunks : list Chunk) : string :=
  fold_right
    (fun c acc => drop_chars overlap (chunkContent c) +:+ acc)
    EmptyString chunks.

(** The text of the first chunk, followed by the text of each later chunk
    without the characters it shares with the chunk before it. *)
Definition reassemble (overlap : nat) (chunks : list Chunk) : string :=
  match chunks with
  | [] => EmptyString
  | c :: rest => chunkContent c +:+ tail_text overlap rest
  end.
End Items.

Arguments Item : clear implicits.
Arguments Chunk : clear implicits.

(** An item of 25 characters. *)
Definition alphabet : Item unit :=
  {| content := "abcdefghijklmnopqrstuvwxy"; metadata := tt |}.

End Chunking.

(** ** Grouping results ([groupBy], scripts/rag-benchmark.js and
    scripts/visualize-aggregated.js) *)

Module Grouping.

(** The property names that the accumulator [{}] inherits: for such a key
    [result[key]] is not [undefined] before any item is stored, and it
    has no [push]. *)
Definition inherited : list string :=
  ["constructor"; "__defineGetter__"; "__defineSetter__"; "hasOwnProperty";
   "__lookupGetter__"; "__lookupSetter__"; "isPrototypeOf";
   "propertyIsEnumerable"; "toString"; "valueOf"; "__proto__";
   "toLocaleString"].

(** A property name made of a value: [undefined] gives ["undefined"]. *)
Definition key_text (value : option string) : string :=
  default "undefined" value.

Section Groups.
Context {X : Type}.

(** [item[name]] as a property name, [None] when it is [undefined]. *)
Variable property : X -> string -> option string.

(** The second argument of [groupBy]: a property name, or a function with
    its source text. *)
Inductive Key : Type :=
| Name (name : string)
| Function (source : string) (f : X -> option string).

(** [(result[keyValue] = result[keyValue] || []).push(item)]: [None] is
    the [TypeError] of a value without [push]. *)
Definition group_step (keyValue : X -> string)
    (result : option (gmap string (list X))) (item : X)
  : option (gmap string (list X)) :=
  match result with
  | None => None
  | Some groups =>
      let k := keyValue item in
      if bool_decide (k ∈ inherited) then None
      else Some (<[k := default [] (groups !! k) ++ [item]]> groups)
  end.

Definition groups_by (keyValue : X -> string) (array : list X)
  : option (gmap string (list X)) :=
  fold_left (group_step keyValue) array (Some ∅).

(** [groupBy] of rag-benchmark.js, which reads [item[key]] whatever [key]
    is: a function is turned into the property name of its source text. *)
Definition groupBy_property (array : list X) (key : Key)
  : option (gmap string (list X)) :=
  groups_by
    (fun item =>
       key_text (property item
                   match key with
                   | Name name => name
                   | Function source _ => source
                   end))
    array.

(** [groupBy] of visualize-aggregated.js, which calls a key that is a
    function. *)
Definition groupBy (array : list X) (key : Key)
  : option (gmap string (list X)) :=
  groups_by
    (fun item =>
       match key with
       | Function _ f => key_text (f item)
       | Name name => key_text (property item name)
       end)
    array.

(** The group of a key: [None] when no item has the key. *)
Definition group_of (keyValue : X -> string) (k : string) (array : list X)
  : option (list X) :=
  match filter (fun item => keyValue item = k) array with
  | [] => None
  | group => Some group
  end.
End Groups.

Arguments Key : clear implicits.

(** Results with a context size, which no property name leads to. *)
Definition context_size (result : string * nat) : option string :=
  Some (pretty result.2).

Definition model_only (result : string * nat) (name : string)
  : option string :=
  if String.eqb name "llm_model" then Some result.1 else None.

Definition by_context_size : Key (string * nat) :=
  Function "result => result.combination.contextSize" context_size.

End Grouping.

(** ** Ties in an [ORDER BY]

    PostgreSQL leaves the order of rows with equal sort keys to the plan it
    picks, and that order can change with the [LIMIT]. [Sql.order_by] lists
    tied rows in table order, which is one of the orders the store may
    give. What is stated of the result of one query up to that choice
    (its length, its being sorted, its scores, its members) does not depend
    on it; what compares the results of two queries is stated for rows
    without ties, on which every order the store may give is the same. *)

Module Ties.

(** No two rows of [l] have the same [key]. *)
Definition no_ties {A : Type} (key : A -> Q) (l : list A) : Prop :=
  NoDup (map (fun a => Qred (key a)) l).

(** The same, as a test. *)
Fixpoint no_tiesb {A : Type} (key : A -> Q) (l : list A) : bool :=
  match l with
  | [] => true
  | a :: l' =>
      forallb (fun b => negb (Qeq_bool (key a) (key b))) l'
      && no_tiesb key l'
  end.

(** [sorted] is a result that [ORDER BY] may give for the rows [l]: the
    same rows, in an order that [le] allows. *)
Definition ordering {A : Type} (le : A -> A -> bool) (l sorted : list A)
  : Prop :=
  sorted ≡ₚ l /\ StronglySorted (before le) sorted.

Section Distances.
Context `{Operators}.

(** The rows of the requested content type are at distinct distances of
    the query embedding. *)
Definition distinct_distances (embedding : vector) (contentType : string)
    (table : list Document) : Prop :=
  no_ties (distance_to embedding) (of_type contentType table).
End Distances.

End Ties.

(** * Properties *)

(** ** Strings *)

Lemma starts_with_spec (s t : string) :
  starts_with s t = true <-> exists suf : string, s = t +:+ suf.
Proof.
  revert s. induction t as [|b t IH]; intros s; simpl.
  - split; [intros _; exists s; reflexivity | reflexivity].
  - destruct s as [|a s]; simpl.
    + split; [discriminate | intros [suf Hs]; discriminate].
    + rewrite andb_true_iff, IH. split.
      * intros [Hab [suf ->]]. apply Ascii.eqb_eq in Hab as ->.
        exists suf. reflexivity.
      * intros [suf Hs]. injection Hs as -> ->.
        split; [apply Ascii.eqb_refl | exists suf; reflexivity].
Qed.

Lemma includes_spec (s t : string) : includes s t = true <-> substring t s.
Proof.
  unfold substring. induction s as [|a s IH].
  - simpl. rewrite orb_false_r, starts_with_spec. split.
    + intros [suf Hs]. exists EmptyString, suf. exact Hs.
    + intros [[|c pre] [suf Hs]]; [exists suf; exact Hs | discriminate].
  - cbn [includes]. rewrite orb_true_iff, starts_with_spec, IH. split.
    + intros [[suf Hs] | [pre [suf Hs]]].
      * exists EmptyString, suf. exact Hs.
      * exists (String a pre), suf. rewrite Hs. reflexivity.
    + intros [[|c pre] [suf Hs]].
      * left. exists suf. exact Hs.
      * right. injection Hs as -> ->. exists pre, suf. reflexivity.
Qed.

Lemma snoc_not_empty (s : string) (c : ascii) : snoc s c <> EmptyString.
Proof. destruct s; discriminate. Qed.

Lemma elem_of_unique_go (seen l : list string) (x : string) :
  x ∈ unique_go seen l <-> x ∈ l /\ x ∉ seen.
Proof.
  revert seen. induction l as [|y l IH]; intros seen; simpl.
  - rewrite !elem_of_nil. tauto.
  - case_bool_decide as Hy.
    + rewrite IH, elem_of_cons. split; [tauto |].
      intros [[-> | Hx] Hn]; [contradiction | tauto].
    + rewrite !elem_of_cons, IH, elem_of_cons. split.
      * intros [-> | [Hx Hn]]; [tauto |]. split; [tauto |].
        intros Hs. apply Hn. right. exact Hs.
      * intros [[-> | Hx] Hn]; [tauto |].
        destruct (decide (x = y)) as [-> | Hne]; [tauto |].
        right. split; [exact Hx |]. intros [-> | Hs]; tauto.
Qed.

Lemma NoDup_unique_go (seen l : list string) : NoDup (unique_go seen l).
Proof.
  revert seen. induction l as [|y l IH]; intros seen; simpl.
  - constructor.
  - case_bool_decide as Hy; [apply IH |].
    constructor; [| apply IH].
    rewrite elem_of_unique_go, elem_of_cons. tauto.
Qed.

(** ** The answer grader *)

Section GraderFacts.
Import Grader.

Lemma count_keyword_le (lowerText : string) (neg : bool) (count : nat)
    (keyword : string) :
  (count <= count_keyword lowerText neg count keyword <= S count)%nat.
Proof.
  unfold count_keyword.
  repeat match goal with |- context [if ?b then _ else _] => destruct b end;
    lia.
Qed.

Lemma count_loop_le (lowerText : string) (neg : bool)
    (keywords : list string) (count : nat) :
  (fold_left (count_keyword lowerText neg) keywords count
   <= count + length keywords)%nat.
Proof.
  revert count. induction keywords as [|k ks IH]; intros count; simpl.
  - lia.
  - specialize (IH (count_keyword lowerText neg count k)).
    pose proof (count_keyword_le lowerText neg count k). lia.
Qed.

Lemma has_negative_true (s pattern : string) :
  pattern ∈ negativePatterns -> substring pattern s ->
  has_negative s = true.
Proof.
  intros Hin Hsub. unfold has_negative. apply existsb_exists.
  exists pattern. split; [apply list_elem_of_In, Hin |].
  apply includes_spec, Hsub.
Qed.

Lemma negated_keyword_true (lowerText keyword pattern link : string) :
  pattern ∈ negativePatterns ->
  link ∈ [" about "; " on "; " regarding "] ->
  substring (pattern +:+ link +:+ toLowerCase keyword) lowerText ->
  negated_keyword lowerText keyword = true.
Proof.
  intros Hin Hlink Hsub. unfold negated_keyword. apply existsb_exists.
  exists pattern. split; [apply list_elem_of_In, Hin |].
  apply includes_spec in Hsub.
  rewrite !elem_of_cons, elem_of_nil in Hlink.
  destruct Hlink as [-> | [-> | [-> | []]]]; rewrite Hsub;
    rewrite ?orb_true_r; reflexivity.
Qed.
End GraderFacts.

(** C2, as the code has it. The response
    ["I don't have information about pressure sensors."] contains none of
    the grader's negation phrases, so the keyword ["pressure"] is counted on
    plain substring presence: the grader returns 1. A response that uses a
    listed phrase, ["There is no information about pressure sensors."],
    returns 0. *)
Theorem grader_dont_have_information :
  Grader.has_negative
    (toLowerCase "I don't have information about pressure sensors.") = false
  /\ Grader.countKeywordMatches
       (Some "I don't have information about pressure sensors.")
       (Some ["pressure"]) = 1
  /\ Grader.countKeywordMatches
       (Some "There is no information about pressure sensors.")
       (Some ["pressure"]) = 0.
Proof. repeat split; vm_compute; reflexivity. Qed.

(** C2 as stated fails: the grader does not return 0 on that response. *)
Lemma pressure_response_is_counted :
  Grader.countKeywordMatches
    (Some "I don't have information about pressure sensors.")
    (Some ["pressure"]) <> 0.
Proof. vm_compute. discriminate. Qed.

(** C7. If a negation phrase of the fixed list occurs in the lowercased
    response and every expected keyword occurs there right after a negation
    phrase and one of [" about "], [" on "], [" regarding "], the grader
    returns 0. *)
Theorem grader_pure_negation (text : string) (keywords : list string) :
  keywords <> [] ->
  (exists pattern : string,
     pattern ∈ Grader.negativePatterns
     /\ substring pattern (toLowerCase text)) ->
  (forall keyword : string, keyword ∈ keywords ->
     exists pattern link : string,
       pattern ∈ Grader.negativePatterns
       /\ link ∈ [" about "; " on "; " regarding "]
       /\ substring (pattern +:+ link +:+ toLowerCase keyword)
            (toLowerCase text)) ->
  Grader.countKeywordMatches (Some text) (Some keywords) = 0.
Proof.
  intros _ [p [Hp Hsub]] Hall. unfold Grader.countKeywordMatches.
  destruct (_ || _); [reflexivity |].
  rewrite (has_negative_true _ p Hp Hsub).
  replace (forallb _ keywords) with true; [reflexivity |].
  symmetry. apply forallb_forall. intros kw Hkw.
  destruct (Hall kw) as [q [link [Hq [Hlink Hs]]]];
    [apply list_elem_of_In, Hkw |].
  exact (negated_keyword_true _ kw q link Hq Hlink Hs).
Qed.

Lemma grader_pure_negation_witness :
  Grader.countKeywordMatches
    (Some "There is No Information about Pressure and no information on Voltage.")
    (Some ["pressure"; "VOLTAGE"]) = 0.
Proof.
  apply grader_pure_negation.
  - discriminate.
  - exists "no information". split.
    + vm_compute. do 2 apply list_elem_of_further. apply list_elem_of_here.
    + exists "there is ", " about pressure and no information on voltage.".
      reflexivity.
  - intros keyword Hk.
    rewrite !elem_of_cons, elem_of_nil in Hk.
    destruct Hk as [-> | [-> | []]].
    + exists "no information", " about ". repeat split.
      * vm_compute. do 2 apply list_elem_of_further. apply list_elem_of_here.
      * apply list_elem_of_here.
      * exists "there is ", " and no information on voltage.". reflexivity.
    + exists "no information", " on ". repeat split.
      * vm_compute. do 2 apply list_elem_of_further. apply list_elem_of_here.
      * apply list_elem_of_further, list_elem_of_here.
      * exists "there is no information about pressure and ", ".".
        reflexivity.
Defined.

(** C10. The grader's result is at most the number of expected keywords,
    and it is 0 when the response is [null] or empty or the keyword list is
    [null] or empty. *)
Theorem grader_bounds (text : option string) (keywords : option (list string)) :
  (0 <= Grader.countKeywordMatches text keywords
   <= length (default [] keywords))%nat
  /\ Grader.countKeywordMatches None keywords = 0
  /\ Grader.countKeywordMatches (Some EmptyString) keywords = 0
  /\ Grader.countKeywordMatches text None = 0
  /\ Grader.countKeywordMatches text (Some []) = 0.
Proof.
  repeat split.
  - lia.
  - destruct text as [t|], keywords as [ks|]; simpl; try lia.
    destruct (_ || _); [lia |]. destruct (_ && _); [lia |].
    apply (count_loop_le _ _ ks 0).
  - destruct keywords; reflexivity.
  - destruct text; reflexivity.
  - destruct text as [t|]; [| reflexivity]. simpl.
    rewrite orb_true_r. reflexivity.
Qed.

(** ** Whitespace-free runs *)

Section RunFacts.

Lemma append_nil_r (s : string) : s +:+ EmptyString = s.
Proof.
  induction s as [|c s IH]; [reflexivity |].
  change (String c s +:+ EmptyString) with (String c (s +:+ EmptyString)).
  rewrite IH. reflexivity.
Qed.

Lemma append_cons (c : ascii) (a b : string) :
  String c a +:+ b = String c (a +:+ b).
Proof. reflexivity. Qed.

Lemma append_assoc (a b c : string) : (a +:+ b) +:+ c = a +:+ (b +:+ c).
Proof.
  induction a as [|x a IH]; [reflexivity |].
  rewrite !append_cons, IH. reflexivity.
Qed.

Lemma snoc_append (cur : string) (c : ascii) (s : string) :
  snoc cur c +:+ s = cur +:+ String c s.
Proof. unfold snoc. rewrite append_assoc. reflexivity. Qed.

Lemma append_eq_append (a b c d : string) :
  a +:+ b = c +:+ d ->
  (exists k, c = a +:+ k /\ b = k +:+ d)
  \/ (exists k, a = c +:+ k /\ d = k +:+ b).
Proof.
  revert c. induction a as [|x a IH]; intros c E.
  - left. exists c. split; [reflexivity | exact E].
  - destruct c as [|y c].
    + right. exists (String x a). split; [reflexivity |]. symmetry. exact E.
    + rewrite !append_cons in E. injection E as -> E.
      destruct (IH c E) as [[k [-> ->]] | [k [-> ->]]].
      * left. exists k. split; reflexivity.
      * right. exists k. split; reflexivity.
Qed.

Lemma no_space_append (a b : string) :
  no_space (a +:+ b) = no_space a && no_space b.
Proof.
  induction a as [|x a IH]; [reflexivity |].
  rewrite append_cons. cbn [no_space]. rewrite IH, andb_assoc. reflexivity.
Qed.

Lemma no_space_snoc (cur : string) (c : ascii) :
  no_space cur = true -> is_space c = false -> no_space (snoc cur c) = true.
Proof.
  intros Hcur Hc. unfold snoc. rewrite no_space_append, Hcur.
  cbn [no_space]. rewrite Hc. reflexivity.
Qed.

(** A boundary inside a whitespace-free string is at one of its ends. *)
Lemma boundary_prefix (x pre k : string) :
  no_space x = true -> ends_at_boundary pre -> x = pre +:+ k ->
  pre = EmptyString.
Proof.
  intros Hx [-> | [p [c [-> Hc]]]] E; [reflexivity |].
  rewrite E in Hx. unfold snoc in Hx. rewrite !no_space_append in Hx.
  cbn [no_space] in Hx. rewrite Hc in Hx. cbn in Hx.
  rewrite andb_false_r in Hx. discriminate.
Qed.

Lemma boundary_suffix (x k suf : string) :
  no_space x = true -> starts_at_boundary suf -> x = k +:+ suf ->
  suf = EmptyString.
Proof.
  intros Hx [-> | [c [r [-> Hc]]]] E; [reflexivity |].
  rewrite E, no_space_append in Hx. cbn [no_space] in Hx.
  rewrite Hc in Hx. cbn in Hx. rewrite andb_false_r in Hx. discriminate.
Qed.

Lemma snoc_suffix (p : string) (x : ascii) (a k : string) :
  snoc p x = a +:+ k -> k <> EmptyString ->
  exists p' : string, k = snoc p' x.
Proof.
  revert p. induction a as [|y a IH]; intros p E Hk.
  - exists p. symmetry. exact E.
  - destruct p as [|z p].
    + unfold snoc in E. rewrite append_cons in E.
      change (EmptyString +:+ String x EmptyString)
        with (String x EmptyString) in E.
      injection E as _ E. destruct a; [| discriminate].
      exfalso. apply Hk. symmetry. exact E.
    + unfold snoc in E. rewrite !append_cons in E. injection E as _ E.
      exact (IH p E Hk).
Qed.

Lemma boundary_after_space (a : string) (c : ascii) (k : string) :
  is_space c = true ->
  ends_at_boundary ((a +:+ String c EmptyString) +:+ k) <-> ends_at_boundary k.
Proof.
  intros Hc. split.
  - intros [E | [p [x [E Hx]]]].
    + destruct a; discriminate.
    + destruct (decide (k = EmptyString)) as [-> | Hk]; [left; reflexivity |].
      destruct (snoc_suffix p x _ k (eq_sym E) Hk) as [p' ->].
      right. exists p', x. split; [reflexivity | exact Hx].
  - intros [-> | [p [x [-> Hx]]]].
    + right. exists a, c. rewrite append_nil_r. split; [reflexivity | exact Hc].
    + right. exists ((a +:+ String c EmptyString) +:+ p), x.
      unfold snoc. rewrite !append_assoc. split; [reflexivity | exact Hx].
Qed.

Lemma run_first (w : string) :
  w <> EmptyString -> no_space w = true ->
  exists (c : ascii) (w' : string), w = String c w' /\ is_space c = false.
Proof.
  intros Hw Hn. destruct w as [|c w']; [contradiction |].
  exists c, w'. split; [reflexivity |].
  cbn [no_space] in Hn. apply andb_true_iff in Hn as [Hc _].
  apply negb_true_iff in Hc. exact Hc.
Qed.

Lemma run_of_no_space (w cur : string) :
  no_space cur = true -> is_run w cur <-> w = cur /\ cur <> EmptyString.
Proof.
  intros Hcur. split.
  - intros [Hw [Hn [pre [suf [E [Hpre Hsuf]]]]]].
    pose proof (boundary_prefix _ _ _ Hcur Hpre E) as ->.
    change (EmptyString +:+ w +:+ suf) with (w +:+ suf) in E.
    pose proof (boundary_suffix _ _ _ Hcur Hsuf E) as ->.
    rewrite append_nil_r in E. subst cur. split; [reflexivity | exact Hw].
  - intros [-> Hne]. split; [exact Hne |]. split; [exact Hcur |].
    exists EmptyString, EmptyString. rewrite append_nil_r.
    split; [reflexivity |]. split; left; reflexivity.
Qed.

(** The runs of [cur . c . s'] for a whitespace character [c] and a
    whitespace-free [cur]: [cur] itself, and the runs of [s']. *)
Lemma run_across_space (w cur : string) (c : ascii) (s' : string) :
  no_space cur = true -> is_space c = true ->
  is_run w (cur +:+ String c s')
  <-> (w = cur /\ cur <> EmptyString) \/ is_run w s'.
Proof.
  intros Hcur Hc. split.
  - intros [Hw [Hn [pre [suf [E [Hpre Hsuf]]]]]].
    destruct (run_first w Hw Hn) as [x [w' [Ew Hx]]].
    destruct (append_eq_append _ _ _ _ E) as [[k [Ek Es]] | [k [Ek Es]]].
    + right. destruct k as [|c0 k].
      * change (EmptyString +:+ w +:+ suf) with (w +:+ suf) in Es.
        rewrite Ew, append_cons in Es. injection Es as <- _. congruence.
      * rewrite append_cons in Es. injection Es as <- Es.
        split; [exact Hw |]. split; [exact Hn |].
        exists k, suf. split; [exact Es |]. split; [| exact Hsuf].
        apply (boundary_after_space cur c k Hc).
        rewrite append_assoc, append_cons.
        change (EmptyString +:+ k) with k. rewrite <- Ek. exact Hpre.
    + pose proof (boundary_prefix _ _ _ Hcur Hpre Ek) as ->.
      change (EmptyString +:+ k) with k in Ek. subst k.
      destruct (append_eq_append _ _ _ _ Es) as [[k [Ek Ef]] | [k [Ek Ef]]].
      * destruct k as [|y k].
        -- rewrite append_nil_r in Ek. left. subst cur.
           split; [reflexivity | exact Hw].
        -- exfalso. destruct Hsuf as [-> | [z [r [-> Hz]]]];
             [discriminate |].
           rewrite append_cons in Ef. injection Ef as <- _.
           rewrite Ek, no_space_append in Hcur. cbn [no_space] in Hcur.
           rewrite Hz in Hcur. cbn in Hcur. rewrite andb_false_r in Hcur.
           discriminate.
      * destruct k as [|y k].
        -- rewrite append_nil_r in Ek. left. subst cur.
           split; [reflexivity | exact Hw].
        -- exfalso. rewrite append_cons in Ef. injection Ef as <- _.
           rewrite Ek, no_space_append in Hn. cbn [no_space] in Hn.
           rewrite Hc in Hn. cbn in Hn. rewrite andb_false_r in Hn.
           discriminate.
  - intros [[-> Hne] | [Hw [Hn [pre [suf [E [Hpre Hsuf]]]]]]].
    + split; [exact Hne |]. split; [exact Hcur |].
      exists EmptyString, (String c s'). split; [reflexivity |].
      split; [left; reflexivity |]. right. exists c, s'.
      split; [reflexivity | exact Hc].
    + split; [exact Hw |]. split; [exact Hn |].
      exists ((cur +:+ String c EmptyString) +:+ pre), suf.
      split; [| split; [| exact Hsuf]].
      * rewrite E, !append_assoc. reflexivity.
      * apply boundary_after_space; assumption.
Qed.

Lemma runs_go_spec (s cur w : string) :
  no_space cur = true ->
  w ∈ KeywordSpec.runs_go cur s <-> is_run w (cur +:+ s).
Proof.
  revert cur. induction s as [|c s IH]; intros cur Hcur.
  - rewrite append_nil_r, (run_of_no_space w cur Hcur). cbn.
    destruct (decide (cur = EmptyString)) as [-> | Hne].
    + rewrite elem_of_nil. tauto.
    + rewrite elem_of_cons, elem_of_nil. tauto.
  - cbn [KeywordSpec.runs_go]. destruct (is_space c) eqn:Hc.
    + rewrite (run_across_space w cur c s Hcur Hc).
      rewrite <- (IH EmptyString eq_refl).
      destruct (decide (cur = EmptyString)) as [-> | Hne].
      * tauto.
      * rewrite elem_of_cons. tauto.
    + rewrite (IH (snoc cur c) (no_space_snoc cur c Hcur Hc)), snoc_append.
      reflexivity.
Qed.

(** The tokens of a text are its maximal whitespace-free runs. *)
Lemma tokens_spec (s w : string) : w ∈ KeywordSpec.tokens s <-> is_run w s.
Proof. apply (runs_go_spec s EmptyString w). reflexivity. Qed.

End RunFacts.

(** ** The keyword extractor *)

Section KeywordFacts.
Import Keywords.

(** The pieces of [split] that are not empty are the whitespace-free
    runs. *)
Lemma split_go_runs (in_sep : bool) (cur s : string) :
  (in_sep = true -> cur = EmptyString) ->
  List.filter non_empty (split_go is_space in_sep cur s)
  = KeywordSpec.runs_go cur s.
Proof.
  revert in_sep cur. induction s as [|c s IH]; intros in_sep cur Hcur; simpl.
  - unfold non_empty. destruct (decide (cur = EmptyString)) as [-> | Hne].
    + reflexivity.
    + apply String.eqb_neq in Hne. rewrite Hne. reflexivity.
  - destruct (is_space c).
    + destruct in_sep.
      * rewrite (Hcur eq_refl). simpl. apply IH. reflexivity.
      * simpl. unfold non_empty at 1.
        destruct (decide (cur = EmptyString)) as [-> | Hne]; simpl.
        -- apply IH. reflexivity.
        -- apply String.eqb_neq in Hne. rewrite Hne. simpl. f_equal.
           apply IH. reflexivity.
    + apply IH. discriminate.
Qed.

Lemma split_runs (s : string) :
  List.filter non_empty (split is_space s) = KeywordSpec.tokens s.
Proof. apply split_go_runs. discriminate. Qed.

Lemma keep_word_spec (w : string) :
  keep_word w = true
  <-> ~ KeywordSpec.short w /\ ~ KeywordSpec.stop_word w.
Proof.
  unfold keep_word, KeywordSpec.short, KeywordSpec.stop_word, stopWords.
  rewrite andb_true_iff, negb_true_iff, bool_decide_eq_false,
    Nat.ltb_lt.
  split; (intros [Hlen Hstop]; split; [lia | exact Hstop]).
Qed.

Lemma keep_word_non_empty (w : string) :
  keep_word w = true -> non_empty w = true.
Proof.
  unfold keep_word, non_empty. destruct w; [discriminate | reflexivity].
Qed.

Lemma elem_of_List_filter {A : Type} (f : A -> bool) (l : list A) (x : A) :
  x ∈ List.filter f l <-> x ∈ l /\ f x = true.
Proof. rewrite !list_elem_of_In. apply filter_In. Qed.

Lemma extractKeywords_elem (text w : string) :
  w ∈ extractKeywords text
  <-> w ∈ KeywordSpec.tokens (KeywordSpec.strip (KeywordSpec.lowercase text))
      /\ ~ KeywordSpec.short w /\ ~ KeywordSpec.stop_word w.
Proof.
  unfold extractKeywords, unique.
  rewrite elem_of_unique_go, elem_of_List_filter, <- split_runs,
    elem_of_List_filter, <- keep_word_spec, elem_of_nil.
  unfold KeywordSpec.strip, KeywordSpec.lowercase.
  pose proof (keep_word_non_empty w). tauto.
Qed.
End KeywordFacts.

(** C4. The extractor returns, without repetition, exactly the terms of the
    set the specification describes: the maximal whitespace-free runs of
    the lowercased and stripped text that are longer than 2 and are not stop
    words. The empty input gives no term and ["The Co2Sensor is a sensor."]
    gives [co2sensor] and [sensor]. *)
Theorem extractKeywords_spec (text : string) :
  list_to_set (Keywords.extractKeywords text) = KeywordSpec.extract text
  /\ NoDup (Keywords.extractKeywords text)
  /\ (forall w : string,
        w ∈ Keywords.extractKeywords text
        <-> is_run w (KeywordSpec.strip (KeywordSpec.lowercase text))
            /\ ~ KeywordSpec.short w /\ ~ KeywordSpec.stop_word w)
  /\ Keywords.extractKeywords EmptyString = []
  /\ KeywordSpec.extract EmptyString = ∅
  /\ Keywords.extractKeywords "The Co2Sensor is a sensor."
     = ["co2sensor"; "sensor"]
  /\ KeywordSpec.extract "The Co2Sensor is a sensor."
     = {[ "co2sensor"; "sensor" ]}.
Proof.
  assert (Hset : forall t,
    list_to_set (Keywords.extractKeywords t) = KeywordSpec.extract t).
  { intros t. apply set_eq. intros w. unfold KeywordSpec.extract.
    rewrite !elem_of_list_to_set, extractKeywords_elem,
      !list_elem_of_filter. tauto. }
  split; [apply Hset |].
  split; [apply NoDup_unique_go |].
  split; [intros w; rewrite extractKeywords_elem, tokens_spec; reflexivity |].
  split; [reflexivity |].
  split; [rewrite <- Hset; reflexivity |].
  split; [vm_compute; reflexivity |].
  rewrite <- Hset.
  replace (Keywords.extractKeywords "The Co2Sensor is a sensor.")
    with ["co2sensor"; "sensor"] by (vm_compute; reflexivity).
  set_solver.
Qed.

(** ** Sorting, limits and joins *)

Section SqlFacts.
Context {A : Type} (le : A -> A -> bool).

Hypothesis le_total : forall a b, le a b = false -> le b a = true.
Hypothesis le_trans :
  forall a b c, le a b = true -> le b c = true -> le a c = true.

Lemma insert_by_Permutation (x : A) (l : list A) :
  Sql.insert_by le x l ≡ₚ x :: l.
Proof.
  induction l as [|y l IH]; simpl; [reflexivity |].
  destruct (le x y); [reflexivity |].
  rewrite IH. apply Permutation_swap.
Qed.

Lemma order_by_Permutation (l : list A) : Sql.order_by le l ≡ₚ l.
Proof.
  induction l as [|x l IH]; simpl; [reflexivity |].
  rewrite insert_by_Permutation, IH. reflexivity.
Qed.

Lemma insert_by_HdRel (y x : A) (l : list A) :
  (before le) y x -> HdRel (before le) y l -> HdRel (before le) y (Sql.insert_by le x l).
Proof.
  intros Hyx Hl. destruct l as [|z l]; simpl.
  - constructor. exact Hyx.
  - destruct (le x z); constructor; [exact Hyx |].
    inversion Hl; assumption.
Qed.

Lemma insert_by_Sorted (x : A) (l : list A) :
  Sorted (before le) l -> Sorted (before le) (Sql.insert_by le x l).
Proof.
  induction 1 as [|y l Hl IH Hy]; simpl.
  - repeat constructor.
  - destruct (le x y) eqn:Hxy.
    + repeat constructor; assumption.
    + constructor; [exact IH |].
      apply insert_by_HdRel; [apply le_total, Hxy | exact Hy].
Qed.

Lemma order_by_Sorted (l : list A) : Sorted (before le) (Sql.order_by le l).
Proof.
  induction l as [|x l IH]; simpl; [constructor |].
  apply insert_by_Sorted, IH.
Qed.

Lemma order_by_StronglySorted (l : list A) :
  StronglySorted (before le) (Sql.order_by le l).
Proof.
  apply Sorted_StronglySorted; [| apply order_by_Sorted].
  intros a b c. apply le_trans.
Qed.

(** Rows that are in order already stay as they are. *)
Lemma order_by_sorted_id (l : list A) :
  Sorted (before le) l -> Sql.order_by le l = l.
Proof.
  induction 1 as [|x l Hl IH Hx]; simpl; [reflexivity |].
  rewrite IH. destruct Hx as [|y l Hxy]; simpl; [reflexivity |].
  unfold before in Hxy. rewrite Hxy. reflexivity.
Qed.
End SqlFacts.

Lemma elem_of_limit {A : Type} (n : nat) (l : list A) (x : A) :
  x ∈ Sql.limit n l -> x ∈ l.
Proof. apply subseteq_take. Qed.

Lemma StronglySorted_limit {A : Type} (R : relation A) (n : nat) (l : list A) :
  StronglySorted R l -> StronglySorted R (Sql.limit n l).
Proof.
  intros Hl. revert n. induction Hl as [|x l Hl IH Hx]; intros [|n]; simpl;
    try constructor.
  - apply IH.
  - apply Forall_forall. intros y Hy. rewrite Forall_forall in Hx.
    apply Hx. exact (elem_of_limit _ _ _ Hy).
Qed.

Lemma StronglySorted_map {A B : Type} (f : A -> B) (R1 : relation A)
    (R2 : relation B) (l : list A) :
  (forall x y, R1 x y -> R2 (f x) (f y)) ->
  StronglySorted R1 l -> StronglySorted R2 (map f l).
Proof. exact (StronglySorted_fmap f R1 R2 l). Qed.

Lemma limit_limit {A : Type} (n m : nat) (l : list A) :
  (n <= m)%nat -> Sql.limit n (Sql.limit m l) = Sql.limit n l.
Proof.
  intros Hnm. unfold Sql.limit. rewrite firstn_firstn.
  f_equal. lia.
Qed.

Lemma asc_total {A : Type} (key : A -> Q) (a b : A) :
  Sql.asc key a b = false -> Sql.asc key b a = true.
Proof.
  unfold Sql.asc. intros Hab. apply Qle_bool_iff.
  destruct (Qlt_le_dec (key b) (key a)) as [Hlt | Hle].
  - apply Qlt_le_weak, Hlt.
  - apply Qle_bool_iff in Hle. congruence.
Qed.

Lemma asc_trans {A : Type} (key : A -> Q) (a b c : A) :
  Sql.asc key a b = true -> Sql.asc key b c = true -> Sql.asc key a c = true.
Proof.
  unfold Sql.asc. rewrite !Qle_bool_iff. apply Qle_trans.
Qed.

Lemma desc_total {A : Type} (key : A -> Q) (a b : A) :
  Sql.desc key a b = false -> Sql.desc key b a = true.
Proof. unfold Sql.desc. intros Hab. exact (asc_total key b a Hab). Qed.

Lemma desc_trans {A : Type} (key : A -> Q) (a b c : A) :
  Sql.desc key a b = true -> Sql.desc key b c = true ->
  Sql.desc key a c = true.
Proof. unfold Sql.desc. intros Hab Hbc. exact (asc_trans key c b a Hbc Hab). Qed.

(** ** Vector strategy *)

Section VectorFacts.
Context `{Operators}.

Lemma search_nearest (embedding : vector) (embeddingModel contentType : string)
    (topK : nat) (table : list Document) :
  Vector.search embedding embeddingModel contentType topK table
  = map (of_document embedding)
      (Sql.limit topK (nearest embedding contentType table)).
Proof. reflexivity. Qed.

Lemma nearest_sorted (embedding : vector) (contentType : string)
    (table : list Document) :
  StronglySorted
    (fun a b => Sql.asc (distance_to embedding) a b = true)
    (nearest embedding contentType table).
Proof.
  apply order_by_StronglySorted; [apply asc_total | apply asc_trans].
Qed.

Lemma nearest_elem (embedding : vector) (contentType : string)
    (table : list Document) (d : Document) :
  d ∈ nearest embedding contentType table
  <-> d ∈ table /\ content_type d = contentType.
Proof.
  unfold nearest. rewrite order_by_Permutation, elem_of_List_filter.
  rewrite String.eqb_eq. reflexivity.
Qed.

Lemma search_descending (embedding : vector)
    (embeddingModel contentType : string) (topK : nat)
    (table : list Document) :
  StronglySorted
    (fun a b => (Vector.similarity b <= Vector.similarity a)%Q)
    (Vector.search embedding embeddingModel contentType topK table).
Proof.
  rewrite search_nearest.
  eapply StronglySorted_map;
    [| apply StronglySorted_limit, nearest_sorted].
  intros a b Hab. unfold Sql.asc in Hab. apply Qle_bool_iff in Hab.
  simpl. apply Qplus_le_r, Qopp_le_compat, Hab.
Qed.
End VectorFacts.

(** C5. The Vector strategy returns at most [topK] candidates, in
    descending order of similarity; each one is a row of the table with the
    requested content type, and its similarity is 1 minus the cosine
    distance between the query vector and the row's embedding, hence 1 for
    a row whose embedding is the query vector, at distance 0 from itself. *)
Theorem vector_search_spec `{Operators} (embedding : vector)
    (embeddingModel contentType : string) (topK : nat)
    (table : list Document) :
  let result :=
    Vector.search embedding embeddingModel contentType topK table in
  (length result <= topK)%nat
  /\ StronglySorted
       (fun a b => (Vector.similarity b <= Vector.similarity a)%Q) result
  /\ Forall
       (fun c =>
          exists d : Document,
            d ∈ table
            /\ content_type d = contentType
            /\ Vector.doc c = columns d
            /\ Vector.similarity c
               = (1 - cosine_distance (Store.embedding d) embedding)%Q
            /\ (Store.embedding d = embedding ->
                (cosine_distance embedding embedding == 0)%Q ->
                (Vector.similarity c == 1)%Q))
       result.
Proof.
  intros result. split; [| split].
  - unfold result. rewrite search_nearest, length_map.
    apply firstn_le_length.
  - apply search_descending.
  - unfold result. rewrite search_nearest. apply Forall_forall.
    intros c Hc. apply list_elem_of_In, in_map_iff in Hc.
    destruct Hc as [d [<- Hd]]. apply list_elem_of_In, elem_of_limit in Hd.
    apply nearest_elem in Hd as [Hd Hct].
    exists d. repeat split; try assumption.
    intros He H0. simpl. unfold distance_to. rewrite He, H0. reflexivity.
Qed.

(** ** Weights *)

Lemma or_default_zero (w fallback : Q) :
  (w == 0)%Q -> or_default (Some w) fallback = fallback.
Proof.
  intros Hw. unfold or_default. apply Qeq_bool_iff in Hw. rewrite Hw.
  reflexivity.
Qed.

Lemma or_default_not_zero (weight : option Q) (fallback : Q) :
  Qeq_bool fallback 0 = false ->
  Qeq_bool (or_default weight fallback) 0 = false.
Proof.
  intros Hf. unfold or_default. destruct weight as [w|]; [| exact Hf].
  destruct (Qeq_bool w 0) eqn:Hw; [exact Hf | exact Hw].
Qed.

Lemma div_not_zero (a b : Q) :
  Qeq_bool b 0 = false -> Sql.div a b = Some (a / b)%Q.
Proof. intros Hb. unfold Sql.div. rewrite Hb. reflexivity. Qed.

(** ** Hybrid strategy *)

Section HybridFacts.
Context `{Operators}.

Lemma full_outer_join_nil_r {A B : Type} (ida : A -> Z) (idb : B -> Z)
    (l : list A) :
  Sql.full_outer_join ida idb l [] = map Sql.LeftOnly l.
Proof.
  unfold Sql.full_outer_join. simpl. rewrite app_nil_r.
  induction l as [|a l IH]; simpl; [reflexivity |].
  rewrite IH. reflexivity.
Qed.

Lemma keyword_results_nil (n : nat) (pattern contentType : string)
    (topK : nat) (table : list Document) :
  (forall text : string, ts_match text pattern = false) ->
  keyword_results n pattern contentType topK table = [].
Proof.
  intros Hno. unfold keyword_results.
  replace (List.filter _ table) with (@nil Document).
  - simpl. unfold Sql.limit. apply firstn_nil.
  - symmetry. induction table as [|d table IH]; simpl; [reflexivity |].
    rewrite Hno, andb_false_r. exact IH.
Qed.

Lemma of_vector_scores (vectorWeight keywordWeight : Q)
    (c : Vector.Candidate) :
  ~ (vectorWeight == 0)%Q ->
  Hybrid.doc (of_vector vectorWeight keywordWeight c) = Vector.doc c
  /\ (Hybrid.similarity (of_vector vectorWeight keywordWeight c)
      == Vector.similarity c * vectorWeight)%Q
  /\ (Hybrid.vectorSimilarity (of_vector vectorWeight keywordWeight c)
      == Vector.similarity c)%Q
  /\ (Hybrid.keywordSimilarity (of_vector vectorWeight keywordWeight c)
      == 0)%Q.
Proof.
  intros Hv. simpl. split; [reflexivity |]. split; [ring |].
  split; [field; exact Hv |].
  unfold Qdiv. ring.
Qed.

Lemma select_all_vector_only (vectorWeight keywordWeight : Q)
    (embedding : vector) (l : list Document) :
  Qeq_bool vectorWeight 0 = false ->
  Qeq_bool keywordWeight 0 = false ->
  select_all (Hybrid.select_row vectorWeight keywordWeight)
    (Hybrid.combined_results vectorWeight keywordWeight
       (map (fun d : Document =>
               {| v_columns := d;
                  vector_similarity :=
                    (1 - cosine_distance (Store.embedding d) embedding)%Q |})
          l)
       [])
  = Some (map (of_vector vectorWeight keywordWeight)
            (map (of_document embedding) l)).
Proof.
  intros Hv Hk. unfold Hybrid.combined_results.
  rewrite full_outer_join_nil_r.
  induction l as [|d l IH]; simpl; [reflexivity |].
  simpl in IH. rewrite IH. unfold Hybrid.select_row. simpl.
  rewrite !div_not_zero by assumption. reflexivity.
Qed.

(** With no row in the keyword branch the query ranks the vector pool of
    [2 * topK] rows on the scaled vector score. *)
Lemma query_vector_only (embedding : vector)
    (embeddingModel contentType : string) (topK : nat)
    (pattern : string) (vectorWeight keywordWeight : Q)
    (table : list Document) :
  keyword_results 2 pattern contentType topK table = [] ->
  Qeq_bool vectorWeight 0 = false ->
  Qeq_bool keywordWeight 0 = false ->
  Hybrid.query embedding contentType topK pattern vectorWeight
    keywordWeight table
  = Some (Sql.limit topK
            (Sql.order_by (Sql.desc Hybrid.similarity)
               (map (of_vector vectorWeight keywordWeight)
                  (Vector.search embedding embeddingModel contentType
                     (topK * 2) table)))).
Proof.
  intros Hk Hv Hkw. unfold Hybrid.query. rewrite Hk.
  unfold vector_results.
  rewrite (select_all_vector_only _ _ embedding _ Hv Hkw).
  reflexivity.
Qed.

Lemma of_vector_sorted (vectorWeight keywordWeight : Q)
    (l : list Vector.Candidate) :
  (0 < vectorWeight)%Q ->
  StronglySorted
    (fun a b => (Vector.similarity b <= Vector.similarity a)%Q) l ->
  Sorted (fun a b => Sql.desc Hybrid.similarity a b = true)
    (map (of_vector vectorWeight keywordWeight) l).
Proof.
  intros Hv Hl. apply StronglySorted_Sorted.
  eapply StronglySorted_map; [| exact Hl].
  intros a b Hab. unfold Sql.desc. apply Qle_bool_iff. simpl.
  apply Qplus_le_l, Qmult_le_compat_r; [exact Hab |].
  apply Qlt_le_weak, Hv.
Qed.

(** For a positive vector weight that ranking is the Vector strategy's. *)
Lemma query_vector_only_positive (embedding : vector)
    (embeddingModel contentType : string) (topK : nat)
    (pattern : string) (vectorWeight keywordWeight : Q)
    (table : list Document) :
  keyword_results 2 pattern contentType topK table = [] ->
  (0 < vectorWeight)%Q ->
  Qeq_bool keywordWeight 0 = false ->
  Hybrid.query embedding contentType topK pattern vectorWeight
    keywordWeight table
  = Some (map (of_vector vectorWeight keywordWeight)
            (Vector.search embedding embeddingModel contentType topK
               table)).
Proof.
  intros Hk Hv Hkw.
  assert (Hv0 : Qeq_bool vectorWeight 0 = false).
  { destruct (Qeq_bool vectorWeight 0) eqn:E; [| reflexivity].
    apply Qeq_bool_iff in E. rewrite E in Hv.
    exfalso. exact (Qlt_irrefl 0 Hv). }
  rewrite (query_vector_only embedding embeddingModel) by assumption.
  f_equal.
  rewrite order_by_sorted_id
    by (apply of_vector_sorted; [exact Hv | apply search_descending]).
  rewrite !search_nearest. unfold Sql.limit.
  rewrite <- !firstn_map, firstn_firstn. f_equal. lia.
Qed.

Lemma join_nil (sep : string) : Keywords.join sep [] = EmptyString.
Proof. reflexivity. Qed.
End HybridFacts.

(** ** Rows without ties: the order is determined *)

Section TieFacts.
Context {A : Type}.

Lemma strict_sorted_unique (lt : relation A) (l1 l2 : list A) :
  (forall a b, lt a b -> lt b a -> False) ->
  StronglySorted lt l1 -> StronglySorted lt l2 -> l1 ≡ₚ l2 -> l1 = l2.
Proof.
  intros Hasym H1. revert l2.
  induction H1 as [|a l1 Hl1 IH Ha]; intros l2 H2 Hp.
  - symmetry. exact (Permutation.Permutation_nil Hp).
  - destruct H2 as [|b l2 Hl2 Hb].
    + apply Permutation_sym, Permutation.Permutation_nil in Hp.
      discriminate.
    + assert (Hab : a ∈ b :: l2) by (rewrite <- Hp; apply list_elem_of_here).
      assert (Hba : b ∈ a :: l1) by (rewrite Hp; apply list_elem_of_here).
      apply elem_of_cons in Hab, Hba.
      assert (E : a = b).
      { destruct Hab as [E | Hab]; [exact E |].
        destruct Hba as [E | Hba]; [symmetry; exact E |].
        rewrite Forall_forall in Ha, Hb.
        exfalso. exact (Hasym a b (Ha b Hba) (Hb a Hab)). }
      subst b. f_equal. apply IH; [exact Hl2 |].
      exact (Permutation_cons_inv Hp).
Qed.

Lemma no_ties_Permutation (key : A -> Q) (l l' : list A) :
  l' ≡ₚ l -> Ties.no_ties key l -> Ties.no_ties key l'.
Proof.
  unfold Ties.no_ties. intros Hp Hl.
  rewrite (Permutation_map (fun a => Qred (key a)) Hp). exact Hl.
Qed.

Lemma no_ties_limit (key : A -> Q) (n : nat) (l : list A) :
  Ties.no_ties key l -> Ties.no_ties key (Sql.limit n l).
Proof.
  unfold Ties.no_ties, Sql.limit. intros Hl.
  rewrite <- firstn_map.
  exact (sublist_NoDup _ _ Hl (sublist_take _ _)).
Qed.

Lemma no_ties_map {B : Type} (key : A -> Q) (key' : B -> Q) (f : A -> B)
    (l : list A) :
  (forall a b, (key' (f a) == key' (f b))%Q -> (key a == key b)%Q) ->
  Ties.no_ties key l -> Ties.no_ties key' (map f l).
Proof.
  unfold Ties.no_ties. intros Hf.
  induction l as [|a l IH]; intros Hl; [constructor |].
  cbn [map] in *. apply NoDup_cons in Hl as [Ha Hl].
  apply NoDup_cons. split; [| apply IH, Hl].
  intros Hin. apply Ha.
  apply list_elem_of_In, in_map_iff in Hin as [b' [Hb' Hin]].
  apply in_map_iff in Hin as [b [<- Hin]].
  apply list_elem_of_In, in_map_iff. exists b. split; [| exact Hin].
  apply Qred_complete, Hf. rewrite <- (Qred_correct (key' (f b))), Hb'.
  apply Qred_correct.
Qed.

Lemma no_tiesb_spec (key : A -> Q) (l : list A) :
  Ties.no_tiesb key l = true -> Ties.no_ties key l.
Proof.
  unfold Ties.no_ties. induction l as [|a l IH]; intros Hl; [constructor |].
  cbn [Ties.no_tiesb map] in *. apply andb_true_iff in Hl as [Ha Hl].
  apply NoDup_cons. split; [| apply IH, Hl].
  intros Hin. apply list_elem_of_In, in_map_iff in Hin as [b [Hb Hin]].
  rewrite forallb_forall in Ha. specialize (Ha b Hin).
  apply negb_true_iff in Ha.
  assert (E : (key a == key b)%Q).
  { rewrite <- (Qred_correct (key a)), <- (Qred_correct (key b)), Hb.
    reflexivity. }
  apply Qeq_bool_iff in E. congruence.
Qed.

(** Rows without ties that are sorted are strictly sorted. *)
Lemma no_ties_strict (key : A -> Q) (R lt : relation A) (l : list A) :
  (forall a b, R a b -> ~ (key a == key b)%Q -> lt a b) ->
  Ties.no_ties key l -> StronglySorted R l -> StronglySorted lt l.
Proof.
  unfold Ties.no_ties. intros Hlt Hl Hs.
  induction Hs as [|a l Hs IH Ha]; [constructor |].
  cbn [map] in Hl. apply NoDup_cons in Hl as [Hna Hl].
  constructor; [apply IH, Hl |].
  rewrite Forall_forall in Ha. apply Forall_forall. intros b Hb.
  apply Hlt; [exact (Ha b Hb) |]. intros E. apply Hna.
  apply list_elem_of_In, in_map_iff. exists b.
  split; [symmetry; apply Qred_complete, E | apply list_elem_of_In, Hb].
Qed.

(** Without ties, [ORDER BY key] can give one result only. *)
Lemma ordering_unique_asc (key : A -> Q) (l l1 l2 : list A) :
  Ties.no_ties key l ->
  Ties.ordering (Sql.asc key) l l1 -> Ties.ordering (Sql.asc key) l l2 ->
  l1 = l2.
Proof.
  intros Hl [Hp1 Hs1] [Hp2 Hs2].
  apply (strict_sorted_unique (fun a b => (key a < key b)%Q)).
  - intros a b Hab Hba. exact (Qlt_irrefl _ (Qlt_trans _ _ _ Hab Hba)).
  - apply (no_ties_strict key (before (Sql.asc key)));
      [| exact (no_ties_Permutation key l l1 Hp1 Hl) | exact Hs1].
    intros a b Hab Hne. unfold before, Sql.asc in Hab.
    apply Qle_bool_iff, Qle_lt_or_eq in Hab. tauto.
  - apply (no_ties_strict key (before (Sql.asc key)));
      [| exact (no_ties_Permutation key l l2 Hp2 Hl) | exact Hs2].
    intros a b Hab Hne. unfold before, Sql.asc in Hab.
    apply Qle_bool_iff, Qle_lt_or_eq in Hab. tauto.
  - rewrite Hp1, Hp2. reflexivity.
Qed.

(** Without ties, [ORDER BY key DESC] can give one result only. *)
Lemma ordering_unique_desc (key : A -> Q) (l l1 l2 : list A) :
  Ties.no_ties key l ->
  Ties.ordering (Sql.desc key) l l1 -> Ties.ordering (Sql.desc key) l l2 ->
  l1 = l2.
Proof.
  intros Hl [Hp1 Hs1] [Hp2 Hs2].
  apply (strict_sorted_unique (fun a b => (key b < key a)%Q)).
  - intros a b Hab Hba. exact (Qlt_irrefl _ (Qlt_trans _ _ _ Hab Hba)).
  - apply (no_ties_strict key (before (Sql.desc key)));
      [| exact (no_ties_Permutation key l l1 Hp1 Hl) | exact Hs1].
    intros a b Hab Hne. unfold before, Sql.desc in Hab.
    apply Qle_bool_iff, Qle_lt_or_eq in Hab.
    destruct Hab as [Hab | Hab]; [exact Hab |].
    exfalso. apply Hne. symmetry. exact Hab.
  - apply (no_ties_strict key (before (Sql.desc key)));
      [| exact (no_ties_Permutation key l l2 Hp2 Hl) | exact Hs2].
    intros a b Hab Hne. unfold before, Sql.desc in Hab.
    apply Qle_bool_iff, Qle_lt_or_eq in Hab.
    destruct Hab as [Hab | Hab]; [exact Hab |].
    exfalso. apply Hne. symmetry. exact Hab.
  - rewrite Hp1, Hp2. reflexivity.
Qed.

(** The order of the model is one the store may give. *)
Lemma order_by_ordering (le : A -> A -> bool) (l : list A) :
  (forall a b, le a b = false -> le b a = true) ->
  (forall a b c, le a b = true -> le b c = true -> le a c = true) ->
  Ties.ordering le l (Sql.order_by le l).
Proof.
  intros Htotal Htrans. split.
  - apply order_by_Permutation.
  - apply order_by_StronglySorted; assumption.
Qed.
End TieFacts.

Section HybridTies.
Context `{Operators}.

(** Without ties, the vector branch reads the rows in the order of the
    model, whichever order the store gives. *)
Lemma ordering_nearest (embedding : vector) (contentType : string)
    (table sorted : list Document) :
  Ties.distinct_distances embedding contentType table ->
  Ties.ordering (Sql.asc (distance_to embedding))
    (of_type contentType table) sorted ->
  sorted = nearest embedding contentType table.
Proof.
  intros Hd Hs.
  apply (ordering_unique_asc (distance_to embedding)
           (of_type contentType table)); [exact Hd | exact Hs |].
  apply order_by_ordering; [apply asc_total | apply asc_trans].
Qed.

Lemma of_vector_no_ties (vectorWeight keywordWeight : Q)
    (embedding : vector) (l : list Document) :
  ~ (vectorWeight == 0)%Q ->
  Ties.no_ties (distance_to embedding) l ->
  Ties.no_ties Hybrid.similarity
    (map (of_vector vectorWeight keywordWeight)
       (map (of_document embedding) l)).
Proof.
  intros Hv Hl. rewrite map_map.
  apply (no_ties_map (distance_to embedding)); [| exact Hl].
  intros a b. cbn [of_vector of_document Hybrid.similarity
                   Vector.similarity].
  generalize (distance_to embedding a) (distance_to embedding b).
  intros x y E.
  assert (Ex : (x == 1 - ((1 - x) * vectorWeight + 0 * keywordWeight)
                        / vectorWeight)%Q) by (field; exact Hv).
  assert (Ey : (y == 1 - ((1 - y) * vectorWeight + 0 * keywordWeight)
                        / vectorWeight)%Q) by (field; exact Hv).
  rewrite Ex, Ey, E. reflexivity.
Qed.

(** With no row in the keyword branch, a positive vector weight and rows
    without ties, the Hybrid query has one possible result, the scaled
    ranking of the Vector strategy: the model gives it, and so does every
    order that the store may give to the vector branch and to the final
    [SELECT]. *)
Lemma vector_only_any_order (embedding : vector)
    (embeddingModel contentType : string) (topK : nat)
    (vectorWeight keywordWeight : Q) (table : list Document) :
  Ties.distinct_distances embedding contentType table ->
  (0 < vectorWeight)%Q ->
  forall pool ranked,
    Ties.ordering (Sql.asc (distance_to embedding))
      (of_type contentType table) pool ->
    Ties.ordering (Sql.desc Hybrid.similarity)
      (map (of_vector vectorWeight keywordWeight)
         (map (of_document embedding) (Sql.limit (topK * 2) pool)))
      ranked ->
    Sql.limit topK ranked
    = map (of_vector vectorWeight keywordWeight)
        (Vector.search embedding embeddingModel contentType topK table).
Proof.
  intros Hd Hv pool ranked Hpool Hranked.
  assert (Hv0 : ~ (vectorWeight == 0)%Q).
  { intros E. rewrite E in Hv. exact (Qlt_irrefl 0 Hv). }
  rewrite (ordering_nearest embedding contentType table pool Hd Hpool)
    in Hranked.
  rewrite <- (search_nearest embedding embeddingModel) in Hranked.
  assert (Hr : ranked
               = map (of_vector vectorWeight keywordWeight)
                   (Vector.search embedding embeddingModel contentType
                      (topK * 2) table)).
  { apply (ordering_unique_desc Hybrid.similarity
             (map (of_vector vectorWeight keywordWeight)
                (Vector.search embedding embeddingModel contentType
                   (topK * 2) table))); [| exact Hranked |].
    - rewrite search_nearest. apply of_vector_no_ties; [exact Hv0 |].
      apply no_ties_limit.
      apply (no_ties_Permutation _ (of_type contentType table));
        [apply order_by_Permutation | exact Hd].
    - split; [reflexivity |].
      apply Sorted_StronglySorted.
      + intros a b c. apply desc_trans.
      + apply of_vector_sorted; [exact Hv | apply search_descending]. }
  rewrite Hr, !search_nearest. unfold Sql.limit.
  rewrite <- !firstn_map, firstn_firstn. f_equal. lia.
Qed.

(** The candidates of a Hybrid query without keyword rows are made of rows
    of the requested content type. *)
Lemma query_vector_only_elem (embedding : vector)
    (embeddingModel contentType : string) (topK : nat)
    (pattern : string) (vectorWeight keywordWeight : Q)
    (table : list Document) :
  keyword_results 2 pattern contentType topK table = [] ->
  Qeq_bool vectorWeight 0 = false ->
  Qeq_bool keywordWeight 0 = false ->
  exists rows,
    Hybrid.query embedding contentType topK pattern vectorWeight
      keywordWeight table = Some rows
    /\ Forall
         (fun c =>
            exists d,
              d ∈ of_type contentType table
              /\ c = of_vector vectorWeight keywordWeight
                       (of_document embedding d))
         rows.
Proof.
  intros Hk Hv Hkw.
  rewrite (query_vector_only embedding embeddingModel) by assumption.
  eexists. split; [reflexivity |].
  apply Forall_forall. intros c Hc.
  apply elem_of_limit in Hc.
  rewrite (order_by_Permutation _ _) in Hc.
  rewrite search_nearest in Hc.
  apply list_elem_of_In, in_map_iff in Hc as [v [<- Hc]].
  apply in_map_iff in Hc as [d [<- Hc]].
  exists d. split; [| reflexivity].
  apply list_elem_of_In in Hc. apply elem_of_limit in Hc.
  unfold nearest in Hc. rewrite (order_by_Permutation _ _) in Hc.
  exact Hc.
Qed.
End HybridTies.

(** C6, as the code has it. When no keyword is extracted from the query
    text (and the store's text search matches nothing on the empty
    pattern), the Hybrid call succeeds, the keyword branch has no row, and
    every candidate is made of a row of the requested content type: its
    score is the vector score times the vector weight and its keyword
    score is 0. When moreover the rows of that type are at distinct
    distances of the query embedding, so that no order is left to the
    store, the result is the first [topK] of the vector pool of
    [2 * topK] rows ranked on the scaled score; for a positive vector
    weight it is the Vector strategy's ranking, with every score scaled by
    the vector weight, whichever order the store gives to the vector
    branch and to the final [SELECT]. *)
Theorem hybrid_no_keywords `{Operators} (embedding : vector)
    (queryText embeddingModel contentType : string) (topK : nat)
    (table : list Document) (options : Hybrid.Options) :
  Keywords.extractKeywords queryText = [] ->
  (forall text : string, ts_match text EmptyString = false) ->
  let vw := or_default (Hybrid.vectorWeight options) (7 # 10) in
  let kw := or_default (Hybrid.keywordWeight options) (3 # 10) in
  keyword_results 2 (Keywords.keywordPattern queryText) contentType topK
    table = []
  /\ (exists rows,
        Hybrid.search embedding queryText embeddingModel contentType topK
          table options = Some rows
        /\ Forall
             (fun c =>
                exists d,
                  d ∈ of_type contentType table
                  /\ c = of_vector vw kw (of_document embedding d))
             rows)
  /\ (forall c : Vector.Candidate,
        Hybrid.doc (of_vector vw kw c) = Vector.doc c
        /\ (Hybrid.similarity (of_vector vw kw c)
            == Vector.similarity c * vw)%Q
        /\ (Hybrid.vectorSimilarity (of_vector vw kw c)
            == Vector.similarity c)%Q
        /\ (Hybrid.keywordSimilarity (of_vector vw kw c) == 0)%Q)
  /\ (Ties.distinct_distances embedding contentType table ->
      Hybrid.search embedding queryText embeddingModel contentType topK
        table options
      = Some (Sql.limit topK
                (Sql.order_by (Sql.desc Hybrid.similarity)
                   (map (of_vector vw kw)
                      (Vector.search embedding embeddingModel contentType
                         (topK * 2) table))))
      /\ ((0 < vw)%Q ->
          Hybrid.search embedding queryText embeddingModel contentType topK
            table options
          = Some (map (of_vector vw kw)
                    (Vector.search embedding embeddingModel contentType topK
                       table))
          /\ forall pool ranked,
               Ties.ordering (Sql.asc (distance_to embedding))
                 (of_type contentType table) pool ->
               Ties.ordering (Sql.desc Hybrid.similarity)
                 (map (of_vector vw kw)
                    (map (of_document embedding)
                       (Sql.limit (topK * 2) pool)))
                 ranked ->
               Sql.limit topK ranked
               = map (of_vector vw kw)
                   (Vector.search embedding embeddingModel contentType topK
                      table))).
Proof.
  intros Hkeys Hempty vw kw.
  assert (Hpat : Keywords.keywordPattern queryText = EmptyString).
  { unfold Keywords.keywordPattern. rewrite Hkeys. reflexivity. }
  assert (Hk : keyword_results 2 (Keywords.keywordPattern queryText)
                 contentType topK table = []).
  { rewrite Hpat. apply keyword_results_nil, Hempty. }
  assert (Hvw : Qeq_bool vw 0 = false)
    by (apply or_default_not_zero; reflexivity).
  assert (Hkw : Qeq_bool kw 0 = false)
    by (apply or_default_not_zero; reflexivity).
  split; [exact Hk |]. split; [| split].
  - unfold Hybrid.search.
    apply (query_vector_only_elem embedding embeddingModel); assumption.
  - intros c. apply of_vector_scores. intros E.
    apply Qeq_bool_iff in E. congruence.
  - intros Hd. split.
    + unfold Hybrid.search. apply query_vector_only; assumption.
    + intros Hpos. split.
      * unfold Hybrid.search.
        apply query_vector_only_positive; assumption.
      * apply vector_only_any_order; assumption.
Qed.

Lemma hybrid_no_keywords_witness :
  Keywords.extractKeywords "Is it on?" = []
  /\ @Ties.distinct_distances Fixtures.unit_operators [1; 0]%Q "xeto"
       Fixtures.sensors
  /\ @Hybrid.search Fixtures.unit_operators [1; 0]%Q "Is it on?"
       "text-embedding-3-small" "xeto" 1 Fixtures.sensors Hybrid.no_options
     = Some (map (of_vector (7 # 10) (3 # 10))
               (@Vector.search Fixtures.unit_operators [1; 0]%Q
                  "text-embedding-3-small" "xeto" 1 Fixtures.sensors)).
Proof.
  assert (Hd : @Ties.distinct_distances Fixtures.unit_operators [1; 0]%Q
                 "xeto" Fixtures.sensors)
    by (apply no_tiesb_spec; vm_compute; reflexivity).
  split; [vm_compute; reflexivity |]. split; [exact Hd |].
  refine (proj1 (proj2 (proj2 (proj2 (proj2
    (@hybrid_no_keywords Fixtures.unit_operators [1; 0]%Q "Is it on?"
       "text-embedding-3-small" "xeto" 1 Fixtures.sensors
       Hybrid.no_options _ _))) Hd) _)).
  - vm_compute. reflexivity.
  - intros text. reflexivity.
  - reflexivity.
Defined.

(** C6 as stated fails for a negative vector weight: with no keyword
    extracted and [vectorWeight = -1], the Hybrid call on the three-document
    store returns document 2 for [topK = 1], the Vector call document 1. *)
Lemma negative_weight_reverses_pool :
  let ids_h := map (fun c : Hybrid.Candidate => id (Hybrid.doc c)) in
  let ids_v := map (fun c : Vector.Candidate => id (Vector.doc c)) in
  let hybrid :=
    @Hybrid.search Fixtures.unit_operators [1; 0]%Q "Is it on?"
      "text-embedding-3-small" "xeto" 1 Fixtures.sensors
      {| Hybrid.vectorWeight := Some (-1)%Q;
         Hybrid.keywordWeight := None |} in
  let vector :=
    @Vector.search Fixtures.unit_operators [1; 0]%Q "text-embedding-3-small"
      "xeto" 1 Fixtures.sensors in
  Keywords.extractKeywords "Is it on?" = []
  /\ option_map ids_h hybrid = Some [2%Z]
  /\ ids_v vector = [1%Z]
  /\ option_map ids_h hybrid <> Some (ids_v vector).
Proof.
  repeat split; try (vm_compute; reflexivity).
  vm_compute. discriminate.
Qed.

(** C3, as the code has it. A keyword weight of 0 in the options is replaced
    by the default 0.3, so the call is the default Hybrid call; its ranking
    is the Vector strategy's when the keyword branch has no row, the vector
    weight is positive and the rows of the requested content type are at
    distinct distances of the query embedding, so that no order is left to
    the store: then every order the store may give to the vector branch
    and to the final [SELECT] yields that ranking. *)
Theorem hybrid_keyword_weight_zero `{Operators} (embedding : vector)
    (queryText embeddingModel contentType : string) (topK : nat)
    (table : list Document) (vectorWeight : option Q) (w : Q) :
  (w == 0)%Q ->
  let zero :=
    {| Hybrid.vectorWeight := vectorWeight;
       Hybrid.keywordWeight := Some w |} in
  let omitted :=
    {| Hybrid.vectorWeight := vectorWeight;
       Hybrid.keywordWeight := None |} in
  let vw := or_default vectorWeight (7 # 10) in
  Hybrid.search embedding queryText embeddingModel contentType topK table zero
  = Hybrid.search embedding queryText embeddingModel contentType topK table
      omitted
  /\ Hybrid.search embedding queryText embeddingModel contentType topK table
       zero
     = Hybrid.query embedding contentType topK
         (Keywords.keywordPattern queryText) vw (3 # 10) table
  /\ (keyword_results 2 (Keywords.keywordPattern queryText) contentType topK
        table = [] ->
      (0 < vw)%Q ->
      Ties.distinct_distances embedding contentType table ->
      Hybrid.search embedding queryText embeddingModel contentType topK table
        zero
      = Some (map (of_vector vw (3 # 10))
                (Vector.search embedding embeddingModel contentType topK
                   table))
      /\ forall pool ranked,
           Ties.ordering (Sql.asc (distance_to embedding))
             (of_type contentType table) pool ->
           Ties.ordering (Sql.desc Hybrid.similarity)
             (map (of_vector vw (3 # 10))
                (map (of_document embedding) (Sql.limit (topK * 2) pool)))
             ranked ->
           Sql.limit topK ranked
           = map (of_vector vw (3 # 10))
               (Vector.search embedding embeddingModel contentType topK
                  table)).
Proof.
  intros Hw zero omitted vw.
  assert (Hz : Hybrid.search embedding queryText embeddingModel contentType
                 topK table zero
               = Hybrid.query embedding contentType topK
                   (Keywords.keywordPattern queryText) vw (3 # 10) table).
  { unfold Hybrid.search, zero.
    cbn [Hybrid.keywordWeight Hybrid.vectorWeight].
    rewrite (or_default_zero w _ Hw). reflexivity. }
  split; [rewrite Hz; reflexivity |]. split; [exact Hz |].
  intros Hk Hpos Hd. split.
  - rewrite Hz.
    apply query_vector_only_positive; [exact Hk | exact Hpos | reflexivity].
  - apply vector_only_any_order; assumption.
Qed.

Lemma hybrid_keyword_weight_zero_witness :
  @Hybrid.search Fixtures.unit_operators [1; 0]%Q "zone temp"
    "text-embedding-3-small" "xeto" 1 Fixtures.sensors
    {| Hybrid.vectorWeight := None; Hybrid.keywordWeight := Some 0%Q |}
  = @Hybrid.search Fixtures.unit_operators [1; 0]%Q "zone temp"
      "text-embedding-3-small" "xeto" 1 Fixtures.sensors
      {| Hybrid.vectorWeight := None; Hybrid.keywordWeight := None |}.
Proof.
  apply (@hybrid_keyword_weight_zero Fixtures.unit_operators [1; 0]%Q
           "zone temp" "text-embedding-3-small" "xeto" 1 Fixtures.sensors
           None 0%Q).
  reflexivity.
Defined.

(** C3 as stated fails: with the keyword weight set to 0, the Hybrid call
    for [topK = 1] on the three-document store returns document 2, which
    matches the keywords, and the Vector call returns document 1. Both
    documents are in the pool of [2 * topK] vector candidates. *)
Lemma zero_keyword_option_keeps_keywords :
  let ids_h := map (fun c : Hybrid.Candidate => id (Hybrid.doc c)) in
  let ids_v := map (fun c : Vector.Candidate => id (Vector.doc c)) in
  let hybrid :=
    @Hybrid.search Fixtures.unit_operators [1; 0]%Q "zone temp"
      "text-embedding-3-small" "xeto" 1 Fixtures.sensors
      {| Hybrid.vectorWeight := None;
         Hybrid.keywordWeight := Some 0%Q |} in
  let vector (topK : nat) :=
    @Vector.search Fixtures.unit_operators [1; 0]%Q "text-embedding-3-small"
      "xeto" topK Fixtures.sensors in
  option_map ids_h hybrid = Some [2%Z]
  /\ ids_v (vector 1%nat) = [1%Z]
  /\ ids_v (vector 2%nat) = [1%Z; 2%Z]
  /\ option_map ids_h hybrid <> Some (ids_v (vector 1%nat)).
Proof.
  repeat split; try (vm_compute; reflexivity).
  vm_compute. discriminate.
Qed.

(** C9. In the options of the Hybrid and of the Combined strategy a
    weight of 0 acts as an omitted weight: the default (0.7 and 0.3; 0.5,
    0.3 and 0.2) is used, and the weights that reach the query are never
    0. *)
Theorem zero_weight_is_default `{Operators} (embedding : vector)
    (queryText embeddingModel contentType : string) (topK : nat)
    (table : list Document) (w : Q) :
  (w == 0)%Q ->
  let hybrid := Hybrid.search embedding queryText embeddingModel contentType
                  topK table in
  let combined := Combined.search embedding queryText embeddingModel
                    contentType topK table in
  let pattern := Keywords.keywordPattern queryText in
  (forall o : option Q,
     hybrid {| Hybrid.vectorWeight := Some w; Hybrid.keywordWeight := o |}
     = hybrid {| Hybrid.vectorWeight := None; Hybrid.keywordWeight := o |}
     /\ hybrid {| Hybrid.vectorWeight := o; Hybrid.keywordWeight := Some w |}
        = hybrid {| Hybrid.vectorWeight := o; Hybrid.keywordWeight := None |})
  /\ (forall o1 o2 : option Q,
        combined {| Combined.vectorWeight := Some w;
                    Combined.keywordWeight := o1;
                    Combined.bm25Weight := o2 |}
        = combined {| Combined.vectorWeight := None;
                      Combined.keywordWeight := o1;
                      Combined.bm25Weight := o2 |}
        /\ combined {| Combined.vectorWeight := o1;
                       Combined.keywordWeight := Some w;
                       Combined.bm25Weight := o2 |}
           = combined {| Combined.vectorWeight := o1;
                         Combined.keywordWeight := None;
                         Combined.bm25Weight := o2 |}
        /\ combined {| Combined.vectorWeight := o1;
                       Combined.keywordWeight := o2;
                       Combined.bm25Weight := Some w |}
           = combined {| Combined.vectorWeight := o1;
                         Combined.keywordWeight := o2;
                         Combined.bm25Weight := None |})
  /\ hybrid {| Hybrid.vectorWeight := Some w;
               Hybrid.keywordWeight := Some w |}
     = Hybrid.query embedding contentType topK pattern (7 # 10) (3 # 10) table
  /\ combined {| Combined.vectorWeight := Some w;
                 Combined.keywordWeight := Some w;
                 Combined.bm25Weight := Some w |}
     = Combined.query embedding contentType topK pattern queryText (5 # 10)
         (3 # 10) (2 # 10) table
  /\ (forall options : Hybrid.Options,
        exists vw kw : Q,
          ~ (vw == 0)%Q /\ ~ (kw == 0)%Q
          /\ hybrid options
             = Hybrid.query embedding contentType topK pattern vw kw table)
  /\ (forall options : Combined.Options,
        exists vw kw bw : Q,
          ~ (vw == 0)%Q /\ ~ (kw == 0)%Q /\ ~ (bw == 0)%Q
          /\ combined options
             = Combined.query embedding contentType topK pattern queryText
                 vw kw bw table).
Proof.
  intros Hw hybrid combined pattern.
  assert (Hnz : forall o d, Qeq_bool d 0 = false -> ~ (or_default o d == 0)%Q).
  { intros o d Hd E. apply Qeq_bool_iff in E.
    rewrite (or_default_not_zero o d Hd) in E. discriminate. }
  unfold hybrid, combined, Hybrid.search, Combined.search.
  cbn [Hybrid.vectorWeight Hybrid.keywordWeight Combined.vectorWeight
       Combined.keywordWeight Combined.bm25Weight].
  rewrite !(or_default_zero w _ Hw).
  split; [intros o; split; reflexivity |].
  split; [intros o1 o2; repeat split; reflexivity |].
  split; [reflexivity |]. split; [reflexivity |]. split.
  - intros options.
    exists (or_default (Hybrid.vectorWeight options) (7 # 10)),
      (or_default (Hybrid.keywordWeight options) (3 # 10)).
    split; [apply Hnz; reflexivity |]. split; [apply Hnz; reflexivity |].
    reflexivity.
  - intros options.
    exists (or_default (Combined.vectorWeight options) (5 # 10)),
      (or_default (Combined.keywordWeight options) (3 # 10)),
      (or_default (Combined.bm25Weight options) (2 # 10)).
    split; [apply Hnz; reflexivity |]. split; [apply Hnz; reflexivity |].
    split; [apply Hnz; reflexivity |]. reflexivity.
Qed.

Lemma zero_weight_is_default_witness :
  @Combined.search Fixtures.unit_operators [1; 0]%Q "zone temp"
    "text-embedding-3-small" "xeto" 2 Fixtures.sensors
    {| Combined.vectorWeight := Some 0%Q;
       Combined.keywordWeight := Some 0%Q;
       Combined.bm25Weight := Some 0%Q |}
  = @Combined.query Fixtures.unit_operators [1; 0]%Q "xeto" 2
      (Keywords.keywordPattern "zone temp") "zone temp" (5 # 10) (3 # 10)
      (2 # 10) Fixtures.sensors.
Proof.
  apply (@zero_weight_is_default Fixtures.unit_operators [1; 0]%Q "zone temp"
           "text-embedding-3-small" "xeto" 2 Fixtures.sensors 0%Q).
  reflexivity.
Defined.

(** ** Combined strategy *)

Section LikeFacts.

Lemma like_percent (text : string) : Sql.like "%" text = true.
Proof.
  induction text as [|c text IH]; [reflexivity |].
  cbn in IH |- *. exact IH.
Qed.

Lemma like_plain_prefix (p text : string) :
  plain p = true -> Sql.like (p +:+ "%") text = starts_with text p.
Proof.
  revert text. induction p as [|c p IH]; intros text Hp.
  - apply like_percent.
  - cbn in Hp. rewrite !andb_true_iff, !negb_true_iff in Hp.
    destruct Hp as [[[H1 H2] H3] Hp].
    change (String c p +:+ "%") with (String c (p +:+ "%")).
    cbn [Sql.like]. rewrite H1, H2, H3.
    destruct text as [|x text]; [reflexivity |].
    cbn [starts_with]. rewrite (IH text Hp). reflexivity.
Qed.

Lemma like_contains (p text : string) :
  plain p = true -> Sql.like ("%" +:+ p +:+ "%") text = includes text p.
Proof.
  intros Hp. change ("%" +:+ p +:+ "%") with (String "%" (p +:+ "%")).
  cbn [Sql.like]. change (Ascii.eqb "%" "%") with true. cbv iota.
  induction text as [|x text IH].
  - rewrite (like_plain_prefix p _ Hp). reflexivity.
  - rewrite (like_plain_prefix p _ Hp). cbn [includes].
    rewrite <- IH. reflexivity.
Qed.

Lemma toLowerCase_app (a b : string) :
  toLowerCase (a +:+ b) = toLowerCase a +:+ toLowerCase b.
Proof.
  induction a as [|c a IH]; [reflexivity |].
  change (String c a +:+ b) with (String c (a +:+ b)).
  cbn [toLowerCase]. rewrite IH. reflexivity.
Qed.

Lemma lower_char_plain (c : ascii) :
  negb (Ascii.eqb c "%") && negb (Ascii.eqb c "_")
  && negb (Ascii.eqb c "\") = true ->
  negb (Ascii.eqb (lower_char c) "%") && negb (Ascii.eqb (lower_char c) "_")
  && negb (Ascii.eqb (lower_char c) "\") = true.
Proof.
  destruct c as [[] [] [] [] [] [] [] []]; vm_compute; intros E; exact E.
Qed.

Lemma toLowerCase_plain (q : string) :
  plain q = true -> plain (toLowerCase q) = true.
Proof.
  induction q as [|c q IH]; [reflexivity |].
  cbn [plain toLowerCase]. rewrite !andb_true_iff.
  intros [[[H1 H2] H3] Hq]. rewrite <- !andb_true_iff.
  rewrite (IH Hq), andb_true_r. apply lower_char_plain.
  rewrite H1, H2, H3. reflexivity.
Qed.

(** For a query text without metacharacters the boost test of the Combined
    query is the substring test without regard to case. *)
Lemma ilike_contains (content queryText : string) :
  plain queryText = true ->
  Sql.ilike content ("%" +:+ queryText +:+ "%")
  = includes (toLowerCase content) (toLowerCase queryText).
Proof.
  intros Hq. unfold Sql.ilike. rewrite !toLowerCase_app.
  change (toLowerCase "%") with "%".
  apply like_contains, toLowerCase_plain, Hq.
Qed.

End LikeFacts.

Section CombinedFacts.
Context `{Operators}.

Lemma select_all_elem {A B : Type} (f : A -> option B) (l : list A)
    (rows : list B) (c : B) :
  select_all f l = Some rows -> c ∈ rows ->
  exists a : A, a ∈ l /\ f a = Some c.
Proof.
  revert rows. induction l as [|a l IH]; intros rows; simpl.
  - intros E. injection E as <-. rewrite elem_of_nil. tauto.
  - destruct (f a) as [b|] eqn:Hb; [| discriminate].
    destruct (select_all f l) as [bs|]; [| discriminate].
    intros E. injection E as <-. rewrite elem_of_cons.
    intros [-> | Hc].
    + exists a. split; [apply list_elem_of_here | exact Hb].
    + destruct (IH bs eq_refl Hc) as [a' [Ha' Hf]].
      exists a'. split; [apply list_elem_of_further, Ha' | exact Hf].
Qed.

Lemma select_all_total {A B : Type} (f : A -> option B) (l : list A) :
  (forall a, is_Some (f a)) -> is_Some (select_all f l).
Proof.
  intros Hf. induction l as [|a l IH]; simpl; [eexists; reflexivity |].
  destruct (Hf a) as [b ->]. destruct IH as [bs ->]. eexists; reflexivity.
Qed.

Lemma div_Some (a b q : Q) :
  Sql.div a b = Some q -> ~ (b == 0)%Q /\ q = (a / b)%Q.
Proof.
  unfold Sql.div. destruct (Qeq_bool b 0) eqn:Hb; [discriminate |].
  intros E. injection E as <-. split; [| reflexivity].
  intros E. apply Qeq_bool_iff in E. congruence.
Qed.

(** Every candidate of the Combined query has the weighted sum of its three
    scores, times the factor of the boost, as its final score. *)
Lemma combined_query_score (embedding : vector) (contentType : string)
    (topK : nat) (pattern queryText : string) (vw kw bw : Q)
    (table : list Document) (rows : list Combined.Candidate) :
  Combined.query embedding contentType topK pattern queryText vw kw bw table
  = Some rows ->
  Forall
    (fun c =>
       (Combined.similarity c
        == boost (content (Combined.doc c)) queryText
           * (Combined.vectorSimilarity c * vw
              + Combined.keywordSimilarity c * kw
              + Combined.bm25Similarity c * bw))%Q)
    rows.
Proof.
  unfold Combined.query. intros Hq.
  destruct (select_all _ _) as [all|] eqn:Hall; [| discriminate].
  injection Hq as <-. apply Forall_forall. intros c Hc.
  apply elem_of_limit in Hc. rewrite order_by_Permutation in Hc.
  destruct (select_all_elem _ _ _ _ Hall Hc) as [br [Hbr Hsel]].
  unfold Combined.phrase_boosted in Hbr.
  apply list_elem_of_In, in_map_iff in Hbr. destruct Hbr as [r [<- Hr]].
  unfold Combined.combined_results in Hr.
  apply in_map_iff in Hr. destruct Hr as [j [<- _]].
  unfold Combined.select_row in Hsel. cbn in Hsel.
  destruct (Sql.div _ vw) as [vs|] eqn:Hv; [| discriminate].
  destruct (Sql.div _ kw) as [ks|] eqn:Hk; [| discriminate].
  destruct (Sql.div _ bw) as [bs|] eqn:Hb; [| discriminate].
  injection Hsel as <-. cbn.
  apply div_Some in Hv as [Hv ->]. apply div_Some in Hk as [Hk ->].
  apply div_Some in Hb as [Hb ->].
  unfold boost. destruct (Sql.ilike _ _); field; auto.
Qed.

(** The Combined call never fails, and for a query text without
    metacharacters the final score of a candidate is 1.2 times the weighted
    sum when the content contains the query text without regard to case,
    and the weighted sum otherwise. *)
Lemma combined_score_plain_query (embedding : vector)
    (queryText embeddingModel contentType : string) (topK : nat)
    (table : list Document) (options : Combined.Options) :
  plain queryText = true ->
  let vw := or_default (Combined.vectorWeight options) (5 # 10) in
  let kw := or_default (Combined.keywordWeight options) (3 # 10) in
  let bw := or_default (Combined.bm25Weight options) (2 # 10) in
  exists rows : list Combined.Candidate,
    Combined.search embedding queryText embeddingModel contentType topK table
      options = Some rows
    /\ Forall
         (fun c =>
            let sum :=
              (Combined.vectorSimilarity c * vw
               + Combined.keywordSimilarity c * kw
               + Combined.bm25Similarity c * bw)%Q in
            if includes (toLowerCase (content (Combined.doc c)))
                 (toLowerCase queryText)
            then (Combined.similarity c == (12 # 10) * sum)%Q
            else (Combined.similarity c == sum)%Q)
         rows.
Proof.
  intros Hplain vw kw bw. unfold Combined.search. fold vw kw bw.
  destruct (Combined.query embedding contentType topK
              (Keywords.join " | " (Keywords.extractKeywords queryText))
              queryText vw kw bw table) as [rows|] eqn:Hq.
  - exists rows. split; [reflexivity |].
    apply combined_query_score in Hq.
    eapply Forall_impl; [exact Hq |]. intros c Hc. cbn beta zeta.
    unfold boost in Hc. rewrite (ilike_contains _ _ Hplain) in Hc.
    destruct (includes _ _); [exact Hc |]. rewrite Hc. ring.
  - exfalso. unfold Combined.query in Hq.
    destruct (select_all_total
                (Combined.select_row vw kw bw)
                (Combined.phrase_boosted queryText
                   (Combined.combined_results vw kw bw
                      (Combined.vk_join
                         (vector_results 3 embedding contentType topK table)
                         (keyword_results 3
                            (Keywords.join " | "
                               (Keywords.extractKeywords queryText))
                            contentType topK table))
                      (bm25_results queryText contentType topK table))))
      as [all Hall].
    + intros br. unfold Combined.select_row.
      rewrite !div_not_zero by (apply or_default_not_zero; reflexivity).
      eexists; reflexivity.
    + rewrite Hall in Hq. discriminate.
Qed.

End CombinedFacts.

(** C1 on two inputs with LIKE metacharacters in the query text. The
    document ["Economizer at 100 percent outside air"] does not contain the
    query ["100% outside air"], yet its final score is 1.2 times the
    weighted sum 53/100, since [%] in the query acts as a wildcard of
    [ILIKE]. The document ["Use the a\b escape"] contains the query ["a\b"],
    yet its final score is the weighted sum 1/2 itself, since the backslash
    acts as the escape character. *)
Theorem combined_boost_on_like_metacharacters :
  let search (queryText : string) :=
    @Combined.search Fixtures.unit_operators [1; 0]%Q queryText
      "text-embedding-3-small" "xeto" 1 Fixtures.economizer
      Combined.no_options in
  let search2 (queryText : string) :=
    @Combined.search Fixtures.unit_operators [1; 0]%Q queryText
      "text-embedding-3-small" "xeto" 2 Fixtures.economizer
      Combined.no_options in
  includes (toLowerCase "Economizer at 100 percent outside air")
    (toLowerCase "100% outside air") = false
  /\ option_map (map summary) (search "100% outside air")
     = Some [(1%Z, 1, 1 # 10, 0, 159 # 250)%Q]
  /\ Qred (1 * (5 # 10) + (1 # 10) * (3 # 10) + 0 * (2 # 10)) = (53 # 100)%Q
  /\ Qred ((53 # 100) * (12 # 10)) = (159 # 250)%Q
  /\ includes (toLowerCase "Use the a\b escape") (toLowerCase "a\b") = true
  /\ option_map (map summary) (search2 "a\b")
     = Some [(1%Z, 1, 0, 0, 1 # 2)%Q; (2%Z, 1, 0, 0, 1 # 2)%Q]
  /\ Qred (1 * (5 # 10) + 0 * (3 # 10) + 0 * (2 # 10)) = (1 # 2)%Q.
Proof. repeat split; vm_compute; reflexivity. Qed.

(** ** The orchestrator's guard *)

Section BenchmarkFacts.
Import Benchmark.
Context {R : Type}.
Variable benchmarkQuery :
  Query -> string -> string -> string -> string -> nat -> string + R.

Lemma getEmbeddingDimension_supported (model : string) (dimension : nat) :
  getEmbeddingDimension model = Some dimension ->
  dimension ∈ [768; 1536; 3072]%nat
  /\ tableName dimension
     ∈ ["documents_768"; "documents_1536"; "documents_3072"].
Proof.
  unfold getEmbeddingDimension.
  repeat match goal with |- context [if ?b then _ else _] => destruct b end;
    intros E; inversion E; subst; split; vm_compute;
    repeat (first [apply list_elem_of_here | apply list_elem_of_further]).
Qed.

Lemma fold_left_invariant {S X : Type} (P : S -> Prop) (f : S -> X -> S)
    (l : list X) (s : S) :
  (forall s x, P s -> P (f s x)) -> P s -> P (fold_left f l s).
Proof.
  intros Hf. revert s. induction l as [|x l IH]; intros s Hs; simpl.
  - exact Hs.
  - apply IH, Hf, Hs.
Qed.

Lemma embedding_turn_guarded (testQueries : list Query)
    (contentTypes : list string) (searchStrategy llmModel : string)
    (topK : nat) (st : State) (embeddingModel : string) :
  all_guarded st ->
  all_guarded
    (embedding_turn benchmarkQuery testQueries contentTypes searchStrategy
       llmModel topK st embeddingModel).
Proof.
  intros Hst. unfold embedding_turn.
  destruct (getEmbeddingDimension embeddingModel) as [[|n]|] eqn:Hdim.
  - apply getEmbeddingDimension_supported in Hdim as [Hd _].
    rewrite !elem_of_cons, elem_of_nil in Hd.
    destruct Hd as [Hd | [Hd | [Hd | []]]]; discriminate.
  - apply fold_left_invariant; [| exact Hst].
    intros s1 contentType Hs1. unfold content_turn.
    apply fold_left_invariant; [| exact Hs1].
    intros s2 query Hs2. unfold all_guarded, query_turn. simpl.
    apply Forall_app. split; [exact Hs2 |].
    constructor; [| constructor]. simpl. exists (S n).
    split; [exact Hdim |].
    exact (getEmbeddingDimension_supported _ _ Hdim).
  - unfold all_guarded. simpl. apply Forall_app. split; [exact Hst |].
    constructor; [| constructor]. simpl. exists embeddingModel.
    split; [exact Hdim | reflexivity].
Qed.

Lemma runBenchmark_guarded (searchStrategies llmModels embeddingModels
    contentTypes : list string) (topK : nat) (testQueries : list Query) :
  all_guarded
    (runBenchmark benchmarkQuery searchStrategies llmModels embeddingModels
       contentTypes topK testQueries).
Proof.
  unfold runBenchmark.
  apply fold_left_invariant; [| constructor].
  intros s1 searchStrategy Hs1. unfold strategy_turn.
  apply fold_left_invariant; [| exact Hs1].
  intros s2 llmModel Hs2. unfold llm_turn.
  apply fold_left_invariant; [| exact Hs2].
  intros s3 embeddingModel Hs3. apply embedding_turn_guarded, Hs3.
Qed.
End BenchmarkFacts.

Section BuilderFacts.
Context {Row : Type}.
Variable provider_api :
  string -> list string -> string -> nat -> string + Builder.EmbeddingResult.
Variable executeQuery :
  string -> vector -> string -> Builder.Options -> string + list Row.

Lemma select_table_unsupported (dimensions : nat) :
  dimensions ∉ [768; 1536; 3072]%nat ->
  Builder.select_table dimensions
  = Builder.throw ("Unsupported embedding dimensions: " +:+ pretty dimensions).
Proof.
  intros Hd. unfold Builder.select_table.
  rewrite !not_elem_of_cons in Hd. destruct Hd as [H1 [H2 [H3 _]]].
  apply Nat.eqb_neq in H1, H2, H3. rewrite H1, H2, H3. reflexivity.
Qed.

(** The query function throws on an unsupported width after the embedding
    request and before any query of the store. *)
Lemma query_unsupported_width (queryText provider model : string)
    (options : Builder.Options) (answer : Builder.EmbeddingResult)
    (queryEmbedding : vector) (rest : list vector) :
  provider ∈ ["openai"; "gemini"] ->
  provider_api provider [queryText] model 1 = inr answer ->
  Builder.success answer = true ->
  Builder.embeddings answer = Some (queryEmbedding :: rest) ->
  length queryEmbedding ∉ [768; 1536; 3072]%nat ->
  Builder.queryMultiDimensionPostgresDatabase provider_api executeQuery
    queryText provider model options
  = ([Builder.EmbeddingRequest provider model [queryText]],
     inl ("Unsupported embedding dimensions: "
          +:+ pretty (length queryEmbedding))).
Proof.
  intros Hp Hapi Hs He Hlen.
  unfold Builder.queryMultiDimensionPostgresDatabase,
    Builder.generateEmbeddings.
  replace (String.eqb provider "openai" || String.eqb provider "gemini")
    with true.
  - cbn. rewrite Hapi. cbn. rewrite Hs, He.
    rewrite (select_table_unsupported _ Hlen). reflexivity.
  - rewrite !elem_of_cons, elem_of_nil in Hp.
    destruct Hp as [-> | [-> | []]]; reflexivity.
Qed.
End BuilderFacts.

(** C8, as the code has it. For an embedding model that has none of the
    supported widths, the orchestrator writes a console message and goes on
    to the next model: it runs no retrieval for it, so no document-store
    query, and records no error; every retrieval it runs is for a model of
    width 768, 1536 or 3072, on the table of that width. The stand-alone
    query of the database builder throws [Unsupported embedding dimensions]
    for a query embedding of another width, before any query of the
    store. *)
Theorem unsupported_width_handling {R Row : Type}
    (benchmarkQuery :
       Benchmark.Query -> string -> string -> string -> string -> nat ->
       string + R)
    (searchStrategies llmModels embeddingModels contentTypes : list string)
    (searchStrategy llmModel embeddingModel : string) (topK : nat)
    (testQueries : list Benchmark.Query) (st : Benchmark.State)
    (provider_api :
       string -> list string -> string -> nat ->
       string + Builder.EmbeddingResult)
    (executeQuery :
       string -> vector -> string -> Builder.Options -> string + list Row)
    (queryText provider model : string) (options : Builder.Options)
    (answer : Builder.EmbeddingResult) (queryEmbedding : vector)
    (rest : list vector) :
  Benchmark.getEmbeddingDimension embeddingModel = None ->
  provider ∈ ["openai"; "gemini"] ->
  provider_api provider [queryText] model 1 = inr answer ->
  Builder.success answer = true ->
  Builder.embeddings answer = Some (queryEmbedding :: rest) ->
  length queryEmbedding ∉ [768; 1536; 3072]%nat ->
  Benchmark.embedding_turn benchmarkQuery testQueries contentTypes
    searchStrategy llmModel topK st embeddingModel
  = (st.1 ++ [Benchmark.ConsoleLog
                ("Skipping " +:+ embeddingModel
                 +:+ " - dimension not supported")],
     st.2)
  /\ Forall guarded
       (Benchmark.runBenchmark benchmarkQuery searchStrategies llmModels
          embeddingModels contentTypes topK testQueries).1
  /\ Builder.queryMultiDimensionPostgresDatabase provider_api executeQuery
       queryText provider model options
     = ([Builder.EmbeddingRequest provider model [queryText]],
        inl ("Unsupported embedding dimensions: "
             +:+ pretty (length queryEmbedding))).
Proof.
  intros Hdim Hp Hapi Hs He Hlen. split; [| split].
  - unfold Benchmark.embedding_turn. rewrite Hdim. reflexivity.
  - apply runBenchmark_guarded.
  - exact (query_unsupported_width provider_api executeQuery queryText
             provider model options answer queryEmbedding rest Hp Hapi Hs He
             Hlen).
Qed.

Lemma unsupported_width_handling_witness :
  Benchmark.getEmbeddingDimension "all-MiniLM-L6-v2" = None
  /\ Benchmark.embedding_turn Fixtures.never_called [Fixtures.co2_query]
       ["xeto"] "vector-search" "gpt-4.1-mini" 5 ([], []) "all-MiniLM-L6-v2"
     = ([Benchmark.ConsoleLog
           "Skipping all-MiniLM-L6-v2 - dimension not supported"], [])
  /\ Builder.queryMultiDimensionPostgresDatabase Fixtures.four_wide
       Fixtures.no_rows "What is Co2Sensor?" "openai" "all-MiniLM-L6-v2"
       Builder.default_options
     = ([Builder.EmbeddingRequest "openai" "all-MiniLM-L6-v2"
           ["What is Co2Sensor?"]],
        inl "Unsupported embedding dimensions: 4").
Proof.
  split; [vm_compute; reflexivity |].
  assert (H := @unsupported_width_handling unit unit Fixtures.never_called
    ["vector-search"] ["gpt-4.1-mini"] ["all-MiniLM-L6-v2"] ["xeto"]
    "vector-search" "gpt-4.1-mini" "all-MiniLM-L6-v2" 5 [Fixtures.co2_query]
    ([], []) Fixtures.four_wide Fixtures.no_rows "What is Co2Sensor?" "openai"
    "all-MiniLM-L6-v2" Builder.default_options
    {| Builder.success := true;
       Builder.embeddings := Some [[1; 0; 0; 0]%Q] |}
    [1; 0; 0; 0]%Q []).
  destruct H as [H1 [_ H3]].
  - vm_compute. reflexivity.
  - apply list_elem_of_here.
  - reflexivity.
  - reflexivity.
  - reflexivity.
  - apply (bool_decide_unpack _). vm_compute. exact I.
  - split; [exact H1 | exact H3].
Defined.

(** C8 as stated fails: a run over an embedding model without a supported
    width raises and records no error; it ends with the console message
    alone, and an empty list of results. *)
Lemma unsupported_model_raises_nothing :
  Benchmark.getEmbeddingDimension "all-MiniLM-L6-v2" = None
  /\ Benchmark.runBenchmark Fixtures.never_called
       ["vector-search"] ["gpt-4.1-mini"] ["all-MiniLM-L6-v2"] ["xeto"] 5
       [Fixtures.co2_query]
     = ([Benchmark.ConsoleLog
           "Skipping all-MiniLM-L6-v2 - dimension not supported"], []).
Proof. split; vm_compute; reflexivity. Qed.

(** ** Evaluations *)

Example split_keeps_empty_ends :
  split is_space "  a b " = [""; "a"; "b"; ""].
Proof. reflexivity. Qed.

Example grader_plain_match :
  Grader.countKeywordMatches
    (Some "The pressure sensor reads in Pa.")
    (Some ["pressure"; "voltage"]) = 1.
Proof. vm_compute. reflexivity. Qed.

Example keyword_pattern_of_query :
  Keywords.keywordPattern
    "What is the difference between Co2Point and Co2Sensor?"
  = "what | difference | between | co2point | co2sensor".
Proof. vm_compute. reflexivity. Qed.

Example ilike_ignores_case :
  Sql.ilike "The Co2Sensor spec" "%co2sensor%" = true.
Proof. vm_compute. reflexivity. Qed.

Example ilike_underscore_is_wildcard : Sql.ilike "axb" "%a_b%" = true.
Proof. vm_compute. reflexivity. Qed.

Example ilike_escaped_underscore : Sql.ilike "axb" "%a\_b%" = false.
Proof. vm_compute. reflexivity. Qed.

Example order_by_desc_is_stable :
  Sql.order_by (Sql.desc (fun x : nat * Q => x.2))
    [(1%nat, 1 # 2); (2%nat, 3 # 4); (3%nat, 1 # 2)]%Q
  = [(2%nat, 3 # 4); (1%nat, 1 # 2); (3%nat, 1 # 2)]%Q.
Proof. vm_compute. reflexivity. Qed.

Example supported_dimensions :
  map Benchmark.getEmbeddingDimension
    ["text-embedding-3-small"; "text-embedding-3-large";
     "gemini-embedding-001"; "text-embedding-004"; "embedding-001"]
  = [Some 1536; Some 3072; Some 768; Some 1536; None]%nat.
Proof. vm_compute. reflexivity. Qed.

Example vector_round_trip :
  map (fun c : Vector.Candidate =>
         (id (Vector.doc c), Qred (Vector.similarity c)))
    (@Vector.search Fixtures.unit_operators [1; 0]%Q "text-embedding-3-small"
       "xeto" 2 Fixtures.sensors)
  = [(1%Z, 1%Q); (2%Z, (24 # 25)%Q)].
Proof. vm_compute. reflexivity. Qed.

Example hybrid_default_ranking :
  option_map
    (map (fun c : Hybrid.Candidate =>
            (id (Hybrid.doc c), Qred (Hybrid.similarity c))))
    (@Hybrid.search Fixtures.unit_operators [1; 0]%Q "zone temp"
       "text-embedding-3-small" "xeto" 2 Fixtures.sensors Hybrid.no_options)
  = Some [(2%Z, (351 # 500)%Q); (1%Z, (7 # 10)%Q)].
Proof. vm_compute. reflexivity. Qed.

(** * Further properties *)

(** ** Rows of ordered, limited and joined queries *)

Section RowFacts.
Context {A B : Type}.

Lemma StronglySorted_weaken (R1 R2 : relation A) (l : list A) :
  (forall x y, R1 x y -> R2 x y) ->
  StronglySorted R1 l -> StronglySorted R2 l.
Proof.
  intros HR Hl. rewrite <- (map_id l).
  exact (StronglySorted_map (fun x => x) R1 R2 l HR Hl).
Qed.

Lemma order_limit_descending (key : A -> Q) (n : nat) (l : list A) :
  StronglySorted (fun a b => (key b <= key a)%Q)
    (Sql.limit n (Sql.order_by (Sql.desc key) l)).
Proof.
  apply StronglySorted_limit.
  apply (StronglySorted_weaken (before (Sql.desc key))).
  - intros x y Hxy. apply Qle_bool_iff. exact Hxy.
  - apply order_by_StronglySorted; [apply desc_total | apply desc_trans].
Qed.

Lemma elem_of_order_limit (le : A -> A -> bool) (n : nat) (l : list A)
    (x : A) :
  x ∈ Sql.limit n (Sql.order_by le l) -> x ∈ l.
Proof.
  intros Hx. apply elem_of_limit in Hx.
  rewrite order_by_Permutation in Hx. exact Hx.
Qed.

Lemma limit_sublist (n : nat) (l : list A) : Sql.limit n l `sublist_of` l.
Proof. apply sublist_take. Qed.

Lemma List_filter_sublist (f : A -> bool) (l : list A) :
  List.filter f l `sublist_of` l.
Proof.
  induction l as [|x l IH]; simpl; [constructor |].
  destruct (f x); [apply sublist_skip | apply sublist_cons]; exact IH.
Qed.

Lemma map_sublist (f : A -> B) (l k : list A) :
  l `sublist_of` k -> map f l `sublist_of` map f k.
Proof. exact (fmap_sublist f l k). Qed.

Lemma map_Permutation (f : A -> B) (l k : list A) :
  l ≡ₚ k -> map f l ≡ₚ map f k.
Proof. exact (Permutation_map f (l := l) (l' := k)). Qed.

(** Ordering, limiting and filtering keep a key without repetition. *)
Lemma NoDup_order_limit (f : A -> B) (le : A -> A -> bool) (n : nat)
    (l : list A) :
  NoDup (map f l) -> NoDup (map f (Sql.limit n (Sql.order_by le l))).
Proof.
  intros Hl.
  refine (sublist_NoDup _ _ _ (map_sublist f _ _ (limit_sublist n _))).
  rewrite (map_Permutation f _ _ (order_by_Permutation le l)). exact Hl.
Qed.

Lemma NoDup_List_filter (f : A -> B) (p : A -> bool) (l : list A) :
  NoDup (map f l) -> NoDup (map f (List.filter p l)).
Proof.
  intros Hl.
  exact (sublist_NoDup _ _ Hl (map_sublist f _ _ (List_filter_sublist p l))).
Qed.

Lemma NoDup_map_eq (f : A -> B) (l : list A) (x y : A) :
  NoDup (map f l) -> x ∈ l -> y ∈ l -> f x = f y -> x = y.
Proof.
  induction l as [|z l IH]; simpl; intros Hl Hx Hy Hf.
  - apply elem_of_nil in Hx. contradiction.
  - apply NoDup_cons in Hl as [Hz Hl].
    apply elem_of_cons in Hx as [-> | Hx];
      apply elem_of_cons in Hy as [-> | Hy].
    + reflexivity.
    + exfalso. apply Hz. rewrite Hf.
      apply list_elem_of_In, in_map, list_elem_of_In, Hy.
    + exfalso. apply Hz. rewrite <- Hf.
      apply list_elem_of_In, in_map, list_elem_of_In, Hx.
    + exact (IH Hl Hx Hy Hf).
Qed.
End RowFacts.

Section JoinFacts.
Context {A B : Type} (ida : A -> Z) (idb : B -> Z).

(** Both sides of a joined row come from the operands, with the same
    identifier. *)
Lemma full_outer_join_elem (l : list A) (r : list B)
    (j : Sql.joined A B) :
  j ∈ Sql.full_outer_join ida idb l r ->
  match j with
  | Sql.Both a b => a ∈ l /\ b ∈ r /\ ida a = idb b
  | Sql.LeftOnly a => a ∈ l
  | Sql.RightOnly b => b ∈ r
  end.
Proof.
  unfold Sql.full_outer_join. rewrite elem_of_app. intros [Hj | Hj].
  - apply list_elem_of_In, in_flat_map in Hj. destruct Hj as [a [Ha Hj]].
    apply list_elem_of_In in Ha.
    destruct (List.filter _ r) as [|b0 bs] eqn:Hf.
    + destruct Hj as [<- | []]. exact Ha.
    + apply in_map_iff in Hj. destruct Hj as [b [<- Hb]].
      rewrite <- Hf in Hb. apply filter_In in Hb as [Hb Hid].
      apply Z.eqb_eq in Hid. apply list_elem_of_In in Hb. auto.
  - apply list_elem_of_In, in_map_iff in Hj. destruct Hj as [b [<- Hb]].
    apply filter_In in Hb as [Hb _]. apply list_elem_of_In, Hb.
Qed.

Lemma filter_id_unique (x : Z) (r : list B) :
  NoDup (map idb r) ->
  length (List.filter (fun b => Z.eqb x (idb b)) r) <= 1.
Proof.
  induction r as [|b r IH]; simpl; intros Hr; [lia |].
  apply NoDup_cons in Hr as [Hb Hr].
  destruct (Z.eqb x (idb b)) eqn:E; [| exact (IH Hr)].
  apply Z.eqb_eq in E. subst x.
  replace (List.filter _ r) with (@nil B); [simpl; lia |].
  symmetry. clear IH Hr.
  induction r as [|c r IH]; simpl in *; [reflexivity |].
  rewrite not_elem_of_cons in Hb. destruct Hb as [Hne Hb].
  destruct (Z.eqb (idb b) (idb c)) eqn:E; [| exact (IH Hb)].
  apply Z.eqb_eq in E. congruence.
Qed.

(** The identifiers of the joined rows: those of the left operand, then
    those of the right operand that the left one lacks. *)
Lemma full_outer_join_ids (l : list A) (r : list B) :
  NoDup (map idb r) ->
  map (joined_id ida idb) (Sql.full_outer_join ida idb l r)
  = map ida l
    ++ map idb
         (List.filter
            (fun b => negb (existsb (fun a => Z.eqb (ida a) (idb b)) l)) r).
Proof.
  intros Hr. unfold Sql.full_outer_join.
  rewrite map_app, map_map. f_equal.
  induction l as [|a l IH]; [reflexivity |].
  cbn [flat_map]. rewrite map_app, IH. cbn [map app].
  change (ida a :: map ida l) with ([ida a] ++ map ida l). f_equal.
  pose proof (filter_id_unique (ida a) r Hr) as Hlen.
  destruct (List.filter _ r) as [|b [|b' bs]]; simpl in *;
    [reflexivity | reflexivity | lia].
Qed.

Lemma full_outer_join_NoDup (l : list A) (r : list B) :
  NoDup (map ida l) -> NoDup (map idb r) ->
  NoDup (map (joined_id ida idb) (Sql.full_outer_join ida idb l r)).
Proof.
  intros Hl Hr. rewrite (full_outer_join_ids l r Hr).
  apply NoDup_app. split; [exact Hl |]. split.
  - intros x Hx Hx'.
    apply list_elem_of_In, in_map_iff in Hx. destruct Hx as [a [<- Ha]].
    apply list_elem_of_In, in_map_iff in Hx'. destruct Hx' as [b [Hid Hb]].
    apply filter_In in Hb as [_ Hb]. apply negb_true_iff in Hb.
    assert (existsb (fun a => Z.eqb (ida a) (idb b)) l = true) as E.
    { apply existsb_exists. exists a. split; [exact Ha |].
      apply Z.eqb_eq. congruence. }
    congruence.
  - apply NoDup_List_filter, Hr.
Qed.
End JoinFacts.

(** ** Hybrid strategy: every call *)

Section HybridCalls.
Context `{Operators}.

Lemma select_all_map {A B : Type} (f : A -> option B) (g : A -> B)
    (l : list A) :
  (forall a, f a = Some (g a)) -> select_all f l = Some (map g l).
Proof.
  intros Hf. induction l as [|a l IH]; simpl; [reflexivity |].
  rewrite Hf, IH. reflexivity.
Qed.

Lemma hybrid_select_row (vw kw : Q) (r : Hybrid.CombinedRow) :
  Qeq_bool vw 0 = false -> Qeq_bool kw 0 = false ->
  Hybrid.select_row vw kw r = Some (hybrid_candidate vw kw r).
Proof.
  intros Hv Hk. unfold Hybrid.select_row.
  rewrite !div_not_zero by assumption. reflexivity.
Qed.

(** The call as one expression: no division can fail, since the weights
    that reach the query are not zero. *)
Lemma hybrid_search_rows (embedding : vector)
    (queryText embeddingModel contentType : string) (topK : nat)
    (table : list Document) (options : Hybrid.Options) :
  let vw := or_default (Hybrid.vectorWeight options) (7 # 10) in
  let kw := or_default (Hybrid.keywordWeight options) (3 # 10) in
  Hybrid.search embedding queryText embeddingModel contentType topK table
    options
  = Some (Sql.limit topK
            (Sql.order_by (Sql.desc Hybrid.similarity)
               (map (hybrid_candidate vw kw)
                  (Hybrid.combined_results vw kw
                     (vector_results 2 embedding contentType topK table)
                     (keyword_results 2 (Keywords.keywordPattern queryText)
                        contentType topK table))))).
Proof.
  intros vw kw. unfold Hybrid.search, Hybrid.query. fold vw kw.
  rewrite (select_all_map _ (hybrid_candidate vw kw)); [reflexivity |].
  intros r. apply hybrid_select_row; apply or_default_not_zero; reflexivity.
Qed.

Lemma vector_results_elem (n : nat) (embedding : vector)
    (contentType : string) (topK : nat) (table : list Document)
    (a : VectorRow) :
  a ∈ vector_results n embedding contentType topK table ->
  exists d : Document,
    d ∈ table /\ content_type d = contentType
    /\ v_columns a = columns d
    /\ vector_similarity a
       = (1 - cosine_distance (Store.embedding d) embedding)%Q.
Proof.
  unfold vector_results. intros Ha.
  apply list_elem_of_In, in_map_iff in Ha. destruct Ha as [d [<- Hd]].
  apply list_elem_of_In, elem_of_order_limit, elem_of_List_filter in Hd.
  destruct Hd as [Hd Hct]. apply String.eqb_eq in Hct.
  exists d. auto.
Qed.

Lemma keyword_results_elem (n : nat) (pattern contentType : string)
    (topK : nat) (table : list Document) (b : KeywordRow) :
  b ∈ keyword_results n pattern contentType topK table ->
  exists d : Document,
    d ∈ table /\ content_type d = contentType
    /\ ts_match (content d) pattern = true
    /\ k_columns b = columns d
    /\ keyword_similarity b = ts_rank_cd (content d) pattern.
Proof.
  unfold keyword_results. intros Hb.
  apply elem_of_order_limit, list_elem_of_In, in_map_iff in Hb.
  destruct Hb as [d [<- Hd]].
  apply list_elem_of_In, elem_of_List_filter in Hd.
  destruct Hd as [Hd Hct]. apply andb_true_iff in Hct as [Hct Hm].
  apply String.eqb_eq in Hct. exists d. auto.
Qed.

Lemma vector_results_NoDup (n : nat) (embedding : vector)
    (contentType : string) (topK : nat) (table : list Document) :
  NoDup (map (fun d : Document => id d) table) ->
  NoDup (map (fun a : VectorRow => id a)
           (vector_results n embedding contentType topK table)).
Proof.
  intros Ht. unfold vector_results. rewrite map_map. cbn [v_columns].
  apply (NoDup_order_limit (fun d : Document => id d)).
  apply NoDup_List_filter, Ht.
Qed.

Lemma keyword_results_NoDup (n : nat) (pattern contentType : string)
    (topK : nat) (table : list Document) :
  NoDup (map (fun d : Document => id d) table) ->
  NoDup (map (fun b : KeywordRow => id b)
           (keyword_results n pattern contentType topK table)).
Proof.
  intros Ht. unfold keyword_results.
  apply (NoDup_order_limit (fun b : KeywordRow => id b)).
  rewrite map_map. cbn [k_columns]. apply NoDup_List_filter, Ht.
Qed.

Lemma joined_columns_id {A B : Type} (ca : A -> Columns) (cb : B -> Columns)
    (j : Sql.joined A B) :
  id (joined_columns ca cb j)
  = joined_id (fun a => id (ca a)) (fun b => id (cb b)) j.
Proof. destruct j; reflexivity. Qed.

Lemma coalesce_same {A : Type} (a : option A) : Sql.coalesce a a = a.
Proof. destruct a; reflexivity. Qed.

(** The columns of a row joined from two rows of the same document. *)
Lemma joined_columns_same {A B : Type} (ca : A -> Columns)
    (cb : B -> Columns) (a : A) (b : B) :
  ca a = cb b -> joined_columns ca cb (Sql.Both a b) = ca a.
Proof.
  intros E. cbn [joined_columns]. rewrite <- E, !coalesce_same.
  destruct (ca a). reflexivity.
Qed.

Lemma document_of_id (table : list Document) (d1 d2 : Document) :
  NoDup (map (fun d : Document => id d) table) ->
  d1 ∈ table -> d2 ∈ table -> id d1 = id d2 -> d1 = d2.
Proof. exact (NoDup_map_eq (fun d : Document => id d) table d1 d2). Qed.
End HybridCalls.

(** X1. Whatever the options, the Hybrid call succeeds: no division by a
    weight can fail. It returns at most [topK] candidates, in descending
    order of their final score. *)
Theorem hybrid_search_total `{Operators} (embedding : vector)
    (queryText embeddingModel contentType : string) (topK : nat)
    (table : list Document) (options : Hybrid.Options) :
  exists rows : list Hybrid.Candidate,
    Hybrid.search embedding queryText embeddingModel contentType topK table
      options = Some rows
    /\ (length rows <= topK)%nat
    /\ StronglySorted
         (fun a b => (Hybrid.similarity b <= Hybrid.similarity a)%Q) rows.
Proof.
  eexists. split; [apply hybrid_search_rows |]. split.
  - apply firstn_le_length.
  - apply order_limit_descending.
Qed.

(** X2. The final score of every Hybrid candidate is the weighted sum of
    the two scores it reports, with the weights in effect. *)
Theorem hybrid_score_is_weighted_sum `{Operators} (embedding : vector)
    (queryText embeddingModel contentType : string) (topK : nat)
    (table : list Document) (options : Hybrid.Options) :
  let vw := or_default (Hybrid.vectorWeight options) (7 # 10) in
  let kw := or_default (Hybrid.keywordWeight options) (3 # 10) in
  exists rows : list Hybrid.Candidate,
    Hybrid.search embedding queryText embeddingModel contentType topK table
      options = Some rows
    /\ Forall
         (fun c =>
            (Hybrid.similarity c
             == Hybrid.vectorSimilarity c * vw
                + Hybrid.keywordSimilarity c * kw)%Q)
         rows.
Proof.
  intros vw kw. eexists. split; [apply hybrid_search_rows |].
  fold vw kw. apply Forall_forall. intros c Hc.
  apply elem_of_order_limit, list_elem_of_In, in_map_iff in Hc.
  destruct Hc as [r [<- Hr]].
  unfold Hybrid.combined_results in Hr. apply in_map_iff in Hr.
  destruct Hr as [j [<- _]]. cbn.
  assert (Hv : ~ (vw == 0)%Q).
  { intros E. apply Qeq_bool_iff in E. unfold vw in E.
    rewrite or_default_not_zero in E by reflexivity. discriminate. }
  assert (Hk : ~ (kw == 0)%Q).
  { intros E. apply Qeq_bool_iff in E. unfold kw in E.
    rewrite or_default_not_zero in E by reflexivity. discriminate. }
  field. auto.
Qed.

(** X3. A Hybrid candidate is always one of the [2 * topK] rows of the
    vector branch or of the [2 * topK] rows of the keyword branch: a
    document outside both pools is never returned. *)
Theorem hybrid_candidates_from_pools `{Operators} (embedding : vector)
    (queryText embeddingModel contentType : string) (topK : nat)
    (table : list Document) (options : Hybrid.Options) :
  exists rows : list Hybrid.Candidate,
    Hybrid.search embedding queryText embeddingModel contentType topK table
      options = Some rows
    /\ Forall
         (fun c =>
            id (Hybrid.doc c)
              ∈ map (fun a : VectorRow => id a)
                  (vector_results 2 embedding contentType topK table)
            \/ id (Hybrid.doc c)
                 ∈ map (fun b : KeywordRow => id b)
                     (keyword_results 2 (Keywords.keywordPattern queryText)
                        contentType topK table))
         rows.
Proof.
  eexists. split; [apply hybrid_search_rows |].
  apply Forall_forall. intros c Hc.
  apply elem_of_order_limit, list_elem_of_In, in_map_iff in Hc.
  destruct Hc as [r [<- Hr]].
  unfold Hybrid.combined_results in Hr. apply in_map_iff in Hr.
  destruct Hr as [j [<- Hj]]. cbn [Hybrid.doc hybrid_candidate Hybrid.c_columns].
  apply list_elem_of_In, full_outer_join_elem in Hj.
  destruct j as [a b | a | b]; cbn [joined_columns].
  - left. destruct Hj as [Ha _].
    apply list_elem_of_In, (in_map (fun a : VectorRow => id a)),
      list_elem_of_In, Ha.
  - left. apply list_elem_of_In, (in_map (fun a : VectorRow => id a)),
      list_elem_of_In, Hj.
  - right. apply list_elem_of_In, (in_map (fun b : KeywordRow => id b)),
      list_elem_of_In, Hj.
Qed.

(** X4. When the identifiers of the table are distinct, no document is
    returned twice by the Hybrid call, and every candidate carries the
    columns of a row of the table that has the requested content type. *)
Theorem hybrid_candidates_are_rows `{Operators} (embedding : vector)
    (queryText embeddingModel contentType : string) (topK : nat)
    (table : list Document) (options : Hybrid.Options) :
  NoDup (map (fun d : Document => id d) table) ->
  exists rows : list Hybrid.Candidate,
    Hybrid.search embedding queryText embeddingModel contentType topK table
      options = Some rows
    /\ NoDup (map (fun c => id (Hybrid.doc c)) rows)
    /\ Forall
         (fun c =>
            exists d : Document,
              d ∈ table /\ content_type d = contentType
              /\ Hybrid.doc c = columns d)
         rows.
Proof.
  intros Ht. eexists. split; [apply hybrid_search_rows |]. split.
  - apply (NoDup_order_limit (fun c => id (Hybrid.doc c))).
    rewrite map_map. unfold Hybrid.combined_results. rewrite map_map.
    cbn [Hybrid.doc hybrid_candidate Hybrid.c_columns].
    rewrite (map_ext _ _ (joined_columns_id v_columns k_columns)).
    apply full_outer_join_NoDup;
      [apply vector_results_NoDup | apply keyword_results_NoDup]; exact Ht.
  - apply Forall_forall. intros c Hc.
    apply elem_of_order_limit, list_elem_of_In, in_map_iff in Hc.
    destruct Hc as [r [<- Hr]].
    unfold Hybrid.combined_results in Hr. apply in_map_iff in Hr.
    destruct Hr as [j [<- Hj]].
    cbn [Hybrid.doc hybrid_candidate Hybrid.c_columns].
    apply list_elem_of_In, full_outer_join_elem in Hj.
    destruct j as [a b | a | b].
    + destruct Hj as [Ha [Hb Hid]].
      apply vector_results_elem in Ha as [d1 [Hd1 [Hc1 [Ea _]]]].
      apply keyword_results_elem in Hb as [d2 [Hd2 [_ [_ [Eb _]]]]].
      rewrite Ea, Eb in Hid.
      pose proof (document_of_id table d1 d2 Ht Hd1 Hd2 Hid) as <-.
      exists d1. split; [exact Hd1 |]. split; [exact Hc1 |].
      rewrite joined_columns_same; [exact Ea | congruence].
    + apply vector_results_elem in Hj as [d [Hd [Hct [Ea _]]]].
      exists d. auto.
    + apply keyword_results_elem in Hj as [d [Hd [Hct [_ [Eb _]]]]].
      exists d. auto.
Qed.

Lemma hybrid_candidates_are_rows_witness :
  NoDup (map (fun d : Document => id d) Fixtures.sensors)
  /\ exists rows : list Hybrid.Candidate,
       @Hybrid.search Fixtures.unit_operators [1; 0]%Q "zone temp"
         "text-embedding-3-small" "xeto" 2 Fixtures.sensors Hybrid.no_options
       = Some rows
       /\ NoDup (map (fun c => id (Hybrid.doc c)) rows).
Proof.
  assert (Ht : NoDup (map (fun d : Document => id d) Fixtures.sensors)).
  { apply (bool_decide_unpack _). vm_compute. exact I. }
  split; [exact Ht |].
  destruct (@hybrid_candidates_are_rows Fixtures.unit_operators [1; 0]%Q
              "zone temp" "text-embedding-3-small" "xeto" 2 Fixtures.sensors
              Hybrid.no_options Ht) as [rows [Hs [Hn _]]].
  exists rows. split; [exact Hs | exact Hn].
Defined.

(** ** Combined strategy: every call *)

Section CombinedCalls.
Context `{Operators}.

Lemma combined_select_row (vw kw bw : Q) (r : Combined.BoostedRow) :
  Qeq_bool vw 0 = false -> Qeq_bool kw 0 = false -> Qeq_bool bw 0 = false ->
  Combined.select_row vw kw bw r = Some (combined_candidate vw kw bw r).
Proof.
  intros Hv Hk Hb. unfold Combined.select_row.
  rewrite !div_not_zero by assumption. reflexivity.
Qed.

Lemma combined_search_rows (embedding : vector)
    (queryText embeddingModel contentType : string) (topK : nat)
    (table : list Document) (options : Combined.Options) :
  let vw := or_default (Combined.vectorWeight options) (5 # 10) in
  let kw := or_default (Combined.keywordWeight options) (3 # 10) in
  let bw := or_default (Combined.bm25Weight options) (2 # 10) in
  Combined.search embedding queryText embeddingModel contentType topK table
    options
  = Some (Sql.limit topK
            (Sql.order_by (Sql.desc Combined.similarity)
               (map (combined_candidate vw kw bw)
                  (Combined.phrase_boosted queryText
                     (Combined.combined_results vw kw bw
                        (Combined.vk_join
                           (vector_results 3 embedding contentType topK table)
                           (keyword_results 3
                              (Keywords.keywordPattern queryText) contentType
                              topK table))
                        (bm25_results queryText contentType topK table)))))).
Proof.
  intros vw kw bw. unfold Combined.search, Combined.query. fold vw kw bw.
  rewrite (select_all_map _ (combined_candidate vw kw bw)); [reflexivity |].
  intros r.
  apply combined_select_row; apply or_default_not_zero; reflexivity.
Qed.

Lemma bm25_results_elem (queryText contentType : string) (topK : nat)
    (table : list Document) (b : Bm25Row) :
  b ∈ bm25_results queryText contentType topK table ->
  exists d : Document,
    d ∈ table /\ content_type d = contentType /\ b_columns b = columns d.
Proof.
  unfold bm25_results. intros Hb.
  apply elem_of_order_limit, list_elem_of_In, in_map_iff in Hb.
  destruct Hb as [d [<- Hd]].
  apply list_elem_of_In, elem_of_List_filter in Hd.
  destruct Hd as [Hd Hct]. apply String.eqb_eq in Hct. exists d. auto.
Qed.

Lemma bm25_results_NoDup (queryText contentType : string) (topK : nat)
    (table : list Document) :
  NoDup (map (fun d : Document => id d) table) ->
  NoDup (map (fun b : Bm25Row => id b)
           (bm25_results queryText contentType topK table)).
Proof.
  intros Ht. unfold bm25_results.
  apply (NoDup_order_limit (fun b : Bm25Row => id b)).
  rewrite map_map. cbn [b_columns]. apply NoDup_List_filter, Ht.
Qed.

Lemma vk_join_NoDup (n : nat) (embedding : vector)
    (pattern contentType : string) (topK : nat) (table : list Document) :
  NoDup (map (fun d : Document => id d) table) ->
  NoDup (map (fun vk => id (Combined.vk_columns vk))
           (Combined.vk_join
              (vector_results n embedding contentType topK table)
              (keyword_results n pattern contentType topK table))).
Proof.
  intros Ht. unfold Combined.vk_join. rewrite map_map.
  cbn [Combined.vk_columns].
  rewrite (map_ext _ _ (joined_columns_id v_columns k_columns)).
  apply full_outer_join_NoDup;
    [apply vector_results_NoDup | apply keyword_results_NoDup]; exact Ht.
Qed.

Lemma vk_join_elem (n : nat) (embedding : vector)
    (pattern contentType : string) (topK : nat) (table : list Document)
    (vk : Combined.VkRow) :
  NoDup (map (fun d : Document => id d) table) ->
  vk ∈ Combined.vk_join (vector_results n embedding contentType topK table)
         (keyword_results n pattern contentType topK table) ->
  exists d : Document,
    d ∈ table /\ content_type d = contentType
    /\ Combined.vk_columns vk = columns d.
Proof.
  intros Ht Hvk. unfold Combined.vk_join in Hvk.
  apply list_elem_of_In, in_map_iff in Hvk. destruct Hvk as [j [<- Hj]].
  cbn [Combined.vk_columns].
  apply list_elem_of_In, full_outer_join_elem in Hj.
  destruct j as [a b | a | b].
  - destruct Hj as [Ha [Hb Hid]].
    apply vector_results_elem in Ha as [d1 [Hd1 [Hc1 [Ea _]]]].
    apply keyword_results_elem in Hb as [d2 [Hd2 [_ [_ [Eb _]]]]].
    rewrite Ea, Eb in Hid.
    pose proof (document_of_id table d1 d2 Ht Hd1 Hd2 Hid) as <-.
    exists d1. split; [exact Hd1 |]. split; [exact Hc1 |].
    rewrite joined_columns_same; [exact Ea | congruence].
  - apply vector_results_elem in Hj as [d [Hd [Hct [Ea _]]]].
    exists d. auto.
  - apply keyword_results_elem in Hj as [d [Hd [Hct [_ [Eb _]]]]].
    exists d. auto.
Qed.
End CombinedCalls.

(** X5. Whatever the options, the Combined call succeeds: no division by a
    weight can fail. It returns at most [topK] candidates, in descending
    order of their final score. *)
Theorem combined_search_total `{Operators} (embedding : vector)
    (queryText embeddingModel contentType : string) (topK : nat)
    (table : list Document) (options : Combined.Options) :
  exists rows : list Combined.Candidate,
    Combined.search embedding queryText embeddingModel contentType topK table
      options = Some rows
    /\ (length rows <= topK)%nat
    /\ StronglySorted
         (fun a b => (Combined.similarity b <= Combined.similarity a)%Q)
         rows.
Proof.
  eexists. split; [apply combined_search_rows |]. split.
  - apply firstn_le_length.
  - apply order_limit_descending.
Qed.

(** X6. The final score of every Combined candidate is the weighted sum of
    the three scores it reports, times 1.2 when the content matches the
    pattern [%queryText%] of [ILIKE] and times 1 otherwise. *)
Theorem combined_score_is_boosted_sum `{Operators} (embedding : vector)
    (queryText embeddingModel contentType : string) (topK : nat)
    (table : list Document) (options : Combined.Options) :
  let vw := or_default (Combined.vectorWeight options) (5 # 10) in
  let kw := or_default (Combined.keywordWeight options) (3 # 10) in
  let bw := or_default (Combined.bm25Weight options) (2 # 10) in
  exists rows : list Combined.Candidate,
    Combined.search embedding queryText embeddingModel contentType topK table
      options = Some rows
    /\ Forall
         (fun c =>
            (Combined.similarity c
             == boost (content (Combined.doc c)) queryText
                * (Combined.vectorSimilarity c * vw
                   + Combined.keywordSimilarity c * kw
                   + Combined.bm25Similarity c * bw))%Q)
         rows.
Proof.
  intros vw kw bw. eexists. split; [apply combined_search_rows |].
  fold vw kw bw.
  apply (combined_query_score embedding contentType topK
           (Keywords.keywordPattern queryText) queryText vw kw bw table).
  unfold Combined.query.
  rewrite (select_all_map _ (combined_candidate vw kw bw)); [reflexivity |].
  intros r.
  apply combined_select_row; apply or_default_not_zero; reflexivity.
Qed.

(** X7. For a query text without [%], [_] or backslash, the phrase boost
    of the Combined call is a plain substring test: a candidate whose
    content contains the query text, without regard to case, scores 1.2
    times the weighted sum of its three similarities, and any other
    candidate scores the weighted sum. *)
Theorem combined_boost_is_substring_test `{Operators} (embedding : vector)
    (queryText embeddingModel contentType : string) (topK : nat)
    (table : list Document) (options : Combined.Options) :
  plain queryText = true ->
  exists rows : list Combined.Candidate,
    Combined.search embedding queryText embeddingModel contentType topK table
      options = Some rows
    /\ Forall
         (fun c =>
            let sum :=
              (Combined.vectorSimilarity c
                 * or_default (Combined.vectorWeight options) (5 # 10)
               + Combined.keywordSimilarity c
                 * or_default (Combined.keywordWeight options) (3 # 10)
               + Combined.bm25Similarity c
                 * or_default (Combined.bm25Weight options) (2 # 10))%Q in
            (Combined.similarity c
             == (if occurs (content (Combined.doc c)) queryText
                 then (12 # 10) * sum else sum))%Q)
         rows.
Proof.
  intros Hplain.
  destruct (combined_score_plain_query embedding queryText embeddingModel
              contentType topK table options Hplain) as [rows [Hs Hrows]].
  exists rows. split; [exact Hs |].
  eapply Forall_impl; [exact Hrows |]. intros c Hc. cbn beta zeta in *.
  unfold occurs. destruct (includes _ _); exact Hc.
Qed.

Lemma combined_boost_is_substring_test_witness :
  plain "Co2Sensor" = true
  /\ exists rows : list Combined.Candidate,
       @Combined.search Fixtures.unit_operators [1; 0]%Q "Co2Sensor"
         "text-embedding-3-small" "xeto" 2 Fixtures.sensors
         Combined.no_options = Some rows.
Proof.
  split; [reflexivity |].
  destruct (@combined_boost_is_substring_test Fixtures.unit_operators
              [1; 0]%Q "Co2Sensor" "text-embedding-3-small" "xeto" 2
              Fixtures.sensors Combined.no_options eq_refl)
    as [rows [Hs _]].
  exists rows. exact Hs.
Defined.

(** X8. When the identifiers of the table are distinct, no document is
    returned twice by the Combined call, and every candidate carries the
    columns of a row of the table that has the requested content type. *)
Theorem combined_candidates_are_rows `{Operators} (embedding : vector)
    (queryText embeddingModel contentType : string) (topK : nat)
    (table : list Document) (options : Combined.Options) :
  NoDup (map (fun d : Document => id d) table) ->
  exists rows : list Combined.Candidate,
    Combined.search embedding queryText embeddingModel contentType topK table
      options = Some rows
    /\ NoDup (map (fun c => id (Combined.doc c)) rows)
    /\ Forall
         (fun c =>
            exists d : Document,
              d ∈ table /\ content_type d = contentType
              /\ Combined.doc c = columns d)
         rows.
Proof.
  intros Ht. eexists. split; [apply combined_search_rows |]. split.
  - apply (NoDup_order_limit (fun c => id (Combined.doc c))).
    rewrite map_map. unfold Combined.phrase_boosted. rewrite map_map.
    unfold Combined.combined_results. rewrite map_map.
    cbn [Combined.doc combined_candidate Combined.c_columns Combined.cr].
    rewrite (map_ext _ _
               (joined_columns_id Combined.vk_columns b_columns)).
    apply full_outer_join_NoDup;
      [apply vk_join_NoDup | apply bm25_results_NoDup]; exact Ht.
  - apply Forall_forall. intros c Hc.
    apply elem_of_order_limit, list_elem_of_In, in_map_iff in Hc.
    destruct Hc as [br [<- Hbr]].
    unfold Combined.phrase_boosted in Hbr. apply in_map_iff in Hbr.
    destruct Hbr as [r [<- Hr]].
    unfold Combined.combined_results in Hr. apply in_map_iff in Hr.
    destruct Hr as [j [<- Hj]].
    cbn [Combined.doc combined_candidate Combined.c_columns Combined.cr].
    apply list_elem_of_In, full_outer_join_elem in Hj.
    destruct j as [a b | a | b].
    + destruct Hj as [Ha [Hb Hid]].
      apply (vk_join_elem _ _ _ _ _ _ _ Ht) in Ha as [d1 [Hd1 [Hc1 Ea]]].
      apply bm25_results_elem in Hb as [d2 [Hd2 [_ Eb]]].
      rewrite Ea, Eb in Hid.
      pose proof (document_of_id table d1 d2 Ht Hd1 Hd2 Hid) as <-.
      exists d1. split; [exact Hd1 |]. split; [exact Hc1 |].
      rewrite joined_columns_same; [exact Ea | congruence].
    + apply (vk_join_elem _ _ _ _ _ _ _ Ht) in Hj as [d [Hd [Hct Ea]]].
      exists d. auto.
    + apply bm25_results_elem in Hj as [d [Hd [Hct Eb]]].
      exists d. auto.
Qed.

Lemma combined_candidates_are_rows_witness :
  NoDup (map (fun d : Document => id d) Fixtures.sensors)
  /\ exists rows : list Combined.Candidate,
       @Combined.search Fixtures.unit_operators [1; 0]%Q "zone temp"
         "text-embedding-3-small" "xeto" 2 Fixtures.sensors
         Combined.no_options = Some rows
       /\ NoDup (map (fun c => id (Combined.doc c)) rows).
Proof.
  assert (Ht : NoDup (map (fun d : Document => id d) Fixtures.sensors)).
  { apply (bool_decide_unpack _). vm_compute. exact I. }
  split; [exact Ht |].
  destruct (@combined_candidates_are_rows Fixtures.unit_operators [1; 0]%Q
              "zone temp" "text-embedding-3-small" "xeto" 2 Fixtures.sensors
              Combined.no_options Ht) as [rows [Hs [Hn _]]].
  exists rows. split; [exact Hs | exact Hn].
Defined.

(** ** Vector strategy: the limit *)

(** X9. The Vector call returns [topK] candidates or, when there are
    fewer, as many as there are rows of the requested content type; with
    a [topK] that is at least that number, all of these rows are returned.
    When these rows are at distinct distances of the query embedding, so
    that no order is left to the store, raising [topK] only appends
    candidates: the result for a smaller [topK] is the front of the result
    for a larger one, and it is made of the first [topK] rows of every
    order by distance that the store may give. *)
Theorem vector_search_prefix `{Operators} (embedding : vector)
    (embeddingModel contentType : string) (topK more : nat)
    (table : list Document) :
  length (Vector.search embedding embeddingModel contentType topK table)
  = Nat.min topK (length (of_type contentType table))
  /\ map Vector.doc
       (Vector.search embedding embeddingModel contentType
          (length (of_type contentType table) + more) table)
     ≡ₚ map columns (of_type contentType table)
  /\ (Ties.distinct_distances embedding contentType table ->
      Vector.search embedding embeddingModel contentType topK table
      = Sql.limit topK
          (Vector.search embedding embeddingModel contentType (topK + more)
             table)
      /\ forall sorted,
           Ties.ordering (Sql.asc (distance_to embedding))
             (of_type contentType table) sorted ->
           Vector.search embedding embeddingModel contentType topK table
           = map (of_document embedding) (Sql.limit topK sorted)).
Proof.
  rewrite !search_nearest. unfold Sql.limit. split; [| split].
  - rewrite length_map, length_firstn. f_equal. unfold nearest.
    apply Permutation_length, order_by_Permutation.
  - rewrite map_map. cbn [of_document Vector.doc].
    rewrite firstn_all2.
    + apply map_Permutation. apply order_by_Permutation.
    + unfold nearest.
      rewrite (Permutation_length (order_by_Permutation _ _)).
      exact (Nat.le_add_r _ _).
  - intros Hd. split.
    + rewrite firstn_map, firstn_firstn. do 2 f_equal. lia.
    + intros sorted Hsorted.
      rewrite (ordering_nearest embedding contentType table sorted Hd
                 Hsorted).
      reflexivity.
Qed.

Lemma vector_search_prefix_witness :
  @Ties.distinct_distances Fixtures.unit_operators [1; 0]%Q "xeto"
    Fixtures.sensors
  /\ @Vector.search Fixtures.unit_operators [1; 0]%Q
       "text-embedding-3-small" "xeto" 1 Fixtures.sensors
     = Sql.limit 1
         (@Vector.search Fixtures.unit_operators [1; 0]%Q
            "text-embedding-3-small" "xeto" (1 + 2) Fixtures.sensors).
Proof.
  assert (Hd : @Ties.distinct_distances Fixtures.unit_operators [1; 0]%Q
                 "xeto" Fixtures.sensors)
    by (apply no_tiesb_spec; vm_compute; reflexivity).
  split; [exact Hd |].
  exact (proj1 (proj2 (proj2
    (@vector_search_prefix Fixtures.unit_operators [1; 0]%Q
       "text-embedding-3-small" "xeto" 1 2 Fixtures.sensors)) Hd)).
Defined.

(** ** The keyword extractor: shape of the keywords *)

Section KeywordShape.

Lemma all_chars_append (p : ascii -> bool) (a b : string) :
  all_chars p (a +:+ b) = all_chars p a && all_chars p b.
Proof.
  induction a as [|x a IH]; [reflexivity |].
  rewrite append_cons. cbn [all_chars]. rewrite IH, andb_assoc. reflexivity.
Qed.

Lemma all_chars_snoc (p : ascii -> bool) (cur : string) (c : ascii) :
  all_chars p cur = true -> p c = true -> all_chars p (snoc cur c) = true.
Proof.
  intros Hcur Hc. unfold snoc. rewrite all_chars_append, Hcur.
  cbn [all_chars]. rewrite Hc. reflexivity.
Qed.

Lemma runs_go_all_chars (p : ascii -> bool) (s cur w : string) :
  all_chars p cur = true ->
  all_chars (fun c => p c || is_space c) s = true ->
  w ∈ KeywordSpec.runs_go cur s -> all_chars p w = true.
Proof.
  revert cur. induction s as [|c s IH]; intros cur Hcur Hs; cbn.
  - destruct (decide (cur = EmptyString)).
    + rewrite elem_of_nil. tauto.
    + rewrite elem_of_cons, elem_of_nil. intros [-> | []]. exact Hcur.
  - cbn [all_chars] in Hs. apply andb_true_iff in Hs as [Hc Hs].
    destruct (is_space c) eqn:Hsp.
    + destruct (decide (cur = EmptyString)).
      * apply (IH EmptyString); [reflexivity | exact Hs].
      * rewrite elem_of_cons. intros [-> | Hw]; [exact Hcur |].
        apply (IH EmptyString); [reflexivity | exact Hs | exact Hw].
    + rewrite orb_false_r in Hc.
      apply IH; [apply all_chars_snoc; assumption | exact Hs].
Qed.

Lemma lower_char_kept (c : ascii) :
  is_word (lower_char c) || is_space (lower_char c) = true ->
  is_lower_word (lower_char c) || is_space (lower_char c) = true.
Proof.
  destruct c as [[] [] [] [] [] [] [] []]; vm_compute; intros E; exact E.
Qed.

Lemma strip_lowercase_chars (text : string) :
  all_chars (fun c => is_lower_word c || is_space c)
    (KeywordSpec.strip (KeywordSpec.lowercase text)) = true.
Proof.
  unfold KeywordSpec.strip, KeywordSpec.lowercase.
  induction text as [|c text IH]; [reflexivity |].
  cbn [toLowerCase remove_not].
  destruct (is_word (lower_char c) || is_space (lower_char c)) eqn:E;
    [| exact IH].
  cbn [all_chars]. rewrite IH, andb_true_r. apply lower_char_kept, E.
Qed.
End KeywordShape.

(** The shape of the keywords and of the pattern built from them. *)
Lemma keywords_shape (text : string) :
  Forall
    (fun w =>
       all_chars is_lower_word w = true
       /\ (3 <= String.length w)%nat
       /\ w ∉ Keywords.stopWords)
    (Keywords.extractKeywords text)
  /\ all_chars (fun c => is_lower_word c || Ascii.eqb c " " || Ascii.eqb c "|")
       (Keywords.keywordPattern text) = true.
Proof.
  assert (Hall : Forall
    (fun w => all_chars is_lower_word w = true
              /\ (3 <= String.length w)%nat /\ w ∉ Keywords.stopWords)
    (Keywords.extractKeywords text)).
  { apply Forall_forall. intros w Hw.
    apply extractKeywords_elem in Hw as [Hw [Hshort Hstop]]. split; [| split].
    - apply (runs_go_all_chars is_lower_word _ EmptyString w eq_refl
               (strip_lowercase_chars text) Hw).
    - unfold KeywordSpec.short in Hshort. lia.
    - exact Hstop. }
  split; [exact Hall |].
  unfold Keywords.keywordPattern.
  induction Hall as [|w ws [Hw _] _ IH]; [reflexivity |].
  assert (Hw' : all_chars
    (fun c => is_lower_word c || Ascii.eqb c " " || Ascii.eqb c "|") w = true).
  { clear -Hw. induction w as [|c w IHw]; [reflexivity |].
    cbn [all_chars] in *. apply andb_true_iff in Hw as [Hc Hw].
    rewrite Hc, (IHw Hw). reflexivity. }
  destruct ws as [|w2 ws]; [exact Hw' |].
  change (Keywords.join " | " (w :: w2 :: ws))
    with (w +:+ " | " +:+ Keywords.join " | " (w2 :: ws)).
  rewrite !all_chars_append, Hw', IH. reflexivity.
Qed.

(** X10. Every keyword the extractor returns is made of the characters
    [a-z], [0-9] and [_] only, has at least three of them and is no stop
    word; so the pattern built from the keywords holds nothing but such
    words, blanks and [|]. *)
Theorem keywords_are_plain_words (text : string) :
  Forall
    (fun w =>
       all_chars is_lower_word w = true
       /\ (3 <= String.length w)%nat
       /\ w ∉ Keywords.stopWords)
    (Keywords.extractKeywords text)
  /\ all_chars (fun c => is_lower_word c || Ascii.eqb c " " || Ascii.eqb c "|")
       (Keywords.keywordPattern text) = true.
Proof. exact (keywords_shape text). Qed.

(** ** The keyword extractor on its own output *)

Section KeywordRoundTrip.

Lemma all_chars_impl (p q : ascii -> bool) (s : string) :
  (forall c, p c = true -> q c = true) ->
  all_chars p s = true -> all_chars q s = true.
Proof.
  intros Hpq. induction s as [|c s IH]; [reflexivity |].
  cbn [all_chars]. rewrite !andb_true_iff. intros [Hc Hs].
  split; [apply Hpq, Hc | apply IH, Hs].
Qed.

Lemma toLowerCase_fixed (s : string) :
  all_chars (fun c => negb (is_upper c)) s = true -> toLowerCase s = s.
Proof.
  induction s as [|c s IH]; [reflexivity |].
  cbn [all_chars toLowerCase]. rewrite andb_true_iff, negb_true_iff.
  intros [Hc Hs]. rewrite (IH Hs). unfold lower_char. rewrite Hc.
  reflexivity.
Qed.

Lemma remove_not_append (keep : ascii -> bool) (a b : string) :
  remove_not keep (a +:+ b) = remove_not keep a +:+ remove_not keep b.
Proof.
  induction a as [|c a IH]; [reflexivity |].
  rewrite append_cons. cbn [remove_not]. rewrite IH.
  destruct (keep c); reflexivity.
Qed.

Lemma remove_not_fixed (keep : ascii -> bool) (s : string) :
  all_chars keep s = true -> remove_not keep s = s.
Proof.
  induction s as [|c s IH]; [reflexivity |].
  cbn [all_chars remove_not]. rewrite andb_true_iff. intros [Hc Hs].
  rewrite Hc, (IH Hs). reflexivity.
Qed.

Lemma is_lower_word_facts (c : ascii) :
  is_lower_word c = true ->
  is_upper c = false /\ is_space c = false /\ is_word c = true.
Proof.
  destruct c as [[] [] [] [] [] [] [] []]; vm_compute; intros E;
    first [discriminate E | repeat split].
Qed.

Lemma split_go_word (w cur rest : string) (b : bool) :
  no_space w = true -> w <> EmptyString ->
  split_go is_space b cur (w +:+ rest)
  = split_go is_space false (cur +:+ w) rest.
Proof.
  revert cur b. induction w as [|c w IH]; intros cur b Hw Hne;
    [contradiction |].
  cbn [no_space] in Hw. apply andb_true_iff in Hw as [Hc Hw].
  apply negb_true_iff in Hc.
  rewrite append_cons. cbn [split_go]. rewrite Hc.
  destruct w as [|c2 w].
  - reflexivity.
  - rewrite (IH (snoc cur c) false Hw) by discriminate.
    rewrite snoc_append. reflexivity.
Qed.

Lemma split_go_join (ws : list string) (b : bool) :
  Forall (fun w => no_space w = true /\ w <> EmptyString) ws ->
  ws <> [] ->
  split_go is_space b EmptyString (Keywords.join "  " ws) = ws.
Proof.
  intros Hws. revert b. induction Hws as [|w ws [Hw Hne] Hws IH];
    intros b Hnil; [contradiction |].
  destruct ws as [|w2 ws].
  - cbn [Keywords.join]. rewrite <- (append_nil_r w) at 1.
    rewrite (split_go_word w EmptyString EmptyString b Hw Hne).
    reflexivity.
  - change (Keywords.join "  " (w :: w2 :: ws))
      with (w +:+ "  " +:+ Keywords.join "  " (w2 :: ws)).
    rewrite (split_go_word w EmptyString _ b Hw Hne).
    change (EmptyString +:+ w) with w.
    change (split_go is_space false w
              ("  " +:+ Keywords.join "  " (w2 :: ws)))
      with (w :: split_go is_space true EmptyString
                   (Keywords.join "  " (w2 :: ws))).
    rewrite IH by discriminate. reflexivity.
Qed.

Lemma strip_pattern (ws : list string) :
  Forall (fun w => all_chars is_lower_word w = true) ws ->
  remove_not (fun c => is_word c || is_space c) (Keywords.join " | " ws)
  = Keywords.join "  " ws.
Proof.
  induction 1 as [|w ws Hw Hws IH]; [reflexivity |].
  assert (Hk : remove_not (fun c => is_word c || is_space c) w = w).
  { apply remove_not_fixed. revert Hw. apply all_chars_impl.
    intros c Hc. apply is_lower_word_facts in Hc as [_ [_ ->]].
    reflexivity. }
  destruct ws as [|w2 ws]; [exact Hk |].
  change (Keywords.join " | " (w :: w2 :: ws))
    with (w +:+ " | " +:+ Keywords.join " | " (w2 :: ws)).
  rewrite !remove_not_append, Hk, IH. reflexivity.
Qed.

Lemma unique_go_fixed (seen ws : list string) :
  NoDup ws -> (forall w, w ∈ ws -> w ∉ seen) -> unique_go seen ws = ws.
Proof.
  intros Hws. revert seen. induction Hws as [|w ws Hw Hws IH];
    intros seen Hseen; [reflexivity |].
  cbn [unique_go]. rewrite bool_decide_eq_false_2
    by (apply Hseen, list_elem_of_here).
  f_equal. apply IH. intros x Hx. rewrite not_elem_of_cons. split.
  - intros ->. contradiction.
  - apply Hseen, list_elem_of_further, Hx.
Qed.

Lemma List_filter_fixed {A : Type} (f : A -> bool) (l : list A) :
  Forall (fun x => f x = true) l -> List.filter f l = l.
Proof.
  induction 1 as [|x l Hx Hl IH]; [reflexivity |].
  simpl. rewrite Hx, IH. reflexivity.
Qed.
End KeywordRoundTrip.

(** X11. The extractor is stable on its own output: extracting the keywords
    of the pattern built from the keywords of a text gives the same
    keywords, in the same order. *)
Theorem extractKeywords_of_pattern (text : string) :
  Keywords.extractKeywords (Keywords.keywordPattern text)
  = Keywords.extractKeywords text.
Proof.
  destruct (keywords_shape text) as [Hws Hpat].
  pose proof (NoDup_unique_go [] (List.filter Keywords.keep_word
    (split is_space (remove_not (fun c => is_word c || is_space c)
       (toLowerCase text))))) as Hnd.
  fold (unique (List.filter Keywords.keep_word
    (split is_space (remove_not (fun c => is_word c || is_space c)
       (toLowerCase text))))) in Hnd.
  fold (Keywords.extractKeywords text) in Hnd.
  unfold Keywords.keywordPattern in *.
  set (ws := Keywords.extractKeywords text) in *.
  destruct (decide (ws = [])) as [-> | Hne]; [reflexivity |].
  unfold Keywords.extractKeywords at 1.
  rewrite toLowerCase_fixed.
  2: { revert Hpat. apply all_chars_impl. intros c Hc.
       destruct c as [[] [] [] [] [] [] [] []]; vm_compute in Hc |- *;
         first [discriminate Hc | reflexivity]. }
  rewrite strip_pattern
    by (eapply Forall_impl; [exact Hws |]; intros w [Hw _]; exact Hw).
  unfold split. rewrite split_go_join; [| | exact Hne].
  - rewrite List_filter_fixed.
    + unfold unique. apply unique_go_fixed; [exact Hnd |].
      intros w _. apply not_elem_of_nil.
    + eapply Forall_impl; [exact Hws |]. intros w [_ [Hlen Hstop]].
      unfold Keywords.keep_word. apply andb_true_iff. split.
      * apply Nat.ltb_lt. lia.
      * apply negb_true_iff, bool_decide_eq_false_2, Hstop.
  - eapply Forall_impl; [exact Hws |]. intros w [Hw [Hlen _]]. split.
    + clear -Hw. induction w as [|c w IH]; [reflexivity |].
      cbn [all_chars no_space] in *. apply andb_true_iff in Hw as [Hc Hw].
      apply is_lower_word_facts in Hc as [_ [-> _]]. exact (IH Hw).
    + intros ->. cbn in Hlen. lia.
Qed.

(** ** The answer grader: case, occurrences and negation *)

Section GraderMore.
Import Grader.

Lemma lower_char_idempotent (c : ascii) :
  lower_char (lower_char c) = lower_char c.
Proof. destruct c as [[] [] [] [] [] [] [] []]; reflexivity. Qed.

Lemma toLowerCase_idempotent (s : string) :
  toLowerCase (toLowerCase s) = toLowerCase s.
Proof.
  induction s as [|c s IH]; [reflexivity |].
  cbn [toLowerCase]. rewrite lower_char_idempotent, IH. reflexivity.
Qed.

Lemma toLowerCase_empty (s : string) :
  String.eqb (toLowerCase s) EmptyString = String.eqb s EmptyString.
Proof. destruct s; reflexivity. Qed.

Lemma negated_keyword_lower (lowerText keyword : string) :
  negated_keyword lowerText (toLowerCase keyword)
  = negated_keyword lowerText keyword.
Proof.
  unfold negated_keyword. rewrite toLowerCase_idempotent. reflexivity.
Qed.

Lemma count_keyword_lower (lowerText : string) (neg : bool) (count : nat)
    (keyword : string) :
  count_keyword lowerText neg count (toLowerCase keyword)
  = count_keyword lowerText neg count keyword.
Proof.
  unfold count_keyword. rewrite toLowerCase_idempotent. reflexivity.
Qed.

Lemma forallb_map {A B : Type} (f : B -> bool) (g : A -> B) (l : list A) :
  forallb f (map g l) = forallb (fun x => f (g x)) l.
Proof.
  induction l as [|x l IH]; [reflexivity |]. simpl. rewrite IH. reflexivity.
Qed.

Lemma forallb_ext_pointwise {A : Type} (f g : A -> bool) (l : list A) :
  (forall x, f x = g x) -> forallb f l = forallb g l.
Proof.
  intros Hfg. induction l as [|x l IH]; [reflexivity |].
  simpl. rewrite Hfg, IH. reflexivity.
Qed.

Lemma fold_left_map {A B C : Type} (f : C -> B -> C) (g : A -> B)
    (l : list A) (c : C) :
  fold_left f (map g l) c = fold_left (fun acc x => f acc (g x)) l c.
Proof.
  revert c. induction l as [|x l IH]; intros c; [reflexivity |].
  simpl. apply IH.
Qed.

Lemma fold_left_ext_pointwise {A C : Type} (f g : C -> A -> C)
    (l : list A) (c : C) :
  (forall acc x, f acc x = g acc x) -> fold_left f l c = fold_left g l c.
Proof.
  intros Hfg. revert c. induction l as [|x l IH]; intros c; [reflexivity |].
  simpl. rewrite Hfg. apply IH.
Qed.

(** The counting loop adds one at most for a keyword that occurs. *)
Lemma count_loop_occurs (text : string) (neg : bool)
    (keywords : list string) (count : nat) :
  (fold_left (count_keyword (toLowerCase text) neg) keywords count
   <= count + length (List.filter (occurs text) keywords))%nat.
Proof.
  revert count. induction keywords as [|k ks IH]; intros count.
  - simpl. lia.
  - cbn [fold_left List.filter].
    specialize (IH (count_keyword (toLowerCase text) neg count k)).
    assert (Hk : (count_keyword (toLowerCase text) neg count k
                  <= count + (if occurs text k then 1 else 0))%nat).
    { unfold count_keyword, occurs.
      destruct (includes (toLowerCase text) (toLowerCase k)); [| lia].
      destruct neg; [| lia].
      destruct (existsb _ _); lia. }
    destruct (occurs text k); cbn [length]; lia.
Qed.

(** Without a negation phrase the loop counts the keywords that occur. *)
Lemma count_loop_plain (text : string) (keywords : list string)
    (count : nat) :
  fold_left (count_keyword (toLowerCase text) false) keywords count
  = (count + length (List.filter (occurs text) keywords))%nat.
Proof.
  revert count. induction keywords as [|k ks IH]; intros count; simpl.
  - lia.
  - rewrite IH. unfold occurs at 2. unfold count_keyword.
    destruct (includes (toLowerCase text) (toLowerCase k)); simpl; lia.
Qed.

Lemma sentence_sep_lower (c : ascii) :
  sentence_sep (lower_char c) = sentence_sep c.
Proof. destruct c as [[] [] [] [] [] [] [] []]; reflexivity. Qed.

Lemma split_go_no_separator (sep : ascii -> bool) (b : bool)
    (cur s : string) :
  all_chars (fun c => negb (sep c)) s = true ->
  split_go sep b cur s = [cur +:+ s].
Proof.
  revert b cur. induction s as [|c s IH]; intros b cur Hs.
  - rewrite append_nil_r. reflexivity.
  - cbn [all_chars] in Hs. apply andb_true_iff in Hs as [Hc Hs].
    apply negb_true_iff in Hc. cbn [split_go]. rewrite Hc.
    rewrite (IH false (snoc cur c) Hs), snoc_append. reflexivity.
Qed.

Lemma toLowerCase_no_separator (s : string) :
  all_chars (fun c => negb (sentence_sep c)) (toLowerCase s)
  = all_chars (fun c => negb (sentence_sep c)) s.
Proof.
  induction s as [|c s IH]; [reflexivity |].
  cbn [toLowerCase all_chars]. rewrite sentence_sep_lower, IH. reflexivity.
Qed.

(** In a response of one sentence that holds a negation phrase the loop
    counts nothing. *)
Lemma count_loop_one_sentence (lowerText : string) (keywords : list string)
    (count : nat) :
  all_chars (fun c => negb (sentence_sep c)) lowerText = true ->
  has_negative lowerText = true ->
  fold_left (count_keyword lowerText true) keywords count = count.
Proof.
  intros Hsep Hneg. revert count.
  induction keywords as [|k ks IH]; intros count; [reflexivity |].
  simpl. rewrite <- (IH count) at 2. f_equal.
  unfold count_keyword, split.
  rewrite (split_go_no_separator _ _ _ _ Hsep).
  change (EmptyString +:+ lowerText) with lowerText.
  destruct (includes lowerText (toLowerCase k)) eqn:Hk; [| reflexivity].
  cbn [List.filter]. rewrite Hk. cbn [existsb]. rewrite Hneg. reflexivity.
Qed.
End GraderMore.

(** X12. The grader disregards case: lowercasing the response and every
    keyword does not change the result. *)
Theorem grader_ignores_case (text : string) (keywords : list string) :
  Grader.countKeywordMatches (Some (toLowerCase text))
    (Some (map toLowerCase keywords))
  = Grader.countKeywordMatches (Some text) (Some keywords).
Proof.
  unfold Grader.countKeywordMatches.
  rewrite toLowerCase_empty, length_map, toLowerCase_idempotent.
  destruct (_ || _); [reflexivity |].
  rewrite forallb_map, fold_left_map.
  rewrite (forallb_ext_pointwise _ _ keywords
             (negated_keyword_lower (toLowerCase text))).
  rewrite (fold_left_ext_pointwise _
             (Grader.count_keyword (toLowerCase text)
                (Grader.has_negative (toLowerCase text))));
    [reflexivity |].
  intros acc k. apply count_keyword_lower.
Qed.

(** X13. When the response is not empty and holds none of the negation
    phrases, the result is the number of expected keywords that occur in
    it, a keyword listed twice counting twice. *)
Theorem grader_counts_occurrences (text : string) (keywords : list string) :
  text <> EmptyString ->
  Grader.has_negative (toLowerCase text) = false ->
  Grader.countKeywordMatches (Some text) (Some keywords)
  = length (List.filter (occurs text) keywords).
Proof.
  intros Ht Hneg. unfold Grader.countKeywordMatches.
  apply String.eqb_neq in Ht. rewrite Ht, Hneg. cbn [orb andb].
  destruct keywords as [|k ks]; [reflexivity |].
  cbn [length Nat.eqb]. rewrite count_loop_plain. reflexivity.
Qed.

Lemma grader_counts_occurrences_witness :
  Grader.countKeywordMatches (Some "The Co2Sensor is an abstract sensor.")
    (Some ["Co2Sensor"; "carbon dioxide"; "sensor"; "abstract"])
  = length
      (List.filter (occurs "The Co2Sensor is an abstract sensor.")
         ["Co2Sensor"; "carbon dioxide"; "sensor"; "abstract"]).
Proof.
  apply grader_counts_occurrences.
  - discriminate.
  - vm_compute. reflexivity.
Defined.

(** X14. A keyword that does not occur in the response is never credited:
    the result is at most the number of expected keywords that occur. *)
Theorem grader_credits_occurrences_only (text : string)
    (keywords : list string) :
  (Grader.countKeywordMatches (Some text) (Some keywords)
   <= length (List.filter (occurs text) keywords))%nat.
Proof.
  unfold Grader.countKeywordMatches.
  destruct (_ || _); [lia |]. destruct (_ && _); [lia |].
  apply (count_loop_occurs text _ keywords 0).
Qed.

(** X15. A response of a single sentence (no [.], [!] or [?]) that holds a
    negation phrase scores 0, whatever the keywords. *)
Theorem grader_one_negative_sentence (text : string)
    (keywords : list string) :
  all_chars (fun c => negb (Grader.sentence_sep c)) text = true ->
  Grader.has_negative (toLowerCase text) = true ->
  Grader.countKeywordMatches (Some text) (Some keywords) = 0.
Proof.
  intros Hsep Hneg. unfold Grader.countKeywordMatches.
  destruct (_ || _); [reflexivity |]. rewrite Hneg.
  destruct (_ && _); [reflexivity |].
  apply count_loop_one_sentence; [| exact Hneg].
  rewrite toLowerCase_no_separator. exact Hsep.
Qed.

Lemma grader_one_negative_sentence_witness :
  Grader.countKeywordMatches
    (Some "The context does not describe zone pressure sensors")
    (Some ["pressure"; "zone"]) = 0.
Proof.
  apply grader_one_negative_sentence; vm_compute; reflexivity.
Defined.

(** ** The loops of the benchmark *)

Section RunsFacts.
Import Benchmark.
Context {R : Type}.
Variable benchmarkQuery :
  Query -> string -> string -> string -> string -> nat -> string + R.
Variable topK : nat.

Lemma calls_app (a b : list Event) :
  Runs.calls (a ++ b) = Runs.calls a ++ Runs.calls b.
Proof. apply List.filter_app. Qed.

Lemma fold_appends {X : Type} (f : State -> X -> State)
    (C : X -> list Runs.Run) (l : list X) :
  Runs.appends benchmarkQuery topK f C ->
  Runs.appends benchmarkQuery topK (fun st (_ : unit) => fold_left f l st)
                   (fun _ => flat_map C l).
Proof.
  intros Hf st _. cbn beta. revert st.
  induction l as [|x l IH]; intros st; cbn [fold_left flat_map].
  - cbn [map]. rewrite !app_nil_r. split; reflexivity.
  - destruct (IH (f st x)) as [Hc He]. destruct (Hf st x) as [Hc1 He1].
    rewrite Hc, He, Hc1, He1, !map_app, !app_assoc. split; reflexivity.
Qed.

Lemma query_turn_appends (searchStrategy llmModel embeddingModel
    contentType : string) :
  Runs.appends benchmarkQuery topK
    (query_turn benchmarkQuery searchStrategy llmModel embeddingModel
       contentType topK)
    (fun q =>
       [{| Runs.query := q; Runs.searchStrategy := searchStrategy;
           Runs.llmModel := llmModel;
           Runs.embeddingModel := embeddingModel;
           Runs.contentType := contentType |}]).
Proof.
  intros st q. unfold query_turn. cbn [fst snd]. rewrite calls_app.
  split; reflexivity.
Qed.

Lemma flat_map_singleton {A B : Type} (f : A -> B) (l : list A) :
  flat_map (fun x => [f x]) l = map f l.
Proof.
  induction l as [|x l IH]; [reflexivity |]. simpl. rewrite IH. reflexivity.
Qed.

Lemma flat_map_filter {A B : Type} (p : A -> bool) (f : A -> list B)
    (l : list A) :
  flat_map (fun x => if p x then f x else []) l
  = flat_map f (List.filter p l).
Proof.
  induction l as [|x l IH]; [reflexivity |]. cbn [flat_map List.filter].
  rewrite IH. destruct (p x); reflexivity.
Qed.

Lemma embedding_turn_appends (testQueries : list Query)
    (contentTypes : list string) (searchStrategy llmModel : string) :
  Runs.appends benchmarkQuery topK
    (embedding_turn benchmarkQuery testQueries contentTypes searchStrategy
       llmModel topK)
    (fun e =>
       if Runs.supported e then
         flat_map (fun c =>
           map (fun q =>
                  {| Runs.query := q; Runs.searchStrategy := searchStrategy;
                     Runs.llmModel := llmModel; Runs.embeddingModel := e;
                     Runs.contentType := c |})
             testQueries)
           contentTypes
       else []).
Proof.
  intros st e. unfold embedding_turn, Runs.supported.
  destruct (getEmbeddingDimension e) as [[|n]|].
  - cbn [fst snd map]. rewrite calls_app, !app_nil_r. split; reflexivity.
  - refine (fold_appends _ _ contentTypes _ st tt).
    intros st' c. unfold content_turn.
    rewrite <- flat_map_singleton.
    exact (fold_appends _ _ testQueries
             (query_turn_appends searchStrategy llmModel e c) st' tt).
  - cbn [fst snd map]. rewrite calls_app, !app_nil_r. split; reflexivity.
Qed.

Lemma runBenchmark_appends (searchStrategies llmModels embeddingModels
    contentTypes : list string) (testQueries : list Query) :
  let st :=
    runBenchmark benchmarkQuery searchStrategies llmModels embeddingModels
      contentTypes topK testQueries in
  let runs :=
    Runs.combinations searchStrategies llmModels embeddingModels
      contentTypes testQueries in
  Runs.calls st.1 = map (Runs.call_of topK) runs
  /\ st.2 = map (Runs.entry_of benchmarkQuery topK) runs.
Proof.
  unfold runBenchmark, Runs.combinations.
  refine (fold_appends _ _ searchStrategies _ ([], []) tt).
  intros st1 s. unfold strategy_turn.
  refine (fold_appends _ _ llmModels _ st1 tt).
  intros st2 l. unfold llm_turn.
  rewrite <- flat_map_filter.
  refine (fold_appends _ _ embeddingModels _ st2 tt).
  apply embedding_turn_appends.
Qed.

Lemma length_flat_map_const {A B : Type} (f : A -> list B) (n : nat)
    (l : list A) :
  (forall x, length (f x) = n) -> length (flat_map f l) = (length l * n)%nat.
Proof.
  intros Hf. induction l as [|x l IH]; [reflexivity |].
  cbn [flat_map length]. rewrite length_app, Hf, IH. lia.
Qed.

Lemma length_combinations (searchStrategies llmModels embeddingModels
    contentTypes : list string) (testQueries : list Query) :
  length (Runs.combinations searchStrategies llmModels embeddingModels
            contentTypes testQueries)
  = (length searchStrategies * (length llmModels
     * (length (List.filter Runs.supported embeddingModels)
        * (length contentTypes * length testQueries))))%nat.
Proof.
  unfold Runs.combinations.
  apply length_flat_map_const. intros s.
  apply length_flat_map_const. intros l.
  apply length_flat_map_const. intros e.
  apply length_flat_map_const. intros c.
  apply length_map.
Qed.
End RunsFacts.

(** X16. The benchmark calls [benchmarkQuery] once for every combination
    of strategy, language model, supported embedding model, content type
    and test query, in the order of the loops, and records one entry per
    call in the same order: the result, or the failure when the call
    throws. A failure never ends the run. *)
Theorem runBenchmark_is_cross_product {R : Type}
    (benchmarkQuery :
       Benchmark.Query -> string -> string -> string -> string -> nat ->
       string + R)
    (searchStrategies llmModels embeddingModels contentTypes : list string)
    (topK : nat) (testQueries : list Benchmark.Query) :
  let st :=
    Benchmark.runBenchmark benchmarkQuery searchStrategies llmModels
      embeddingModels contentTypes topK testQueries in
  let runs :=
    Runs.combinations searchStrategies llmModels embeddingModels
      contentTypes testQueries in
  Runs.calls st.1 = map (Runs.call_of topK) runs
  /\ st.2 = map (Runs.entry_of benchmarkQuery topK) runs
  /\ length st.2
     = (length searchStrategies * (length llmModels
        * (length (List.filter Runs.supported embeddingModels)
           * (length contentTypes * length testQueries))))%nat.
Proof.
  intros st runs.
  destruct (runBenchmark_appends benchmarkQuery topK searchStrategies
              llmModels embeddingModels contentTypes testQueries)
    as [Hc He].
  split; [exact Hc |]. split; [exact He |].
  subst st. rewrite He, length_map. apply length_combinations.
Qed.

(** ** The stand-alone query of the database builder *)

Section StatementFacts.
Import Statement.

Lemma add_filter_cases (col : string) (value : option string)
    (whereClause : list Condition) (params : list Param) (paramIndex : nat) :
  (given value = false
   /\ add_filter col value (whereClause, params, paramIndex)
      = (whereClause, params, paramIndex))
  \/ (exists v, value = Some v /\ given value = true
      /\ add_filter col value (whereClause, params, paramIndex)
         = (whereClause ++ [{| column := col; index := paramIndex |}],
            params ++ [Text v], S paramIndex)).
Proof.
  destruct value as [v|]; cbn [add_filter given].
  - destruct (non_empty v); [right; exists v | left]; auto.
  - left. auto.
Qed.
End StatementFacts.

(** X17. In the statement of the stand-alone query every placeholder
    stands for the parameter it was written for: [$1] for the query
    embedding, the placeholder of each condition for the value its column
    is compared with, the next one for the similarity threshold and the
    last one for [topK]; no parameter is left over. The conditions are the
    one on the embedding model and one for each of [contentType], [library]
    and [category] that is given, in this order. *)
Theorem statement_placeholders_aligned (tableName : string)
    (queryEmbedding : vector) (provider model : string)
    (options : Builder.Options) :
  let s := Statement.build tableName queryEmbedding provider model options in
  Statement.placeholder s 1 = Some (Statement.Embedding queryEmbedding)
  /\ Forall
       (fun c =>
          exists v,
            Statement.wanted provider model options (Statement.column c)
            = Some v
            /\ Statement.placeholder s (Statement.index c)
               = Some (Statement.Text v))
       (Statement.conditions s)
  /\ Statement.placeholder s (Statement.threshold_index s)
     = Some (Statement.Threshold (Builder.similarityThreshold options))
  /\ Statement.placeholder s (Statement.limit_index s)
     = Some (Statement.Limit (Builder.topK options))
  /\ length (Statement.params s) = Statement.limit_index s
  /\ map Statement.column (Statement.conditions s)
     = "embedding_model"
       :: List.filter
            (fun col =>
               Statement.given (Statement.wanted provider model options col))
            ["content_type"; "xeto_library"; "metadata->>'category'"].
Proof.
  unfold Statement.build.
  destruct (add_filter_cases "content_type" (Builder.contentType options)
              [{| Statement.column := "embedding_model";
                  Statement.index := 2 |}]
              [Statement.Embedding queryEmbedding;
               Statement.Text (provider +:+ "_" +:+ model)] 3)
    as [[G1 E1] | [v1 [V1 [G1 E1]]]]; rewrite E1; clear E1;
  match goal with
  | |- context [Statement.add_filter "xeto_library" _ (?w, ?p, ?i)] =>
      destruct (add_filter_cases "xeto_library" (Builder.library options)
                  w p i) as [[G2 E2] | [v2 [V2 [G2 E2]]]]; rewrite E2; clear E2
  end;
  match goal with
  | |- context [Statement.add_filter "metadata->>'category'" _
                  (?w, ?p, ?i)] =>
      destruct (add_filter_cases "metadata->>'category'"
                  (Builder.category options) w p i)
        as [[G3 E3] | [v3 [V3 [G3 E3]]]]; rewrite E3; clear E3
  end;
  cbn -[String.append];
  unfold Statement.wanted; cbn -[String.append];
  rewrite ?G1, ?G2, ?G3;
  (repeat split;
   [ repeat constructor; cbn -[String.append];
     eexists; (split; [first [reflexivity | eassumption] | reflexivity]) .. ]).
Qed.

Section QueryFacts.
Context {Row : Type}.
Variable provider_api :
  string -> list string -> string -> nat -> string + Builder.EmbeddingResult.
Variable executeQuery :
  string -> vector -> string -> Builder.Options -> string + list Row.

Lemma select_table_supported (dimensions : nat) :
  dimensions ∈ [768; 1536; 3072]%nat ->
  Builder.select_table dimensions
  = Builder.ret (Benchmark.tableName dimensions).
Proof.
  rewrite !elem_of_cons, elem_of_nil.
  intros [-> | [-> | [-> | []]]]; reflexivity.
Qed.

Lemma select_table_cases (dimensions : nat) :
  (dimensions ∈ [768; 1536; 3072]%nat
   /\ Builder.select_table dimensions
      = Builder.ret (Benchmark.tableName dimensions))
  \/ (exists message, Builder.select_table dimensions = Builder.throw message).
Proof.
  destruct (decide (dimensions ∈ [768; 1536; 3072]%nat)) as [Hd | Hd].
  - left. split; [exact Hd | apply select_table_supported, Hd].
  - right. eexists. apply select_table_unsupported, Hd.
Qed.
End QueryFacts.

(** X18. The stand-alone query reaches the store at most once, and only
    after the embedding request: for an unsupported provider it throws
    before any request; otherwise it asks the provider for the embedding of
    the one query text, and either throws without touching the store, or
    the answer holds an embedding of width 768, 1536 or 3072 and the
    function runs one query on the table of that width with the first
    embedding of the answer, and returns what that query returns. *)
Theorem query_reaches_store_once {Row : Type}
    (provider_api :
       string -> list string -> string -> nat ->
       string + Builder.EmbeddingResult)
    (executeQuery :
       string -> vector -> string -> Builder.Options -> string + list Row)
    (queryText provider model : string) (options : Builder.Options) :
  let r :=
    Builder.queryMultiDimensionPostgresDatabase provider_api executeQuery
      queryText provider model options in
  let request := Builder.EmbeddingRequest provider model [queryText] in
  ((provider ∉ ["openai"; "gemini"])
   /\ r = ([], inl ("Unsupported embedding provider: " +:+ provider)))
  \/ (provider ∈ ["openai"; "gemini"]
      /\ r.1 = [request] /\ exists message, r.2 = inl message)
  \/ (provider ∈ ["openai"; "gemini"]
      /\ exists answer queryEmbedding rest,
           provider_api provider [queryText] model 1 = inr answer
           /\ Builder.success answer = true
           /\ Builder.embeddings answer = Some (queryEmbedding :: rest)
           /\ length queryEmbedding ∈ [768; 1536; 3072]%nat
           /\ r.1 = [request;
                     Builder.StoreQuery
                       (Benchmark.tableName (length queryEmbedding))]
           /\ r.2 = executeQuery
                      (Benchmark.tableName (length queryEmbedding))
                      queryEmbedding (provider +:+ "_" +:+ model) options).
Proof.
  intros r request. subst r request.
  unfold Builder.queryMultiDimensionPostgresDatabase,
    Builder.generateEmbeddings.
  destruct (String.eqb provider "openai" || String.eqb provider "gemini")
    eqn:Hp.
  - assert (Hin : provider ∈ ["openai"; "gemini"]).
    { apply orb_true_iff in Hp as [Hp | Hp]; apply String.eqb_eq in Hp;
        subst provider;
        [apply list_elem_of_here
        | apply list_elem_of_further, list_elem_of_here]. }
    right.
    destruct (provider_api provider [queryText] model 1)
      as [message | answer] eqn:Hapi.
    { left. split; [exact Hin |]. cbn. rewrite ?Hapi. cbn.
      split; [reflexivity | eexists; reflexivity]. }
    destruct (Builder.success answer) eqn:Hs;
      [| left; split; [exact Hin |]; cbn; rewrite ?Hapi; cbn; rewrite ?Hs;
         split; [reflexivity | eexists; reflexivity]].
    destruct (Builder.embeddings answer) as [[| queryEmbedding rest] |]
      eqn:He;
      [left; split; [exact Hin |]; cbn; rewrite ?Hapi; cbn; rewrite ?Hs, ?He;
       split; [reflexivity | eexists; reflexivity]
      | | left; split; [exact Hin |]; cbn; rewrite ?Hapi; cbn; rewrite ?Hs, ?He;
          split; [reflexivity | eexists; reflexivity]].
    destruct (select_table_cases (length queryEmbedding))
      as [[Hd Ht] | [message Ht]].
    + right. split; [exact Hin |].
      exists answer, queryEmbedding, rest.
      repeat (split; [first [reflexivity | assumption] |]).
      cbn. rewrite ?Hapi. cbn. rewrite ?Hs, ?He, ?Ht. cbn.
      split; reflexivity.
    + left. split; [exact Hin |].
      cbn. rewrite ?Hapi. cbn. rewrite ?Hs, ?He, ?Ht. cbn.
      split; [reflexivity | eexists; reflexivity].
  - left. split; [| reflexivity].
    apply orb_false_iff in Hp as [H1 H2].
    apply String.eqb_neq in H1, H2.
    rewrite !not_elem_of_cons. repeat split; try assumption.
    apply not_elem_of_nil.
Qed.

(** ** The connection helpers *)

Section ConnectionFacts.
Import Connection.
Context {Param Result : Type}.
Variable connect : option string.
Variable client_query :
  list (Statement Param) -> Statement Param -> string + Result.

Lemma statements_app (a b : list (Event Param)) :
  statements (a ++ b) = statements a ++ statements b.
Proof. apply flat_map_app. Qed.

Lemma statements_queries (sent : list (Statement Param)) :
  statements (map Query sent) = sent.
Proof.
  induction sent as [|s sent IH]; [reflexivity |].
  cbn. f_equal. exact IH.
Qed.

Lemma releases_app (a b : list (Event Param)) :
  releases (a ++ b) = (releases a + releases b)%nat.
Proof. unfold releases. rewrite List.filter_app, length_app. reflexivity. Qed.

Lemma releases_queries (sent : list (Statement Param)) :
  releases (map Query sent) = 0%nat.
Proof. induction sent as [|s sent IH]; [reflexivity | exact IH]. Qed.

(** The loop sends a prefix of the queries after what was sent before: all
    of them when every one is answered, and otherwise up to the first one
    that fails. *)
Lemma send_all_spec (queries sent : list (Statement Param))
    (results : list Result) :
  match send_all client_query sent results queries with
  | (sent', inr results') =>
      sent' = sent ++ queries
      /\ length results' = (length results + length queries)%nat
  | (sent', inl message) =>
      exists front s back,
        queries = front ++ s :: back
        /\ sent' = sent ++ front ++ [s]
        /\ client_query (sent ++ front) s = inl message
  end.
Proof.
  revert sent results.
  induction queries as [|s rest IH]; intros sent results; cbn [send_all].
  - rewrite app_nil_r. split; [reflexivity | cbn; lia].
  - destruct (client_query sent s) as [message | result] eqn:Hs.
    + exists [], s, rest. rewrite app_nil_r. auto.
    + specialize (IH (sent ++ [s]) (results ++ [result])).
      destruct (send_all client_query (sent ++ [s]) (results ++ [result])
                  rest) as [sent' [message | results']].
      * destruct IH as [front [s' [back [Hq [Hsent Hfail]]]]].
        exists (s :: front), s', back. subst rest sent'.
        rewrite <- !app_assoc in *. cbn [app] in *. auto.
      * destruct IH as [Hsent Hlen]. subst sent'.
        rewrite <- app_assoc. cbn [app]. split; [reflexivity |].
        rewrite Hlen, length_app. cbn. lia.
Qed.

(** The [try] block sends a prefix of [BEGIN], the queries and [COMMIT],
    whole when it returns, and up to the statement that fails when it
    throws. *)
Lemma transaction_body_spec (queries : list (Statement Param)) :
  let script := statement "BEGIN" :: queries ++ [statement "COMMIT"] in
  match transaction_body client_query queries with
  | (sent, inr results) =>
      sent = script /\ length results = length queries
  | (sent, inl message) =>
      exists front s back,
        script = front ++ s :: back
        /\ sent = front ++ [s]
        /\ client_query front s = inl message
  end.
Proof.
  cbn zeta. unfold transaction_body.
  destruct (client_query [] (statement "BEGIN")) as [message | ok] eqn:Hb.
  - exists [], (statement "BEGIN"), (queries ++ [statement "COMMIT"]). auto.
  - pose proof (send_all_spec queries [statement "BEGIN"] []) as Hs.
    destruct (send_all client_query [statement "BEGIN"] [] queries)
      as [sent [message | results]].
    + destruct Hs as [front [s [back [Hq [Hsent Hfail]]]]].
      exists (statement "BEGIN" :: front), s, (back ++ [statement "COMMIT"]).
      subst queries sent. rewrite <- app_assoc. cbn [app] in *. auto.
    + destruct Hs as [Hsent Hlen]. subst sent. cbn [app length] in *.
      destruct (client_query (statement "BEGIN" :: queries)
                  (statement "COMMIT")) as [message | ok'] eqn:Hc.
      * exists (statement "BEGIN" :: queries), (statement "COMMIT"), [].
        auto.
      * auto.
Qed.
End ConnectionFacts.

(** X19. [executeQuery] and [executeTransaction] give the client back
    exactly once whenever they obtained one, as their last action, whether
    they return or throw; when no client can be obtained they throw the
    error of the pool and send nothing. *)
Theorem client_released_once {Param Result : Type} (connect : option string)
    (client_query :
       list (Connection.Statement Param) -> Connection.Statement Param ->
       string + Result)
    (text : string) (parameters : list Param)
    (queries : list (Connection.Statement Param)) :
  let q := Connection.executeQuery connect client_query text parameters in
  let t := Connection.executeTransaction connect client_query queries in
  match connect with
  | Some message =>
      q = ([Connection.Connect], inl message)
      /\ t = ([Connection.Connect], inl message)
  | None =>
      Connection.releases q.1 = 1%nat
      /\ last q.1 = Some Connection.Release
      /\ Connection.releases t.1 = 1%nat
      /\ last t.1 = Some Connection.Release
  end.
Proof.
  cbn zeta. unfold Connection.executeQuery, Connection.executeTransaction.
  destruct connect as [message |]; [split; reflexivity |].
  split; [| split].
  - destruct (client_query [] _); reflexivity.
  - destruct (client_query [] _); reflexivity.
  - destruct (Connection.transaction_body client_query queries)
      as [sent [message | results]];
      [destruct (client_query sent _) |];
      cbn [fst]; rewrite app_comm_cons, last_app;
      change (Connection.Connect :: map Connection.Query sent)
        with ([Connection.Connect] ++ map Connection.Query sent);
      rewrite !releases_app, releases_queries; split; reflexivity.
Qed.

(** X20. When [executeTransaction] returns, it has sent [BEGIN], every
    query in order and [COMMIT], and nothing else: no [ROLLBACK]; it
    returns one result per query. *)
Theorem transaction_commits {Param Result : Type} (connect : option string)
    (client_query :
       list (Connection.Statement Param) -> Connection.Statement Param ->
       string + Result)
    (queries : list (Connection.Statement Param)) (results : list Result) :
  (Connection.executeTransaction connect client_query queries).2
  = inr results ->
  (Connection.executeTransaction connect client_query queries).1
  = Connection.Connect
    :: map Connection.Query
         (Connection.statement "BEGIN"
          :: queries ++ [Connection.statement "COMMIT"])
    ++ [Connection.Release]
  /\ length results = length queries.
Proof.
  unfold Connection.executeTransaction.
  destruct connect as [message |]; [discriminate |].
  pose proof (transaction_body_spec client_query queries) as Hb.
  cbn zeta in Hb.
  destruct (Connection.transaction_body client_query queries)
    as [sent [message | results']].
  - destruct (client_query sent _); discriminate.
  - cbn [fst snd]. intros E. inversion E; subst results'.
    destruct Hb as [-> Hlen]. split; [reflexivity | exact Hlen].
Qed.

Lemma transaction_commits_witness :
  (Connection.executeTransaction (Param := string) None
     (fun _ s => inr (Connection.query s))
     [{| Connection.query := "INSERT INTO documents_768";
         Connection.params := ["a"] |}]).1
  = [Connection.Connect;
     Connection.Query (Connection.statement "BEGIN");
     Connection.Query
       {| Connection.query := "INSERT INTO documents_768";
          Connection.params := ["a"] |};
     Connection.Query (Connection.statement "COMMIT");
     Connection.Release]
  /\ length ["INSERT INTO documents_768"] = 1%nat.
Proof.
  exact (transaction_commits (Param := string) None
           (fun _ s => inr (Connection.query s))
           [{| Connection.query := "INSERT INTO documents_768";
               Connection.params := ["a"] |}]
           ["INSERT INTO documents_768"] eq_refl).
Defined.

(** X21. When [executeTransaction] has a client and throws, the statements
    it has sent are [BEGIN], the queries and [COMMIT] up to the first
    statement that failed, followed by [ROLLBACK] and nothing more: no
    query after the failing one is sent. It throws the error of the
    failing statement, unless [ROLLBACK] fails too, whose error it then
    throws in its place. *)
Theorem transaction_rolls_back {Param Result : Type}
    (client_query :
       list (Connection.Statement Param) -> Connection.Statement Param ->
       string + Result)
    (queries : list (Connection.Statement Param)) (message : string) :
  let r := Connection.executeTransaction None client_query queries in
  r.2 = inl message ->
  exists front s back cause,
    Connection.statement "BEGIN"
    :: queries ++ [Connection.statement "COMMIT"]
    = front ++ s :: back
    /\ client_query front s = inl cause
    /\ Connection.statements r.1
       = front ++ [s; Connection.statement "ROLLBACK"]
    /\ match client_query (front ++ [s])
               (Connection.statement "ROLLBACK") with
       | inr _ => message = cause
       | inl message' => message = message'
       end.
Proof.
  cbn zeta. unfold Connection.executeTransaction.
  pose proof (transaction_body_spec client_query queries) as Hb.
  cbn zeta in Hb.
  destruct (Connection.transaction_body client_query queries)
    as [sent [cause | results']].
  - destruct Hb as [front [s [back [Hscript [Hsent Hfail]]]]].
    intros Hr. exists front, s, back, cause.
    split; [exact Hscript |]. split; [exact Hfail |]. subst sent.
    destruct (client_query (front ++ [s]) _) as [message' | ok];
      cbn [fst snd] in *; inversion Hr; subst;
      (split; [| reflexivity]);
      change (Connection.Connect :: ?l) with ([Connection.Connect] ++ l);
      rewrite !statements_app, statements_queries, <- app_assoc;
      reflexivity.
  - discriminate.
Qed.

Lemma transaction_rolls_back_witness :
  exists front s back cause,
    Connection.statement "BEGIN"
    :: Connection.three_inserts ++ [Connection.statement "COMMIT"]
    = front ++ s :: back
    /\ Connection.no_such_table front s = inl cause
    /\ Connection.statements
         (Connection.executeTransaction None Connection.no_such_table
            Connection.three_inserts).1
       = front ++ [s; Connection.statement "ROLLBACK"]
    /\ match Connection.no_such_table (front ++ [s])
               (Connection.statement "ROLLBACK") with
       | inr _ => "no such table" = cause
       | inl message' => "no such table" = message'
       end.
Proof.
  exact (transaction_rolls_back Connection.no_such_table
           Connection.three_inserts "no such table" eq_refl).
Defined.

(** X22. [testConnection] never throws; it always asks the pool for a
    client first, it returns [true] exactly when it obtained one and the
    test query was answered, and it gives the client back exactly in that
    case: when the test query fails, the client it obtained is not
    released. *)
Theorem testConnection_releases_on_success {Param Result : Type}
    (connect : option string)
    (client_query :
       list (Connection.Statement Param) -> Connection.Statement Param ->
       string + Result) :
  let r := Connection.testConnection connect client_query in
  (r.2 = true
   <-> connect = None
       /\ exists result,
            client_query [] (Connection.statement "SELECT NOW()")
            = inr result)
  /\ Connection.releases r.1 = (if r.2 then 1 else 0)%nat
  /\ head r.1 = Some Connection.Connect.
Proof.
  cbn zeta. unfold Connection.testConnection.
  destruct connect as [message |].
  - cbn. split; [| split; reflexivity].
    split; [discriminate | intros [E _]; discriminate].
  - destruct (client_query [] _) as [message | result] eqn:Hq; cbn.
    + split; [| split; reflexivity].
      split; [discriminate | intros [_ [result E]]; discriminate].
    + split; [| split; reflexivity].
      split; [intros _; split; [reflexivity | exists result; reflexivity]
             | reflexivity].
Qed.

(** ** Storing embeddings *)

Section StoringFacts.
Import Storing.

Lemma table_of_supported (dimensions : nat) (tableName : string) :
  table_of dimensions = inr tableName ->
  dimensions ∈ [768; 1536; 3072]%nat
  /\ tableName = Benchmark.tableName dimensions.
Proof.
  unfold table_of.
  destruct (dimensions =? 1536)%nat eqn:H1;
    [apply Nat.eqb_eq in H1; subst; intros E; inversion E; split;
     [vm_compute; repeat constructor | reflexivity] |].
  destruct (dimensions =? 3072)%nat eqn:H2;
    [apply Nat.eqb_eq in H2; subst; intros E; inversion E; split;
     [vm_compute; repeat constructor | reflexivity] |].
  destruct (dimensions =? 768)%nat eqn:H3;
    [apply Nat.eqb_eq in H3; subst; intros E; inversion E; split;
     [vm_compute; repeat constructor | reflexivity] |].
  discriminate.
Qed.

Lemma table_of_unsupported (dimensions : nat) (message : string) :
  table_of dimensions = inl message ->
  message = "Unsupported embedding dimensions: " +:+ pretty dimensions.
Proof.
  unfold table_of.
  repeat match goal with |- context [if ?b then _ else _] => destruct b end;
    intros E; inversion E; reflexivity.
Qed.

(** The loop throws at the first embedding of an unsupported width, and
    otherwise builds one insert per pair, on the table of the width. *)
Lemma inserts_spec (contentItems : list Item) (embeddings : list vector)
    (provider model format : string) (chunkSize : nat) :
  match first_unsupported contentItems embeddings with
  | Some e =>
      inserts contentItems embeddings provider model format chunkSize
      = inl ("Unsupported embedding dimensions: " +:+ pretty (length e))
  | None =>
      inserts contentItems embeddings provider model format chunkSize
      = inr (map (fun p =>
                    insert (Benchmark.tableName (length p.2)) p.1 p.2
                      provider model format chunkSize)
               (pairs contentItems embeddings))
  end.
Proof.
  unfold first_unsupported, pairs. revert embeddings.
  induction contentItems as [|item items IH]; intros [|e es];
    try reflexivity.
  specialize (IH es). cbn [combine map List.find inserts snd fst].
  unfold supported_width at 1.
  destruct (table_of (length e)) as [message | tableName] eqn:Ht;
    cbn [negb].
  - rewrite (table_of_unsupported _ _ Ht). reflexivity.
  - apply table_of_supported in Ht as [_ ->].
    destruct (List.find _ _) as [e' |]; rewrite IH; reflexivity.
Qed.
End StoringFacts.

(** X23. Storing is all or nothing with respect to the widths: when one of
    the embeddings that the loop visits has a width other than 768, 1536 or
    3072, the function throws [Unsupported embedding dimensions] with the
    width of the first such embedding, without asking for a client and
    without sending any statement, also for the pairs before it. *)
Theorem store_rejects_before_connecting {Result : Type}
    (connect : option string)
    (client_query :
       list (Connection.Statement Storing.Param) ->
       Connection.Statement Storing.Param -> string + Result)
    (contentItems : list Storing.Item) (embeddings : list vector)
    (provider model format : string) (chunkSize : nat) (e : vector) :
  Storing.first_unsupported contentItems embeddings = Some e ->
  Storing.storeMultiDimensionEmbeddingsInPostgres connect client_query
    contentItems embeddings provider model format chunkSize
  = ([], inl ("Unsupported embedding dimensions: " +:+ pretty (length e))).
Proof.
  intros He. unfold Storing.storeMultiDimensionEmbeddingsInPostgres.
  pose proof (inserts_spec contentItems embeddings provider model format
                chunkSize) as Hs.
  rewrite He in Hs. rewrite Hs. reflexivity.
Qed.

Lemma store_rejects_before_connecting_witness :
  Storing.storeMultiDimensionEmbeddingsInPostgres (Result := unit) None
    (fun _ _ => inr tt) Storing.two_items Storing.wide_and_narrow "openai"
    "text-embedding-3-small" "xeto" 1000
  = ([], inl ("Unsupported embedding dimensions: " +:+ pretty 2%nat)).
Proof.
  apply (store_rejects_before_connecting (Result := unit) None
           (fun _ _ => inr tt) Storing.two_items Storing.wide_and_narrow
           "openai" "text-embedding-3-small" "xeto" 1000 [0; 1]%Q).
  vm_compute. reflexivity.
Defined.

(** X24. When every embedding that the loop visits has a supported width,
    the function runs one transaction with one insert per pair of an item
    and the embedding at the same position, each on the table of the width
    of its embedding, in order; the items or embeddings beyond the length
    of the shorter list are dropped without an error. *)
Theorem store_inserts_pairs {Result : Type} (connect : option string)
    (client_query :
       list (Connection.Statement Storing.Param) ->
       Connection.Statement Storing.Param -> string + Result)
    (contentItems : list Storing.Item) (embeddings : list vector)
    (provider model format : string) (chunkSize : nat) :
  Storing.first_unsupported contentItems embeddings = None ->
  let queries :=
    map (fun p =>
           Storing.insert (Benchmark.tableName (length p.2)) p.1 p.2
             provider model format chunkSize)
      (Storing.pairs contentItems embeddings) in
  (Storing.storeMultiDimensionEmbeddingsInPostgres connect client_query
     contentItems embeddings provider model format chunkSize).1
  = (Connection.executeTransaction connect client_query queries).1
  /\ length queries = Nat.min (length contentItems) (length embeddings)
  /\ Forall
       (fun p => length p.2 ∈ [768; 1536; 3072]%nat)
       (Storing.pairs contentItems embeddings).
Proof.
  intros He queries.
  unfold Storing.storeMultiDimensionEmbeddingsInPostgres.
  pose proof (inserts_spec contentItems embeddings provider model format
                chunkSize) as Hs.
  rewrite He in Hs. rewrite Hs. fold queries.
  split; [reflexivity |]. split.
  - subst queries. unfold Storing.pairs.
    rewrite length_map, length_combine. reflexivity.
  - unfold Storing.first_unsupported in He.
    apply Forall_forall. intros p Hp. apply list_elem_of_In in Hp.
    pose proof (find_none _ _ He p.2 (in_map snd _ _ Hp)) as Hw.
    apply negb_false_iff in Hw. unfold Storing.supported_width in Hw.
    destruct (Storing.table_of (length p.2)) as [|tableName] eqn:Ht;
      [discriminate |].
    exact (proj1 (table_of_supported _ _ Ht)).
Qed.

Lemma store_inserts_pairs_witness :
  length
    (map (fun p : Storing.Item * vector =>
            Storing.insert (Benchmark.tableName (length p.2)) p.1 p.2
              "openai" "text-embedding-3-small" "xeto" 1000)
       (Storing.pairs Storing.two_items [repeat 0%Q 768]))
  = Nat.min (length Storing.two_items) (length [repeat 0%Q 768]).
Proof.
  refine (proj1 (proj2
    (store_inserts_pairs (Result := unit) None (fun _ _ => inr tt)
       Storing.two_items [repeat 0%Q 768] "openai" "text-embedding-3-small"
       "xeto" 1000 _))).
  vm_compute. reflexivity.
Defined.

(** ** Chunking *)

Section ChunkingFacts.
Import Chunking.
Context {Metadata : Type}.

Lemma take_drop_chars (n : nat) (s : string) :
  take_chars n s +:+ drop_chars n s = s.
Proof.
  revert s. induction n as [|n IH]; intros [|c s]; try reflexivity.
  cbn [take_chars drop_chars]. rewrite append_cons, IH. reflexivity.
Qed.

Lemma drop_chars_empty (n : nat) : drop_chars n EmptyString = EmptyString.
Proof. destruct n; reflexivity. Qed.

Lemma drop_chars_add (a b : nat) (s : string) :
  drop_chars a (drop_chars b s) = drop_chars (b + a) s.
Proof.
  revert s. induction b as [|b IH]; intros s; [reflexivity |].
  destruct s as [|c s]; [apply drop_chars_empty |].
  cbn [drop_chars Nat.add]. apply IH.
Qed.

Lemma drop_take_chars (a n : nat) (s : string) :
  drop_chars a (take_chars n s) = take_chars (n - a) (drop_chars a s).
Proof.
  revert n s. induction a as [|a IH]; intros n s.
  - rewrite Nat.sub_0_r. reflexivity.
  - destruct n as [|n]; destruct s as [|c s];
      cbn [take_chars drop_chars Nat.sub];
      try solve [reflexivity
                | destruct (drop_chars a s); reflexivity
                | destruct (n - a)%nat; reflexivity].
    apply IH.
Qed.

Lemma length_take_chars (n : nat) (s : string) :
  String.length (take_chars n s) = Nat.min n (String.length s).
Proof.
  revert s. induction n as [|n IH]; intros [|c s]; try reflexivity.
  cbn [take_chars String.length]. rewrite IH. reflexivity.
Qed.

Lemma length_drop_chars (n : nat) (s : string) :
  String.length (drop_chars n s) = (String.length s - n)%nat.
Proof.
  revert s. induction n as [|n IH]; intros [|c s]; try reflexivity.
  cbn [drop_chars String.length]. rewrite IH. reflexivity.
Qed.

Lemma take_chars_all (n : nat) (s : string) :
  (String.length s <= n)%nat -> take_chars n s = s.
Proof.
  revert s. induction n as [|n IH]; intros [|c s] Hs; try reflexivity.
  - cbn in Hs. lia.
  - cbn [take_chars]. rewrite IH; [reflexivity | cbn in Hs; lia].
Qed.

Lemma overlap_of_lt (size : nat) :
  (1 <= size)%nat -> (overlap_of size < size)%nat.
Proof.
  intros Hs. unfold overlap_of.
  pose proof (Nat.Div0.div_le_upper_bound size 10 size) as Hd.
  assert (size / 10 < size)%nat by (apply Nat.div_lt; lia). lia.
Qed.

Lemma ceil_div_bound (a b n : nat) :
  (1 <= b)%nat -> (n * b < a)%nat -> (n < (a + b - 1) / b)%nat.
Proof.
  intros Hb Hn.
  apply Nat.div_le_lower_bound; [lia |]. nia.
Qed.

(** The loop from [start], with the overlap below the size: it ends, and
    the chunks it gives continue the content from [start]. *)
Lemma chunk_loop_spec (item : Item Metadata) (size overlap : nat) :
  (overlap < size)%nat ->
  forall fuel start index : nat,
    let len := String.length (content item) in
    (start + overlap < len)%nat ->
    (len - start <= fuel)%nat ->
    exists c rest,
      chunk_loop fuel item size overlap start index = Some (c :: rest)
      /\ chunkContent c
         = slice (content item) start (Nat.min (start + size) len)
      /\ tail_text overlap (c :: rest)
         = drop_chars (start + overlap) (content item)
      /\ Forall (fun c => (String.length (chunkContent c) <= size)%nat)
           (c :: rest)
      /\ map chunkIndex (c :: rest) = seq index (S (length rest))
      /\ Forall
           (fun c => totalChunks c = ceil_div len (size - overlap)
                     /\ chunkSize c = size /\ itemMetadata c = metadata item)
           (c :: rest)
      /\ (length rest * (size - overlap) + start + overlap < len)%nat
      /\ (len <= S (length rest) * (size - overlap) + start + overlap)%nat.
Proof.
  intros Hov fuel. induction fuel as [|fuel IH]; intros start index len Hs Hf.
  - lia.
  - cbn [chunk_loop]. fold len.
    assert (Hlt : (start <? len)%nat = true) by (apply Nat.ltb_lt; lia).
    rewrite Hlt.
    destruct (len <=? Nat.min (start + size) len)%nat eqn:Hend.
    + apply Nat.leb_le in Hend.
      eexists; exists []. split; [reflexivity |].
      cbn [chunkContent tail_text fold_right length map seq].
      split; [reflexivity |]. split; [| split; [| split; [| split]]].
      * rewrite append_nil_r. unfold slice.
        rewrite take_chars_all
          by (rewrite length_drop_chars; fold len; lia).
        apply drop_chars_add.
      * constructor; [| constructor]. cbn [chunkContent]. unfold slice.
        rewrite length_take_chars. lia.
      * reflexivity.
      * constructor; [| constructor]. cbn. auto.
      * split; lia.
    + apply Nat.leb_gt in Hend.
      assert (Hmin : Nat.min (start + size) len = (start + size)%nat)
        by lia.
      rewrite Hmin in *.
      destruct (IH (start + size - overlap)%nat (S index))
        as [c [rest [Hloop [Hc [Htail [Hlen [Hidx [Hmeta [Hlo Hhi]]]]]]]]];
        [fold len; lia | fold len; lia |].
      fold len in Hc, Hlo, Hhi, Hmeta. rewrite Hloop. cbn [option_map].
      eexists; eexists. split; [reflexivity |].
      cbn [chunkContent]. split; [reflexivity |].
      split; [| split; [| split; [| split]]].
      * change (tail_text overlap (?x :: ?l))
          with (drop_chars overlap (chunkContent x) +:+ tail_text overlap l).
        rewrite Htail. cbn [chunkContent]. unfold slice.
        rewrite drop_take_chars, drop_chars_add.
        replace (start + size - overlap + overlap)%nat
          with (start + overlap + (start + size - start - overlap))%nat
          by lia.
        rewrite <- (drop_chars_add (start + size - start - overlap)
                      (start + overlap)).
        apply take_drop_chars.
      * constructor; [| exact Hlen]. cbn [chunkContent]. unfold slice.
        rewrite length_take_chars. lia.
      * rewrite map_cons, Hidx. reflexivity.
      * constructor; [cbn; auto | exact Hmeta].
      * cbn [length]. split; nia.
Qed.
End ChunkingFacts.

Section ChunkingItems.
Import Chunking.
Context {Metadata : Type}.

Lemma append_inv_head (a b c : string) : a +:+ b = a +:+ c -> b = c.
Proof.
  induction a as [|ch a IH]; intros E; [exact E |].
  rewrite !append_cons in E. inversion E. auto.
Qed.

(** The chunks of one item, for a size of 1 at least. *)
Lemma item_chunks_spec (fuel : nat) (item : Item Metadata) (size : nat) :
  (1 <= size)%nat ->
  (String.length (content item) < fuel)%nat ->
  let len := String.length (content item) in
  let step := (size - overlap_of size)%nat in
  exists chunks,
    item_chunks fuel item size = Some chunks
    /\ reassemble (overlap_of size) chunks = content item
    /\ Forall
         (fun c => (String.length (chunkContent c) <= size)%nat
                   /\ chunkSize c = size /\ itemMetadata c = metadata item)
         chunks
    /\ map chunkIndex chunks = seq 0 (length chunks)
    /\ Forall
         (fun c => totalChunks c
                   = if (len <=? size)%nat then Finite 1
                     else Finite ((len + step - 1) / step))
         chunks
    /\ (if (len <=? size)%nat then length chunks = 1%nat
        else ((length chunks - 1) * step + overlap_of size < len)%nat
             /\ (len <= length chunks * step + overlap_of size)%nat).
Proof.
  intros Hsize Hfuel len step. unfold item_chunks. fold len.
  pose proof (overlap_of_lt size Hsize) as Hov.
  destruct (len <=? size)%nat eqn:Hfit.
  - apply Nat.leb_le in Hfit. eexists. split; [reflexivity |].
    cbn [reassemble tail_text fold_right map chunkIndex length seq].
    rewrite append_nil_r. split; [reflexivity |].
    split; [constructor; [cbn; fold len; auto | constructor] |].
    split; [reflexivity |].
    split; [constructor; [reflexivity | constructor] | reflexivity].
  - apply Nat.leb_gt in Hfit.
    destruct (chunk_loop_spec item size (overlap_of size) Hov fuel 0 0)
      as [c [rest [Hloop [Hc [Htail [Hlen [Hidx [Hmeta [Hlo Hhi]]]]]]]]];
      [fold len; lia | fold len; lia |].
    fold len in Hc, Hlo, Hhi, Hmeta.
    assert (Hmin : Nat.min (0 + size) len = size) by lia.
    rewrite Hmin in Hc.
    exists (c :: rest). split; [exact Hloop |].
    split; [| split; [| split; [exact Hidx | split]]].
    + cbn [reassemble]. rewrite Hc.
      change (tail_text (overlap_of size) (c :: rest))
        with (drop_chars (overlap_of size) (chunkContent c)
              +:+ tail_text (overlap_of size) rest) in Htail.
      rewrite Hc in Htail. unfold slice in *.
      cbn [drop_chars Nat.add] in *. rewrite Nat.sub_0_r in *.
      rewrite drop_take_chars in Htail.
      rewrite <- (take_drop_chars (size - overlap_of size)
                    (drop_chars (overlap_of size) (content item)))
        in Htail at 2.
      apply append_inv_head in Htail. rewrite Htail, drop_chars_add.
      replace (overlap_of size + (size - overlap_of size))%nat
        with size by lia.
      apply take_drop_chars.
    + apply Forall_and. split; [exact Hlen |].
      eapply Forall_impl; [exact Hmeta |]. intros x [_ Hx]. exact Hx.
    + eapply Forall_impl; [exact Hmeta |]. intros x [Hx _]. cbn beta.
      rewrite Hx. unfold ceil_div. fold step.
      destruct step eqn:Hstep; [unfold step in Hstep; lia | reflexivity].
    + cbn [length] in *. fold step. split; [| lia].
      replace (S (length rest) - 1)%nat with (length rest) by lia. lia.
Qed.

Lemma chunk_loop_zero (fuel : nat) (item : Item Metadata) (index : nat) :
  content item <> EmptyString ->
  chunk_loop fuel item 0 0 0 index = None.
Proof.
  intros Hc. revert index. induction fuel as [|fuel IH]; intros index;
    [reflexivity |].
  cbn [chunk_loop]. destruct (content item) as [|ch s] eqn:Hs;
    [contradiction |].
  cbn [String.length Nat.ltb Nat.leb Nat.add Nat.min Nat.sub].
  change (0 <? S (String.length s))%nat with true. cbn iota.
  rewrite IH. reflexivity.
Qed.
End ChunkingItems.

(** X25. For a chunk size of 1 at least, [createChunks] ends, and the
    chunks of each item give the content of the item back: the text of the
    first chunk, followed by the text of each later chunk without its
    first [overlap] characters, is the content. The chunks of an item are
    numbered from 0, none is longer than the chunk size, and each carries
    the metadata of its item. *)
Theorem createChunks_reassembles {Metadata : Type} (fuel : nat)
    (contentItems : list (Chunking.Item Metadata)) (size : nat) :
  (1 <= size)%nat ->
  Forall
    (fun item => (String.length (Chunking.content item) < fuel)%nat)
    contentItems ->
  exists groups : list (list (Chunking.Chunk Metadata)),
    Chunking.createChunks fuel contentItems size = Some (concat groups)
    /\ Forall2
         (fun item chunks =>
            Chunking.reassemble (Chunking.overlap_of size) chunks
            = Chunking.content item
            /\ Forall
                 (fun c =>
                    (String.length (Chunking.chunkContent c) <= size)%nat
                    /\ Chunking.chunkSize c = size
                    /\ Chunking.itemMetadata c = Chunking.metadata item)
                 chunks
            /\ map Chunking.chunkIndex chunks = seq 0 (length chunks))
         contentItems groups.
Proof.
  intros Hsize Hfuel.
  induction Hfuel as [|item items Hitem Hitems IH].
  - exists []. split; [reflexivity | constructor].
  - destruct IH as [groups [Hrest Hgroups]].
    destruct (item_chunks_spec fuel item size Hsize Hitem)
      as [chunks [Hc [Hre [Hall [Hidx _]]]]].
    exists (chunks :: groups). cbn [Chunking.createChunks concat].
    rewrite Hc, Hrest. split; [reflexivity |].
    constructor; [| exact Hgroups]. auto.
Qed.

Lemma createChunks_reassembles_witness :
  exists groups : list (list (Chunking.Chunk unit)),
    Chunking.createChunks 26 [Chunking.alphabet] 10 = Some (concat groups)
    /\ Forall2
         (fun item chunks =>
            Chunking.reassemble (Chunking.overlap_of 10) chunks
            = Chunking.content item
            /\ Forall
                 (fun c =>
                    (String.length (Chunking.chunkContent c) <= 10)%nat
                    /\ Chunking.chunkSize c = 10%nat
                    /\ Chunking.itemMetadata c = Chunking.metadata item)
                 chunks
            /\ map Chunking.chunkIndex chunks = seq 0 (length chunks))
         [Chunking.alphabet] groups.
Proof.
  apply (createChunks_reassembles 26 [Chunking.alphabet] 10).
  - lia.
  - constructor; [vm_compute; lia | constructor].
Defined.

(** X26. For a chunk size of 0, [createChunks] does not end as soon as one
    item has a content that is not empty: no number of turns of the inner
    loop suffices. *)
Theorem createChunks_zero_size_diverges {Metadata : Type} (fuel : nat)
    (contentItems : list (Chunking.Item Metadata)) :
  Exists (fun item => Chunking.content item <> EmptyString) contentItems ->
  Chunking.createChunks fuel contentItems 0 = None.
Proof.
  intros Hex. induction Hex as [item items Hitem | item items Hitems IH];
    cbn [Chunking.createChunks].
  - unfold Chunking.item_chunks.
    destruct (String.length (Chunking.content item) <=? 0)%nat eqn:Hlen.
    + apply Nat.leb_le in Hlen.
      destruct (Chunking.content item); [contradiction | cbn in Hlen; lia].
    + change (Chunking.overlap_of 0) with 0%nat.
      rewrite (chunk_loop_zero fuel item 0 Hitem). reflexivity.
  - rewrite IH. destruct (Chunking.item_chunks fuel item 0); reflexivity.
Qed.

Lemma createChunks_zero_size_diverges_witness :
  Chunking.createChunks 1000 [Chunking.alphabet] 0 = None.
Proof.
  apply createChunks_zero_size_diverges.
  constructor. discriminate.
Defined.

(** X27. For a chunk size of 1 at least, every chunk of an item reports the
    same [totalChunks], which is never below the number of chunks made for
    the item but can exceed it: an item longer than the chunk size gets
    the least number [n] of chunks with [len <= n * step + overlap], where
    [step] is the chunk size less the overlap, and reports the least [t]
    with [len <= t * step]. *)
Theorem createChunks_total_is_upper_bound {Metadata : Type} (fuel : nat)
    (item : Chunking.Item Metadata) (size : nat) :
  (1 <= size)%nat ->
  (String.length (Chunking.content item) < fuel)%nat ->
  let len := String.length (Chunking.content item) in
  let overlap := Chunking.overlap_of size in
  let step := (size - overlap)%nat in
  exists chunks total,
    Chunking.item_chunks fuel item size = Some chunks
    /\ Forall (fun c => Chunking.totalChunks c = Chunking.Finite total)
         chunks
    /\ (1 <= length chunks <= total)%nat
    /\ ((len <= size)%nat /\ length chunks = 1%nat /\ total = 1%nat
        \/ (size < len)%nat
           /\ ((length chunks - 1) * step + overlap < len)%nat
           /\ (len <= length chunks * step + overlap)%nat
           /\ ((total - 1) * step < len)%nat
           /\ (len <= total * step)%nat).
Proof.
  intros Hsize Hfuel len overlap step.
  destruct (item_chunks_spec fuel item size Hsize Hfuel)
    as [chunks [Hc [_ [_ [_ [Htotal Hcount]]]]]].
  fold len overlap step in Htotal, Hcount.
  pose proof (overlap_of_lt size Hsize) as Hov. fold overlap in Hov.
  assert (Hstep : (1 <= step)%nat) by (unfold step; lia).
  clearbody step overlap len.
  destruct (len <=? size)%nat eqn:Hfit.
  - apply Nat.leb_le in Hfit. exists chunks, 1%nat.
    split; [exact Hc |]. split; [exact Htotal |].
    split; [lia | left; auto].
  - apply Nat.leb_gt in Hfit. destruct Hcount as [Hlo Hhi].
    exists chunks, ((len + step - 1) / step)%nat.
    split; [exact Hc |]. split; [exact Htotal |].
    pose proof (Nat.div_mod_eq (len + step - 1) step) as Hdm.
    pose proof (Nat.mod_upper_bound (len + step - 1) step
                  ltac:(lia)) as Hmod.
    assert (Hn : (1 <= length chunks)%nat).
    { destruct chunks; [cbn in Hhi; lia | cbn; lia]. }
    assert (Hup : (len <= (len + step - 1) / step * step)%nat) by nia.
    assert (Hdown : (((len + step - 1) / step - 1) * step < len)%nat)
      by nia.
    split; [split; [exact Hn | nia] |].
    right. auto.
Qed.

(** An item of 19 characters cut with a chunk size of 10 gets two chunks,
    and both report three. *)
Example createChunks_total_overstated :
  option_map
    (map (fun c => (Chunking.chunkContent c, Chunking.totalChunks c)))
    (Chunking.createChunks 20
       [{| Chunking.content := "abcdefghijklmnopqrs";
           Chunking.metadata := tt |}] 10)
  = Some [("abcdefghij", Chunking.Finite 3);
          ("jklmnopqrs", Chunking.Finite 3)].
Proof. vm_compute. reflexivity. Qed.

Lemma createChunks_total_is_upper_bound_witness :
  exists chunks total,
    Chunking.item_chunks 26 Chunking.alphabet 6 = Some chunks
    /\ Forall (fun c => Chunking.totalChunks c = Chunking.Finite total)
         chunks
    /\ (1 <= length chunks <= total)%nat.
Proof.
  destruct (createChunks_total_is_upper_bound 26 Chunking.alphabet 6)
    as [chunks [total [Hc [Ht [Hn _]]]]].
  - lia.
  - vm_compute. lia.
  - exists chunks, total. auto.
Defined.

(** ** Grouping results *)

Section GroupingFacts.
Import Grouping.
Context {X : Type}.

Lemma group_of_snoc (keyValue : X -> string) (k : string) (array : list X)
    (item : X) :
  group_of keyValue k (array ++ [item])
  = if decide (keyValue item = k)
    then Some (default [] (group_of keyValue k array) ++ [item])
    else group_of keyValue k array.
Proof.
  unfold group_of. rewrite filter_app.
  destruct (decide (keyValue item = k)) as [Hk | Hk].
  - rewrite (filter_cons_True (fun x => keyValue x = k) item [] Hk),
      filter_nil.
    destruct (filter _ array); reflexivity.
  - rewrite (filter_cons_False (fun x => keyValue x = k) item [] Hk),
      filter_nil, app_nil_r.
    reflexivity.
Qed.

Lemma filter_every (P : X -> Prop) `{!forall x, Decision (P x)}
    (l : list X) :
  Forall P l -> filter P l = l.
Proof.
  induction 1 as [|x l Hx Hl IH]; [reflexivity |].
  rewrite (filter_cons_True P x l Hx), IH. reflexivity.
Qed.

Lemma filter_nothing (P : X -> Prop) `{!forall x, Decision (P x)}
    (l : list X) :
  Forall (fun x => ~ P x) l -> filter P l = [].
Proof.
  induction 1 as [|x l Hx Hl IH]; [reflexivity |].
  rewrite (filter_cons_False P x l Hx), IH. reflexivity.
Qed.

Lemma groups_by_spec (keyValue : X -> string) (array : list X) :
  Forall (fun item => keyValue item ∉ inherited) array ->
  exists groups,
    groups_by keyValue array = Some groups
    /\ forall k, groups !! k = group_of keyValue k array.
Proof.
  induction array as [|item array IH] using rev_ind; intros Hall.
  - exists ∅. split; [reflexivity |]. intros k. apply lookup_empty.
  - apply Forall_app in Hall as [Harray Hitem].
    apply Forall_cons in Hitem as [Hitem _].
    destruct (IH Harray) as [groups [Hg Hlookup]].
    unfold groups_by in *. rewrite fold_left_app, Hg.
    cbn [fold_left group_step].
    rewrite (bool_decide_eq_false_2 _ Hitem).
    eexists. split; [reflexivity |]. intros k.
    rewrite lookup_insert, group_of_snoc.
    destruct (decide (keyValue item = k)) as [Hk | Hk]; [| apply Hlookup].
    subst k. rewrite Hlookup. reflexivity.
Qed.
End GroupingFacts.

(** X28. [groupBy] partitions the array by the key: when no key is a
    property name that objects inherit, the group stored under a key holds
    exactly the items of that key, in the order of the array, and no key
    without an item has a group. This holds for the variant that reads a
    property and for the variant that also accepts a function. *)
Theorem groupBy_partitions {X : Type} (property : X -> string -> option string)
    (array : list X) (key : Grouping.Key X) :
  let keyValue item :=
    match key with
    | Grouping.Function _ f => Grouping.key_text (f item)
    | Grouping.Name name => Grouping.key_text (property item name)
    end in
  Forall (fun item => keyValue item ∉ Grouping.inherited) array ->
  exists groups,
    Grouping.groupBy property array key = Some groups
    /\ (forall k, groups !! k = Grouping.group_of keyValue k array)
    /\ match key with
       | Grouping.Name _ =>
           Grouping.groupBy_property property array key = Some groups
       | Grouping.Function _ _ => True
       end.
Proof.
  intros keyValue Hall.
  destruct (groups_by_spec keyValue array Hall) as [groups [Hg Hl]].
  exists groups. split; [exact Hg |]. split; [exact Hl |].
  destruct key; [exact Hg | exact I].
Qed.

Lemma groupBy_partitions_witness :
  exists groups,
    Grouping.groupBy Grouping.model_only [("gpt", 1%nat); ("gemini", 2%nat)]
      (Grouping.Name "llm_model") = Some groups
    /\ groups !! "gpt" = Some [("gpt", 1%nat)].
Proof.
  destruct (groupBy_partitions Grouping.model_only
              [("gpt", 1%nat); ("gemini", 2%nat)]
              (Grouping.Name "llm_model"))
    as [groups [Hg [Hl _]]].
  - repeat constructor; apply (bool_decide_unpack _); vm_compute; exact I.
  - exists groups. split; [exact Hg |]. rewrite Hl. reflexivity.
Defined.

(** X29. The variant of [groupBy] that reads [item[key]] does not group by
    a function: when the source text of the function names no property of
    the items, every item lands in the one group ["undefined"], whatever
    the function computes. *)
Theorem groupBy_property_ignores_function {X : Type}
    (property : X -> string -> option string) (array : list X)
    (source : string) (f : X -> option string) :
  Forall (fun item => property item source = None) array ->
  array <> [] ->
  Grouping.groupBy_property property array (Grouping.Function source f)
  = Some {["undefined" := array]}.
Proof.
  intros Hnone Hne. unfold Grouping.groupBy_property.
  destruct (groups_by_spec
              (fun item => Grouping.key_text (property item source)) array)
    as [groups [Hg Hl]].
  - eapply Forall_impl; [exact Hnone |]. intros item Hitem. cbn beta.
    rewrite Hitem. apply (bool_decide_unpack _). vm_compute. exact I.
  - rewrite Hg. f_equal. apply map_eq. intros k.
    rewrite Hl, lookup_singleton. unfold Grouping.group_of.
    destruct (decide ("undefined" = k)) as [<- | Hk].
    + rewrite filter_every.
      * destruct array; [contradiction | reflexivity].
      * eapply Forall_impl; [exact Hnone |]. intros item Hitem. cbn beta.
        rewrite Hitem. reflexivity.
    + rewrite filter_nothing; [reflexivity |].
      eapply Forall_impl; [exact Hnone |]. intros item Hitem. cbn beta.
      rewrite Hitem. exact Hk.
Qed.

Lemma groupBy_property_ignores_function_witness :
  Grouping.groupBy_property Grouping.model_only
    [("gpt", 1%nat); ("gemini", 2%nat)] Grouping.by_context_size
  = Some {["undefined" := [("gpt", 1%nat); ("gemini", 2%nat)]]}.
Proof.
  apply groupBy_property_ignores_function.
  - repeat constructor.
  - discriminate.
Defined.
